(** * eCourts case-status scraper: a shallow embedding of [app.py]

    The development follows the layout of the program:

    - Python values the program manipulates (strings as sequences of code
      points, insertion-ordered dictionaries);
    - the markup tree the extraction engine queries, with the handful of
      BeautifulSoup queries [parse_html_data] uses;
    - the two paired regular expressions of [parse_html_data], run by a small
      backtracking matcher;
    - [parse_html_data] itself, section by section;
    - the CAPTCHA loop of [scrape_ecourts] and its validation poll;
    - [create_pdf] over an explicit FPDF cursor;
    - the request handler [handle_scrape_request].

    Definitions come first, statements and proofs afterwards. *)

From Stdlib Require Import String Ascii.
From Stdlib Require Import List Bool Arith NArith ZArith QArith Qminmax Lia Lqa.
From Stdlib Require Import DecimalString.
Import ListNotations.
Open Scope nat_scope.

Set Implicit Arguments.
Set Warnings "-register-all".

(* ================================================================== *)
(** * Part I. Definitions                                              *)
(* ================================================================== *)

(** ** Python strings

    A Python [str] is a sequence of Unicode code points.  Literals of the
    source are ASCII and are written [str "..."]. *)

Module PyStr.

Definition char := N.
Definition pystr := list char.

Definition str (s : string) : pystr :=
List.map N_of_ascii (list_ascii_of_string s).

Fixpoint eqb (a b : pystr) : bool :=
match a, b with
| [], [] => true
| x :: a', y :: b' => N.eqb x y && eqb a' b'
| _, _ => false
end.

(** [str.isspace] for a single code point; [str.strip] and the regular
    expression class [\s] both use this set. *)
Definition isspace (c : char) : bool :=
((9 <=? c) && (c <=? 13) || (28 <=? c) && (c <=? 32) || (c =? 133)
 || (c =? 160) || (c =? 5760) || (8192 <=? c) && (c <=? 8202)
 || (c =? 8232) || (c =? 8233) || (c =? 8239) || (c =? 8287)
 || (c =? 12288))%N.

Fixpoint lstrip_by (p : char -> bool) (s : pystr) : pystr :=
match s with
| c :: s' => if p c then lstrip_by p s' else s
| [] => []
end.

Definition rstrip_by (p : char -> bool) (s : pystr) : pystr :=
rev (lstrip_by p (rev s)).

(** [s.strip()] *)
Definition strip (s : pystr) : pystr := rstrip_by isspace (lstrip_by isspace s).

(** [s.lstrip(":")] *)
Definition lstrip_colon (s : pystr) : pystr := lstrip_by (N.eqb 58) s.

(** [s.replace(u'\xa0', ' ')] *)
Definition replace_nbsp (s : pystr) : pystr :=
List.map (fun c => if (c =? 160)%N then 32%N else c) s.

(** ASCII lower-casing, as [str.lower] acts on the phrases the program
    looks for. *)
Definition lower_char (c : char) : char :=
if ((65 <=? c) && (c <=? 90))%N then (c + 32)%N else c.

Definition lower (s : pystr) : pystr := List.map lower_char s.

Fixpoint startswith (p s : pystr) : bool :=
match p, s with
| [], _ => true
| x :: p', y :: s' => N.eqb x y && startswith p' s'
| _ :: _, [] => false
end.

(** [p in s] *)
Fixpoint contains (p s : pystr) : bool :=
startswith p s ||
match s with
| [] => false
| _ :: s' => contains p s'
end.

(** [s.split(":", 1)[1]], defined when [":" in s]. *)
Fixpoint after_first_colon (s : pystr) : option pystr :=
match s with
| [] => None
| c :: s' => if (c =? 58)%N then Some s' else after_first_colon s'
end.

(** [sep.join(parts)] *)
Fixpoint join (sep : pystr) (parts : list pystr) : pystr :=
match parts with
| [] => []
| [p] => p
| p :: ps => p ++ sep ++ join sep ps
end.

(** Truthiness of a string: [bool(s)]. *)
Definition truthy (s : pystr) : bool :=
match s with [] => false | _ => true end.

End PyStr.

Import PyStr.

(** ** Insertion-ordered dictionaries

    A Python [dict] keeps its keys in insertion order; assigning to a key
    that exists replaces the value in place. *)

Module Dict.

Section WithValue.
Variable V : Type.

Definition dict := list (pystr * V).

Fixpoint get (d : dict) (k : pystr) : option V :=
match d with
| [] => None
| (k', v) :: d' => if PyStr.eqb k' k then Some v else get d' k
end.

(** [d[k] = v] *)
Fixpoint set (d : dict) (k : pystr) (v : V) : dict :=
match d with
| [] => [(k, v)]
| (k', v') :: d' =>
    if PyStr.eqb k' k then (k', v) :: d' else (k', v') :: set d' k v
end.

Definition keys (d : dict) : list pystr := List.map fst d.

Definition mem (d : dict) (k : pystr) : bool :=
match get d k with Some _ => true | None => false end.

(** [dict(pairs)] *)
Definition of_pairs (ps : list (pystr * V)) : dict :=
fold_left (fun d kv => set d (fst kv) (snd kv)) ps [].

End WithValue.

(** [d.get(k, default)] *)
Definition get_default {V} (d : dict V) (k : pystr) (default : V) : V :=
match get d k with Some v => v | None => default end.

End Dict.

(** ** The markup tree

    [BeautifulSoup(html_content, 'html.parser')] yields a tree of tags and
    text nodes.  A tag object knows where it sits, so a handle is a node
    together with the frames of its ancestors, innermost first; the
    [BeautifulSoup] object itself is the root and has no frame. *)

Module Soup.

Inductive node :=
| NavigableString (s : pystr)
| Tag (name : pystr) (attrs : list (pystr * pystr)) (contents : list node).

Record frame := mkFrame {
  f_name : pystr;
  f_attrs : list (pystr * pystr);
  f_left : list node;   (* earlier siblings, nearest first *)
  f_right : list node   (* later siblings, in document order *)
}.

Definition handle := (node * list frame)%type.

(** The root handle of a parsed document. *)
Definition soup (body : list node) : handle :=
(Tag (str "[document]") [] body, []).

Definition tag_name (n : node) : option pystr :=
match n with Tag nm _ _ => Some nm | NavigableString _ => None end.

Definition attr (n : node) (a : pystr) : option pystr :=
match n with
| Tag _ ats _ => Dict.get ats a
| NavigableString _ => None
end.

(** [tag.descendants], in document order, each with its position. *)
Fixpoint descendants_in (n : node) (ctx : list frame) {struct n} : list handle :=
match n with
| NavigableString _ => []
| Tag nm ats cs =>
    (fix walk (left rest : list node) {struct rest} : list handle :=
       match rest with
       | [] => []
       | c :: rest' =>
           let ctx' := mkFrame nm ats left rest' :: ctx in
           (c, ctx') :: descendants_in c ctx' ++ walk (c :: left) rest'
       end) [] cs
end.

Definition descendants (h : handle) : list handle :=
descendants_in (fst h) (snd h).

(** Whitespace-separated tokens of an attribute value ([class] is a
    multi-valued attribute). *)
Fixpoint tokens_aux (cur : pystr) (s : pystr) : list pystr :=
match s with
| [] => match cur with [] => [] | _ => [rev cur] end
| c :: s' =>
    if isspace c
    then match cur with [] => tokens_aux [] s' | _ => rev cur :: tokens_aux [] s' end
    else tokens_aux (c :: cur) s'
end.

Definition tokens (s : pystr) : list pystr := tokens_aux [] s.

(** [class_="c"]: some class token is [c], or the whole value is. *)
Definition has_class (c : pystr) (n : node) : bool :=
match attr n (str "class") with
| Some v => existsb (PyStr.eqb c) (tokens v) || PyStr.eqb c v
| None => false
end.

(** [style=lambda s: s and sub in s] *)
Definition style_contains (sub : pystr) (n : node) : bool :=
match attr n (str "style") with
| Some v => truthy v && contains sub v
| None => false
end.

Definition named (nm : pystr) (n : node) : bool :=
match tag_name n with Some nm' => PyStr.eqb nm nm' | None => false end.

(** [tag.string]: the single text child, looked for through single-child
    chains. *)
Fixpoint string_of (n : node) : option pystr :=
match n with
| NavigableString s => Some s
| Tag _ _ [c] => string_of c
| Tag _ _ _ => None
end.

(** [string=re.compile(phrase)] for a plain phrase: the tag's [.string]
    exists and the phrase occurs in it. *)
Definition string_matches (phrase : pystr) (n : node) : bool :=
match n with
| NavigableString _ => false
| Tag _ _ _ =>
    match string_of n with
    | Some s => contains phrase s
    | None => false
    end
end.

(** [h.find_all(name, filter)] *)
Definition find_all (h : handle) (nm : pystr) (p : node -> bool) : list handle :=
filter (fun d => named nm (fst d) && p (fst d)) (descendants h).

(** [h.find(name, filter)] *)
Definition find (h : handle) (nm : pystr) (p : node -> bool) : option handle :=
hd_error (find_all h nm p).

Definition any_tag (n : node) : bool := true.

(** [h.find_parent(name, filter)]: the nearest proper ancestor that
    matches.  The recursion follows the frames, rebuilding each ancestor
    from its frame. *)
Fixpoint find_parent_in (n : node) (ctx : list frame) (nm : pystr) (p : node -> bool)
  : option handle :=
match ctx with
| [] => None
| f :: ctx' =>
    let up := Tag (f_name f) (f_attrs f) (rev_append (f_left f) (n :: f_right f)) in
    if named nm up && p up then Some (up, ctx') else find_parent_in up ctx' nm p
end.

Definition find_parent (h : handle) (nm : pystr) (p : node -> bool) : option handle :=
find_parent_in (fst h) (snd h) nm p.

(** Later siblings of a handle, each with its own position. *)
Fixpoint siblings_after (f : frame) (ctx : list frame) (left : list node) (rest : list node)
  : list handle :=
match rest with
| [] => []
| c :: rest' =>
    (c, mkFrame (f_name f) (f_attrs f) left rest' :: ctx)
      :: siblings_after f ctx (c :: left) rest'
end.

Definition next_siblings (h : handle) : list handle :=
match snd h with
| [] => []
| f :: ctx => siblings_after f ctx (fst h :: f_left f) (f_right f)
end.

(** [h.find_next_sibling(name)] *)
Definition find_next_sibling (h : handle) (nm : pystr) : option handle :=
hd_error (filter (fun d => named nm (fst d)) (next_siblings h)).

(** All text nodes below a node, in document order. *)
Fixpoint strings_of (n : node) : list pystr :=
match n with
| NavigableString s => [s]
| Tag _ _ cs => flat_map strings_of cs
end.

Definition nonempty (s : pystr) : bool := truthy s.

(** [h.get_text(separator=sep, strip=True)]: every text node is stripped,
    empty ones are skipped, the rest joined. *)
Definition get_text_strip (sep : pystr) (h : handle) : pystr :=
join sep (filter nonempty (List.map strip (strings_of (fst h)))).

(** [h.get_text()] *)
Definition get_text (h : handle) : pystr :=
concat (strings_of (fst h)).

End Soup.

(** ** Regular expressions

    Only the shapes the two paired patterns of [parse_html_data] need:
    literals (matched under [re.IGNORECASE]) and starred character classes,
    greedy or lazy, capturing or not.  The matcher backtracks in Python's
    order: a greedy star tries the longest run first, a lazy one the
    shortest; [search] tries start offsets from the left. *)

Module Regex.

Inductive item :=
| Lit (s : pystr)
| Star (greedy : bool) (cls : char -> bool) (capture : bool).

Definition is_ascii_letter (c : char) : bool :=
((65 <=? c) && (c <=? 90) || (97 <=? c) && (c <=? 122))%N.

(** Whether the character [b] of a text matches the character [a] of a
    pattern under [re.IGNORECASE].  The patterns are [str] patterns, so
    the Unicode rules apply: a letter of the pattern matches every
    character whose lower case is the letter's, and the other lower-case
    characters that share its upper case.  For an ASCII letter these are
    its two cases and, besides, U+0130 and U+0131 for [i], U+017F for [s]
    and U+212A for [k]; any other ASCII character matches itself only.
    The patterns of the program are ASCII; a character of a pattern
    outside ASCII is compared as it is. *)
Definition ci_eqb (a b : char) : bool :=
if is_ascii_letter a then
  let lo := lower_char a in
  ((b =? lo) || (b =? lo - 32)
   || (lo =? 105) && ((b =? 304) || (b =? 305))
   || (lo =? 115) && (b =? 383)
   || (lo =? 107) && (b =? 8490))%N
else (a =? b)%N.

(** The rest of [s] after the literal [l], if [s] starts with it. *)
Fixpoint lit_rest (l s : pystr) : option pystr :=
match l, s with
| [], _ => Some s
| x :: l', y :: s' => if ci_eqb x y then lit_rest l' s' else None
| _ :: _, [] => None
end.

Definition with_group (capture : bool) (taken : pystr) (r : option (list pystr))
  : option (list pystr) :=
match r with
| Some g => Some (if capture then rev taken :: g else g)
| None => None
end.

Definition or_else {A} (a b : option A) : option A :=
match a with Some _ => a | None => b end.

(** [run p s]: match [p] at the start of [s]; the captured groups, in
    order, on success. *)
Fixpoint run (p : list item) (s : pystr) {struct p} : option (list pystr) :=
match p with
| [] => Some []
| Lit l :: p' =>
    match lit_rest l s with
    | Some s' => run p' s'
    | None => None
    end
| Star greedy cls capture :: p' =>
    (fix star (taken s : pystr) {struct s} : option (list pystr) :=
       let stop := with_group capture taken (run p' s) in
       match s with
       | c :: s' =>
           if cls c
           then if greedy then or_else (star (c :: taken) s') stop
                else or_else stop (star (c :: taken) s')
           else stop
       | [] => stop
       end) [] s
end.

(** [re.search(p, s)] *)
Fixpoint search (p : list item) (s : pystr) : option (list pystr) :=
match run p s with
| Some g => Some g
| None =>
    match s with
    | [] => None
    | _ :: s' => search p s'
    end
end.

(** [\s*] *)
Definition ws : item := Star true isspace false.

(** [.]: anything but a newline. *)
Definition dot (c : char) : bool := negb (c =? 10)%N.

(** The pattern [label1 \s* : \s* G1 \s* label2 \s* : \s* G2], where the
    group [G1] is a lazy run of [.] and [G2] a greedy one. *)
Definition paired (label1 label2 : pystr) : list item :=
[Lit label1; ws; Lit (str ":"); ws; Star false dot true; ws;
 Lit label2; ws; Lit (str ":"); ws; Star true dot true].

(** [m.group(1)] and [m.group(2)] of a match of a paired pattern. *)
Definition groups2 (m : list pystr) : pystr * pystr :=
(nth 0 m [], nth 1 m []).

End Regex.

(** ** The extraction engine: [parse_html_data] *)

Module Extract.

Import Soup.

(** A section of the parsed record: a key/value dictionary, a list of
    row dictionaries, or a text. *)
Inductive content :=
| CDict (d : Dict.dict pystr)
| CList (rows : list (Dict.dict pystr))
| CStr (s : pystr).

(** The local helper [clean_text]. *)
Definition clean_text (text : pystr) : pystr :=
if truthy text then strip (replace_nbsp text) else [].

(** [soup.find("label", string=re.compile(phrase))] followed by
    [find_parent("span", class_="case_details_table")]. *)
Definition label_row (sp : handle) (phrase : pystr) : option handle :=
match find sp (str "label") (string_matches phrase) with
| Some lbl => find_parent lbl (str "span") (has_class (str "case_details_table"))
| None => None
end.

(** "Case Type" and "CNR Number": the text after the first colon. *)
Definition single_label (sp : handle) (phrase : pystr) (case_details : Dict.dict pystr)
  : Dict.dict pystr :=
match label_row sp phrase with
| Some row =>
    let text := get_text_strip (str " ") row in
    if contains (str ":") text
    then match after_first_colon text with
         | Some v => Dict.set case_details phrase (strip v)
         | None => case_details
         end
    else case_details
| None => case_details
end.

(** "Filing Number"/"Filing Date" and "Registration Number"/"Registration
    Date": the paired pattern first, the whole text under [fallback]
    otherwise. *)
Definition paired_label (sp : handle) (label1 label2 fallback : pystr)
  (case_details : Dict.dict pystr) : Dict.dict pystr :=
match label_row sp label1 with
| Some row =>
    let full_text := get_text_strip (str " ") row in
    match Regex.search (Regex.paired label1 label2) full_text with
    | Some m =>
        let cd := Dict.set case_details label1 (strip (fst (Regex.groups2 m))) in
        Dict.set cd label2 (strip (snd (Regex.groups2 m)))
    | None => Dict.set case_details fallback full_text
    end
| None => case_details
end.

Definition case_details (sp : handle) : Dict.dict pystr :=
let cd := single_label sp (str "Case Type") [] in
let cd := paired_label sp (str "Filing Number") (str "Filing Date")
            (str "Filing Details") cd in
let cd := paired_label sp (str "Registration Number") (str "Registration Date")
            (str "Registration Details") cd in
single_label sp (str "CNR Number") cd.

(** One label of the status box: two [strong] children give a key and a
    value. *)
Definition status_entry (case_status : Dict.dict pystr) (lbl : handle)
  : Dict.dict pystr :=
let strongs := find_all lbl (str "strong") any_tag in
match strongs with
| s0 :: s1 :: _ =>
    let key := clean_text (get_text s0) in
    let val := strip (lstrip_colon (clean_text (get_text s1))) in
    Dict.set case_status key val
| _ => case_status
end.

Definition case_status (sp : handle) : Dict.dict pystr :=
match find sp (str "div") (style_contains (str "background-color:#FBF6D9")) with
| Some status_div =>
    fold_left status_entry (find_all status_div (str "label") any_tag) []
| None => []
end.

(** [clean_text(elem.get_text(separator="\n", strip=True))] of the first
    span of a class. *)
Definition party_block (sp : handle) (cls : pystr) : option pystr :=
match find sp (str "span") (has_class cls) with
| Some elem => Some (clean_text (get_text_strip [10%N] elem))
| None => None
end.

(** [[c.get_text(separator=sep, strip=True) for c in h.find_all(nm)]] *)
Definition cells (sep : pystr) (nm : pystr) (h : handle) : list pystr :=
List.map (get_text_strip sep) (find_all h nm any_tag).

(** [dict(zip(headers, cols))] *)
Definition zip_row (headers cols : list pystr) : Dict.dict pystr :=
Dict.of_pairs (combine headers cols).

(** The row loop shared by the four tables: a row is appended when its
    cell count equals the header count. *)
Definition table_rows (sep : pystr) (headers : list pystr) (trs : list handle)
  : list (Dict.dict pystr) :=
fold_left
  (fun data tr =>
     let cols := cells sep (str "td") tr in
     if Nat.eqb (length cols) (length headers)
     then data ++ [zip_row headers cols]
     else data)
  trs [].

Definition acts_data (sp : handle) : list (Dict.dict pystr) :=
match find sp (str "table") (has_class (str "Acts_table")) with
| Some acts_table =>
    let headers := cells [] (str "th") acts_table in
    table_rows [] headers (tl (find_all acts_table (str "tr") any_tag))
| None => []
end.

(** The key/value list of a container: every fixed-width span paired with
    its next [label] sibling. *)
Definition kv_entry (d : Dict.dict pystr) (k : handle) : Dict.dict pystr :=
let key_text := clean_text (get_text k) in
match find_next_sibling k (str "label") with
| Some v_label =>
    let val_text := strip (lstrip_colon (clean_text (get_text v_label))) in
    Dict.set d key_text val_text
| None => d
end.

Definition kv_spans (container : handle) : Dict.dict pystr :=
fold_left kv_entry
  (find_all container (str "span") (style_contains (str "width:150px"))) [].

Definition sub_court_data (sp : handle) : Dict.dict pystr :=
match find sp (str "span") (has_class (str "Lower_court_table")) with
| Some sub_court_elem => kv_spans sub_court_elem
| None => []
end.

Definition fir_data (sp : handle) : list (Dict.dict pystr) :=
match find sp (str "table") (has_class (str "FIR_details_table")) with
| Some fir_table =>
    let headers := cells [] (str "th") fir_table in
    let rows := find_all fir_table (str "tr") any_tag in
    let headers :=
      match headers, rows with
      | [], r0 :: _ => cells [] (str "td") r0
      | _, _ => headers
      end in
    match headers with
    | [] => []
    | _ :: _ => table_rows [] headers (tl rows)
    end
| None =>
    match find sp (str "span") (has_class (str "FIR_details_table")) with
    | Some fir_span =>
        let fir_info := kv_spans fir_span in
        match fir_info with
        | [] => []
        | _ :: _ => [fir_info]
        end
    | None => []
    end
end.

Definition ia_data (sp : handle) : list (Dict.dict pystr) :=
match find sp (str "table") (has_class (str "IAheading")) with
| Some ia_table =>
    let headers := cells [] (str "th") ia_table in
    table_rows (str " ") headers (tl (find_all ia_table (str "tr") any_tag))
| None => []
end.

Definition orders_data (sp : handle) : list (Dict.dict pystr) :=
match find sp (str "table") (has_class (str "order_table")) with
| Some order_table =>
    match find order_table (str "tr") any_tag with
    | Some header_tr =>
        let headers := cells [] (str "td") header_tr in
        table_rows [] headers (tl (find_all order_table (str "tr") any_tag))
    | None => []
    end
| None => []
end.

Definition cat_entry (cat_data : Dict.dict pystr) (tr : handle) : Dict.dict pystr :=
match cells [] (str "td") tr with
| c0 :: c1 :: _ => Dict.set cat_data c0 c1
| _ => cat_data
end.

Definition cat_data (sp : handle) : Dict.dict pystr :=
match find sp (str "h2") (string_matches (str "Category Details")) with
| Some cat_header =>
    match find_parent cat_header (str "table") any_tag with
    | Some header_table =>
        match find_next_sibling header_table (str "table") with
        | Some data_table =>
            fold_left cat_entry (find_all data_table (str "tr") any_tag) []
        | None => []
        end
    | None => []
    end
| None => []
end.

(** [parse_html_data], from the parsed tree on. *)
Definition parse_html_data (body : list node) : Dict.dict content :=
let sp := soup body in
let parsed_data := [] in
let parsed_data := Dict.set parsed_data (str "Case Details") (CDict (case_details sp)) in
let parsed_data := Dict.set parsed_data (str "Case Status") (CDict (case_status sp)) in
let parsed_data :=
  match party_block sp (str "Petitioner_Advocate_table") with
  | Some t => Dict.set parsed_data (str "Petitioner and Advocate") (CStr t)
  | None => parsed_data
  end in
let parsed_data :=
  match party_block sp (str "Respondent_Advocate_table") with
  | Some t => Dict.set parsed_data (str "Respondent and Advocate") (CStr t)
  | None => parsed_data
  end in
let parsed_data := Dict.set parsed_data (str "Acts") (CList (acts_data sp)) in
let parsed_data :=
  Dict.set parsed_data (str "Subordinate Court Information") (CDict (sub_court_data sp)) in
let parsed_data :=
  match fir_data sp with
  | [] => parsed_data
  | _ :: _ => Dict.set parsed_data (str "FIR Details") (CList (fir_data sp))
  end in
let parsed_data := Dict.set parsed_data (str "IA Details") (CList (ia_data sp)) in
let parsed_data := Dict.set parsed_data (str "Orders") (CList (orders_data sp)) in
Dict.set parsed_data (str "Category Details") (CDict (cat_data sp)).

End Extract.

(** ** The CAPTCHA loop of [scrape_ecourts]

    The browser, the OCR engine and the clock are the program's
    environment.  One attempt of the loop sees them through an
    [attempt_env]: what each call of that attempt answers, a raised
    exception included.  The loop's own state is what it leaves behind:
    the capture file on disk and what it sent to the form. *)

Module Captcha.

(** The variable [outcome] of the validation loop: ["success"], ["error"],
    or still [None]. *)
Inductive outcome := Success | Rejected | Pending.

(** What the second [try] block of a poll reads from the page. *)
Record page := mkPage {
  body_text : pystr;               (* find_element(By.TAG_NAME, "body").text *)
  success_displayed : list bool    (* is_displayed() of each success element *)
}.

(** The state of the browser at one poll. *)
Record snapshot := mkSnapshot {
  alert : option pystr;            (* the text of an open alert, if any *)
  page_view : option page          (* None: a lookup of the second block raised *)
}.

Definition rejection_phrases : list pystr :=
[str "invalid captcha"; str "wrong captcha"; str "does not match";
 str "verification code"].

Definition no_record_phrases : list pystr :=
[str "record not found"; str "no records found"].

Definition mentions (phrases : list pystr) (text : pystr) : bool :=
existsb (fun ph => contains ph text) phrases.

(** The body of the validation loop: one poll. *)
Definition classify (s : snapshot) : outcome :=
match alert s with
| Some _ => Rejected
| None =>
    match page_view s with
    | None => Pending
    | Some p =>
        let body_text := lower (body_text p) in
        if mentions rejection_phrases body_text then Rejected
        else if existsb (fun shown => shown) (success_displayed p) then Success
        else if mentions no_record_phrases body_text then Success
        else Pending
    end
end.

(** One turn of [while time.time() - validation_start < 15]: the elapsed
    time read by the loop test, in milliseconds, and the browser state the
    body then sees. *)
Record poll := mkPoll {
  elapsed_ms : N;
  seen : snapshot
}.

(** The validation loop over the polls it gets to make.  It leaves with
    [Pending] when the window has closed. *)
Fixpoint validate (polls : list poll) : outcome :=
match polls with
| [] => Pending
| p :: rest =>
    if (elapsed_ms p <? 15000)%N
    then match classify (seen p) with
         | Pending => validate rest
         | decided => decided
         end
    else Pending
end.

(** [captcha_img.screenshot(captcha_path)] *)
Inductive screenshot_result :=
| Written          (* the file is on disk *)
| NotWritten       (* returned False, nothing written *)
| ScreenshotRaised.

Record attempt_env := mkAttempt {
  refresh_ok : bool;            (* the refresh control was found and clicked
                                   (tried from the second attempt on) *)
  image_found : bool;           (* wait.until(visibility of captcha image) *)
  image_complete : bool;        (* the execute_script test *)
  input_found : bool;           (* find_element for the captcha input *)
  screenshot : screenshot_result;
  ocr : option pystr;           (* image_to_string; None: it raised *)
  submit_ok : bool;             (* clear, send_keys, find and click Go *)
  polls : list poll
}.

Record state := mkState {
  file_exists : bool;           (* temp_captcha.png is on disk *)
  attempts : nat;               (* loop iterations entered *)
  refreshes : nat;              (* clicks on the refresh control *)
  recognitions : nat;           (* calls of image_to_string *)
  submitted : list pystr        (* texts typed into the form and sent *)
}.

Definition initial (file : bool) : state := mkState file 0 0 0 [].

Definition isalnum_ascii (c : char) : bool :=
((97 <=? c) && (c <=? 122) || (65 <=? c) && (c <=? 90)
 || (48 <=? c) && (c <=? 57))%N.

(** [re.sub(r'[^a-zA-Z0-9]', '', ocr_text)] after [.strip()] *)
Definition clean (ocr_text : pystr) : pystr :=
filter isalnum_ascii (strip ocr_text).

Definition enter (st : state) : state :=
mkState (file_exists st) (S (attempts st)) (refreshes st) (recognitions st)
  (submitted st).

Definition refreshed (st : state) : state :=
mkState (file_exists st) (attempts st) (S (refreshes st)) (recognitions st)
  (submitted st).

Definition with_file (b : bool) (st : state) : state :=
mkState b (attempts st) (refreshes st) (recognitions st) (submitted st).

Definition recognized (st : state) : state :=
mkState (file_exists st) (attempts st) (refreshes st) (S (recognitions st))
  (submitted st).

Definition submit (t : pystr) (st : state) : state :=
mkState (file_exists st) (attempts st) (refreshes st) (recognitions st)
  (submitted st ++ [t]).

(** The body of [for attempt in range(max_attempts)], for attempt number
    [n].  The result says whether the loop breaks with
    [captcha_solved = True]; every other exit ([continue], or the [except]
    clause of the attempt) goes on to the next attempt. *)
Definition attempt (n : nat) (e : attempt_env) (st : state) : state * bool :=
let st := enter st in
let st :=                        (* a failed refresh is printed and ignored *)
  match n with
  | O => st
  | S _ => if refresh_ok e then refreshed st else st
  end in
if negb (image_found e) then (st, false)            (* except Exception *)
else if negb (image_complete e) then (st, false)    (* continue *)
else if negb (input_found e) then (st, false)       (* except Exception *)
else
  match screenshot e with
  | ScreenshotRaised => (st, false)                 (* except Exception *)
  | shot =>
      let st := match shot with Written => with_file true st | _ => st end in
      if negb (file_exists st) then (st, false)     (* Image.open raises *)
      else
        let st := recognized st in
        match ocr e with
        | None => (st, false)                       (* except Exception *)
        | Some ocr_text =>
            let clean_text := clean ocr_text in
            let st := with_file false st in         (* os.remove *)
            if truthy clean_text then
              if negb (submit_ok e) then (st, false)
              else
                let st := submit clean_text st in
                match validate (polls e) with
                | Success => (st, true)
                | _ => (st, false)
                end
            else (st, false)
        end
  end.

(** The attempts in turn, each with its number, until one solves the
    challenge. *)
Fixpoint run_attempts (envs : list (nat * attempt_env)) (st : state)
  : state * bool :=
match envs with
| [] => (st, false)
| (n, e) :: rest =>
    let (st', solved) := attempt n e st in
    if solved then (st', true) else run_attempts rest st'
end.

Definition max_attempts : nat := 5.

Inductive resolution := Solved | RequiresManualIntervention.

(** The loop [for attempt in range(max_attempts)] against an environment
    that answers attempt [i] with [world i]. *)
Definition resolve_within (n : nat) (world : nat -> attempt_env) (st : state)
  : state * bool :=
run_attempts (List.map (fun i => (i, world i)) (seq 0 n)) st.

Definition resolve (world : nat -> attempt_env) (st : state) : state * resolution :=
let (st', captcha_solved) := resolve_within max_attempts world st in
(st', if captcha_solved then Solved else RequiresManualIntervention).

End Captcha.

(** ** The report renderer: [create_pdf]

    [create_pdf] drives an FPDF object.  The model keeps FPDF's cursor
    (page number, [x], [y]), the current font, and the list of everything
    [create_pdf] has drawn, each drawing with the rectangle(s) it covers.
    Lengths are in millimetres, as exact rationals; FPDF holds them in
    double precision, so a length of the model and the one the library
    computes can differ by rounding.  The header and footer
    that [PDFReport] prints on every page are page furniture, drawn in the
    margins; they move the cursor but are not listed. *)

Module Pdf.

Import Extract.

Local Open Scope Q_scope.

Record font := mkFont { bold : bool; size : nat }.

(** What the layout needs to know of the FPDF library and its fonts. *)
Record fpdf := mkFpdf {
  l_margin : Q;                 (* self.l_margin *)
  t_margin : Q;                 (* self.t_margin *)
  r_limit : Q;                  (* self.w - self.r_margin *)
  page_break_trigger : Q;       (* self.page_break_trigger *)
  extra_lines : font -> Q -> pystr -> nat
    (* how many line breaks multi_cell makes in a text, for a font and width *)
}.

Record rect := mkRect { r_page : nat; r_x : Q; r_y : Q; r_w : Q; r_h : Q }.

Inductive kind :=
| SectionHeader | KeyText | ValueText | KeyBorder | ValueBorder
| TableHeaderText | TableHeaderBorder | TableDataText | TableDataBorder
| NoRecords | TextBlock | RawText.

(** One drawing call of [create_pdf]. *)
Inductive op :=
| Cell (k : kind) (txt : pystr) (box : rect)               (* pdf.cell *)
| MultiCell (k : kind) (txt : pystr) (boxes : list rect)   (* pdf.multi_cell, a box per line *)
| Rect (k : kind) (box : rect).                            (* pdf.rect *)

Record pdf := mkPdf {
  page : nat;
  x : Q;
  y : Q;
  cur_font : font;
  ops : list op
}.

Definition Qgtb (a b : Q) : bool := negb (Qle_bool a b).

Definition set_x (x' : Q) (p : pdf) : pdf :=
mkPdf (page p) x' (y p) (cur_font p) (ops p).

Definition set_y' (y' : Q) (p : pdf) : pdf :=
mkPdf (page p) (x p) y' (cur_font p) (ops p).

Definition set_xy (x' y' : Q) (p : pdf) : pdf :=
mkPdf (page p) x' y' (cur_font p) (ops p).

Definition set_font (f : font) (p : pdf) : pdf :=
mkPdf (page p) (x p) (y p) f (ops p).

Definition draw (o : op) (p : pdf) : pdf :=
mkPdf (page p) (x p) (y p) (cur_font p) (ops p ++ [o]).

Section WithFpdf.

Variable F : fpdf.

(** Where the cursor stands once [PDFReport.header] has run on a fresh
    page: a title cell of height 10, then [ln(10)]. *)
Definition top_y : Q := t_margin F + 10 + 10.

(** [pdf.add_page()]; the font in force is restored after the header. *)
Definition add_page (p : pdf) : pdf :=
mkPdf (S (page p)) (l_margin F) top_y (cur_font p) (ops p).

(** The automatic page break at the head of [FPDF.cell]. *)
Definition auto_break (h : Q) (p : pdf) : pdf :=
if Qgtb (y p + h) (page_break_trigger F) then set_x (x p) (add_page p) else p.

Definition cell_width (w : Q) (p : pdf) : Q :=
if Qeq_bool w 0 then r_limit F - x p else w.

(** [pdf.cell(w, h, txt, border, ln, ...)] *)
Definition cell (k : kind) (w h : Q) (txt : pystr) (ln : nat) (p : pdf) : pdf :=
let p := auto_break h p in
let w := cell_width w p in
let p := draw (Cell k txt (mkRect (page p) (x p) (y p) w h)) p in
match ln with
| O => set_x (x p + w) p
| S O => set_xy (l_margin F) (y p + h) p
| _ => set_y' (y p + h) p
end.

(** The line cells of one [multi_cell]: each is a [cell] with [ln=2]. *)
Fixpoint line_cells (n : nat) (w h : Q) (p : pdf) : pdf * list rect :=
match n with
| O => (p, [])
| S n' =>
    let p := auto_break h p in
    let box := mkRect (page p) (x p) (y p) w h in
    let (p', boxes) := line_cells n' w h (set_y' (y p + h) p) in
    (p', box :: boxes)
end.

(** [pdf.multi_cell(w, h, txt, ...)]: at least one line; the cursor ends
    below the last line, at the left margin. *)
Definition multi_cell (k : kind) (w h : Q) (txt : pystr) (p : pdf) : pdf :=
let w := cell_width w p in
let (p', boxes) := line_cells (S (extra_lines F (cur_font p) w txt)) w h p in
set_x (l_margin F) (draw (MultiCell k txt boxes) p').

(** [pdf.rect(x, y, w, h)] *)
Definition rect_at (k : kind) (x0 y0 w h : Q) (p : pdf) : pdf :=
draw (Rect k (mkRect (page p) x0 y0 w h)) p.

(** [pdf.ln(h)] *)
Definition ln (h : Q) (p : pdf) : pdf :=
set_xy (l_margin F) (y p + h) p.

Definition page_width : Q := 190.

(** [s.encode('latin-1', 'replace').decode('latin-1')]: a code point
    outside Latin-1 becomes a question mark. *)
Definition latin1_replace (s : pystr) : pystr :=
List.map (fun c => if (c <=? 255)%N then c else 63%N) s.

Definition bold12 : font := mkFont true 12.
Definition bold10 : font := mkFont true 10.
Definition regular10 : font := mkFont false 10.
Definition regular9 : font := mkFont false 9.

Definition w_key : Q := 60.
Definition w_val : Q := page_width - w_key.

(** The page-break test that precedes a row. *)
Definition check_page_break (limit : Q) (p : pdf) : pdf :=
if Qgtb (y p) limit then add_page p else p.

(** One turn of [for k, v in content.items()]. *)
Definition kv_row (p : pdf) (kv : pystr * pystr) : pdf :=
let safe_k := latin1_replace (fst kv) in
let safe_v := latin1_replace (snd kv) in
let p := check_page_break 260 p in
let x_start := x p in
let y_start := y p in
let p := set_font bold10 p in
let p := multi_cell KeyText w_key 6 safe_k p in
let y_end_k := y p in
let p := set_xy (x_start + w_key) y_start p in
let p := set_font regular10 p in
let p := multi_cell ValueText w_val 6 safe_v p in
let y_end_v := y p in
let row_height := Qmax (y_end_k - y_start) (y_end_v - y_start) in
let p := rect_at KeyBorder x_start y_start w_key row_height p in
let p := rect_at ValueBorder (x_start + w_key) y_start w_val row_height p in
set_xy x_start (y_start + row_height) p.

Definition of_nat (i : nat) : Q := inject_Z (Z.of_nat i).

(** [max(ys)] of a non-empty list. *)
Definition max_of (ys : list Q) : Q :=
match ys with
| [] => 0
| y0 :: rest => fold_left Qmax rest y0
end.

(** [for i, t in enumerate(texts)]: set the cursor to column [i], print,
    note where the cursor ended. *)
Definition print_cells (k : kind) (x_start y_start col_width : Q)
  (texts : list pystr) (p : pdf) : pdf * list Q :=
fold_left
  (fun (acc : pdf * list Q) (it : nat * pystr) =>
     let p := set_xy (x_start + of_nat (fst it) * col_width) y_start (fst acc) in
     let p := multi_cell k col_width 6 (snd it) p in
     (p, snd acc ++ [y p]))
  (combine (seq 0 (length texts)) texts) (p, []).

(** [for i in range(num_cols): pdf.rect(...)] *)
Definition draw_borders (k : kind) (x_start y_start col_width row_height : Q)
  (num_cols : nat) (p : pdf) : pdf :=
fold_left
  (fun p i => rect_at k (x_start + of_nat i * col_width) y_start col_width row_height p)
  (seq 0 num_cols) p.

(** A row of a table, header or data, once its texts are known. *)
Definition table_row (ktext kborder : kind) (col_width : Q) (num_cols : nat)
  (texts : list pystr) (p : pdf) : pdf :=
let p := check_page_break 260 p in
let x_start := x p in
let y_start := y p in
let (p, ys) := print_cells ktext x_start y_start col_width texts p in
let row_height := max_of ys - y_start in
let p := draw_borders kborder x_start y_start col_width row_height num_cols p in
set_xy x_start (y_start + row_height) p.

Definition row_texts (headers : list pystr) (row : Dict.dict pystr) : list pystr :=
List.map (fun h => latin1_replace (Dict.get_default row h [])) headers.

(** The [isinstance(content, list)] branch. *)
Definition render_table (content : list (Dict.dict pystr)) (p : pdf) : pdf :=
match content with
| [] => cell NoRecords 0 6 (str "No records found.") 1 p
| first :: _ =>
    let headers := Dict.keys first in
    let num_cols := length headers in
    match num_cols with
    | O => p
    | S _ =>
        let col_width := page_width / of_nat num_cols in
        let p := set_font bold10 p in
        let p := table_row TableHeaderText TableHeaderBorder col_width num_cols
                   (List.map latin1_replace headers) p in
        let p := set_font regular9 p in
        fold_left
          (fun p row =>
             table_row TableDataText TableDataBorder col_width num_cols
               (row_texts headers row) p)
          content p
    end
end.

Definition render_content (c : content) (p : pdf) : pdf :=
match c with
| CDict d => fold_left kv_row d p
| CList rows => render_table rows p
| CStr s => multi_cell TextBlock 0 6 (latin1_replace s) p
end.

(** One turn of [for section, content in data.items()]. *)
Definition render_section (p : pdf) (item : pystr * content) : pdf :=
let p := check_page_break 250 p in
let p := set_font bold12 p in
let p := cell SectionHeader 0 8 (fst item) 1 p in
let p := set_font regular10 p in
let p := render_content (snd item) p in
ln 5 p.

(** The argument of [create_pdf]: a dictionary of sections, or a text. *)
Inductive data :=
| DataDict (d : Dict.dict content)
| DataText (s : pystr).

(** A new [PDFReport], [add_page()], [set_font("Arial", size=10)]. *)
Definition start : pdf :=
set_font regular10 (add_page (mkPdf 0 (l_margin F) (t_margin F) (mkFont false 12) [])).

(** Everything [create_pdf] draws. *)
Definition render (d : data) : pdf :=
match d with
| DataDict sections => fold_left render_section sections start
| DataText s => multi_cell RawText 0 10 (latin1_replace s) start
end.

Definition op_text (o : op) : pystr :=
match o with
| Cell _ t _ => t
| MultiCell _ t _ => t
| Rect _ _ => []
end.

Definition op_kind (o : op) : kind :=
match o with
| Cell k _ _ => k
| MultiCell k _ _ => k
| Rect k _ => k
end.

Definition op_boxes (o : op) : list rect :=
match o with
| Cell _ _ b => [b]
| MultiCell _ _ bs => bs
| Rect _ b => [b]
end.

(** Whether [s.encode('latin-1')] succeeds. *)
Definition encodable (s : pystr) : bool :=
forallb (fun c => (c <=? 255)%N) s.

(** The finished report: its page count and its blocks. *)
Record document := mkDocument {
  pages : nat;
  blocks : list op
}.

(** [create_pdf]: the drawing, then [pdf.output(dest='S').encode('latin-1')],
    which raises [UnicodeEncodeError] ([None]) if a printed text holds a
    code point outside Latin-1. *)
Definition create_pdf (d : data) : option document :=
let p := render d in
if forallb (fun o => encodable (op_text o)) (ops p)
then Some (mkDocument (page p) (ops p))
else None.

End WithFpdf.

End Pdf.

(** ** The request handler: [handle_scrape_request]

    The handler works on the value [request.get_json()] returns, any JSON
    value.  The browser automation [scrape_ecourts] and the HTML parser are
    collaborators of the handler; the handler's answer is returned together
    with the list of calls it made to [scrape_ecourts]. *)

Module Api.

Import Extract.

(** A Python [float] read from JSON. *)
Inductive pyfloat :=
| Finite (q : Q)
| Infinite (negative : bool)
| NaN.

(** What [request.get_json()] returns. *)
Inductive json :=
| JNull                              (* None *)
| JBool (b : bool)
| JInt (n : Z)
| JFloat (x : pyfloat)
| JString (s : pystr)
| JArray (items : list json)
| JObject (members : Dict.dict json).    (* a dict: its keys are distinct *)

(** [bool(v)]: [None], [False], zero and the empty string, list and
    dictionary are falsy. *)
Definition py_bool (v : json) : bool :=
match v with
| JNull => false
| JBool b => b
| JInt n => negb (n =? 0)%Z
| JFloat (Finite q) => negb (Qeq_bool q 0)
| JFloat _ => true
| JString s => truthy s
| JArray items => match items with [] => false | _ :: _ => true end
| JObject members => match members with [] => false | _ :: _ => true end
end.

(** [req_data.get(key)] on a dictionary: [None] when the key is missing. *)
Definition get (members : Dict.dict json) (key : pystr) : json :=
match Dict.get members key with
| Some v => v
| None => JNull
end.

(** What [scrape_ecourts] returns. *)
Inductive scrape_result :=
| Scraped (text html : pystr)      (* {"status": "success", "data": {...}} *)
| NotFound (error : pystr)         (* {"error": ...} *)
| Failed (message : pystr).        (* {"status": "error", "message": ...} *)

Inductive payload :=
| MissingRequiredFields            (* {"error": "Missing required fields"} *)
| Result (r : scrape_result).      (* jsonify(result) *)

(** A piece of an f-string: literal text, or a value to be formatted. *)
Inductive piece :=
| Lit (s : pystr)
| Val (v : json).

Inductive response :=
| Json (body : payload) (status : nat)
| SendFile (pdf_stream : Pdf.document) (download_name : list piece) (mimetype : pystr)
| Unhandled.                       (* an exception left the handler: HTTP 500 *)

Record core := mkCore {
  scrape_ecourts : json -> json -> json -> scrape_result;
  html_parser : pystr -> list Soup.node;     (* BeautifulSoup(html, 'html.parser') *)
  fpdf_lib : Pdf.fpdf
}.

Definition call := (json * json * json)%type.

(** [f"Case_{case_number}_{year}.pdf"] *)
Definition pdf_filename (case_number year : json) : list piece :=
[Lit (str "Case_"); Val case_number; Lit (str "_"); Val year; Lit (str ".pdf")].

(** [str(v)] for the values whose text is plain: a string is itself, an
    integer its decimal digits, [True], [False], [None].  The text of a
    float, a list or a dictionary is Python's [repr], which is not
    modelled. *)
Definition py_str (v : json) : option pystr :=
match v with
| JString s => Some s
| JInt n => Some (str (NilZero.string_of_int (Z.to_int n)))
| JBool true => Some (str "True")
| JBool false => Some (str "False")
| JNull => Some (str "None")
| _ => None
end.

(** The text of an f-string, when the text of each of its values is
    modelled. *)
Fixpoint text_of (pieces : list piece) : option pystr :=
match pieces with
| [] => Some []
| Lit s :: rest =>
    match text_of rest with
    | Some t => Some (s ++ t)
    | None => None
    end
| Val v :: rest =>
    match py_str v, text_of rest with
    | Some s, Some t => Some (s ++ t)
    | _, _ => None
    end
end.

Definition handle_scrape_request (c : core) (req_data : json) : response * list call :=
match req_data with
| JObject members =>
    let case_type := get members (str "case_type") in
    let case_number := get members (str "case_number") in
    let year := get members (str "year") in
    if negb (forallb py_bool [case_type; case_number; year])
    then (Json MissingRequiredFields 400, [])
    else
      let result := scrape_ecourts c case_type case_number year in
      let calls := [(case_type, case_number, year)] in
      match result with
      | Failed _ => (Json (Result result) 500, calls)
      | NotFound _ => (Json (Result result) 400, calls)
      | Scraped _ html =>
          let parsed_data := parse_html_data (html_parser c html) in
          match Pdf.create_pdf (fpdf_lib c) (Pdf.DataDict parsed_data) with
          | Some pdf_stream =>
              (SendFile pdf_stream (pdf_filename case_number year)
                 (str "application/pdf"),
               calls)
          | None => (Unhandled, calls)
          end
      end
| _ => (Unhandled, [])             (* AttributeError: no attribute 'get' *)
end.

End Api.

(* ================================================================== *)
(** * Part II. Properties                                              *)
(* ================================================================== *)

(** ** Strings and dictionaries *)

Module PyStrFacts.

Lemma eqb_refl (a : pystr) : PyStr.eqb a a = true.
Proof.
induction a as [|c a IH]; simpl; [reflexivity|].
now rewrite N.eqb_refl, IH.
Qed.

Lemma eqb_eq (a b : pystr) : PyStr.eqb a b = true <-> a = b.
Proof.
split.
- revert b; induction a as [|c a IH]; intros [|d b] H; simpl in H;
    try discriminate; [reflexivity|].
  apply andb_true_iff in H as [Hc Hr].
  apply N.eqb_eq in Hc. apply IH in Hr. now subst.
- intros ->. apply eqb_refl.
Qed.

Lemma eqb_neq (a b : pystr) : PyStr.eqb a b = false <-> a <> b.
Proof.
split.
- intros H E. apply eqb_eq in E. congruence.
- intros H. destruct (PyStr.eqb a b) eqn:E; [|reflexivity].
  apply eqb_eq in E. contradiction.
Qed.

Lemma eqb_sym (a b : pystr) : PyStr.eqb a b = PyStr.eqb b a.
Proof.
destruct (PyStr.eqb a b) eqn:E; symmetry.
- apply eqb_eq in E. subst. apply eqb_refl.
- apply eqb_neq. apply eqb_neq in E. congruence.
Qed.

End PyStrFacts.

Module DictFacts.

Import PyStrFacts.

Section WithValue.
Variable V : Type.
Implicit Types (d : Dict.dict V) (k : pystr) (v : V).

Lemma get_set_same d k v : Dict.get (Dict.set d k v) k = Some v.
Proof.
induction d as [|[k' v'] d IH]; simpl.
- now rewrite eqb_refl.
- destruct (PyStr.eqb k' k) eqn:E; simpl; rewrite E; [reflexivity|exact IH].
Qed.

Lemma get_set_other d k k' v :
  PyStr.eqb k k' = false -> Dict.get (Dict.set d k v) k' = Dict.get d k'.
Proof.
intros Hk. induction d as [|[k0 v0] d IH]; simpl.
- now rewrite Hk.
- destruct (PyStr.eqb k0 k) eqn:E; simpl.
  + apply eqb_eq in E. subst k0. now rewrite Hk.
  + now rewrite IH.
Qed.

Lemma get_None_not_key d k : Dict.get d k = None <-> ~ In k (Dict.keys d).
Proof.
induction d as [|[k' v'] d IH]; simpl.
- tauto.
- destruct (PyStr.eqb k' k) eqn:E.
  + apply eqb_eq in E. subst. split; [discriminate|]. intros H. exfalso. auto.
  + apply eqb_neq in E. rewrite IH. tauto.
Qed.

(** Assigning to a dictionary keeps the order of its keys; a new key goes
    last. *)
Lemma keys_set d k v :
  Dict.keys (Dict.set d k v) =
  if Dict.mem d k then Dict.keys d else Dict.keys d ++ [k].
Proof.
unfold Dict.mem. induction d as [|[k' v'] d IH]; simpl; [reflexivity|].
destruct (PyStr.eqb k' k) eqn:E; simpl; [reflexivity|].
rewrite IH. now destruct (Dict.get d k).
Qed.

Lemma set_fresh d k v : Dict.get d k = None -> Dict.set d k v = d ++ [(k, v)].
Proof.
induction d as [|[k' v'] d IH]; simpl; [reflexivity|].
destruct (PyStr.eqb k' k); [discriminate|].
intros H. now rewrite IH.
Qed.

End WithValue.

End DictFacts.

(** ** The extraction engine *)

Module ExtractFacts.

Import Soup Extract PyStrFacts DictFacts.

(** The keys of a header in order of first appearance: a dictionary holds
    a repeated header once. *)
Definition first_occurrences (l : list pystr) : list pystr :=
fold_left (fun ks k => if existsb (PyStr.eqb k) ks then ks else ks ++ [k]) l [].

(** The table rule in the words of the specification: a row is kept, zipped
    with the header, exactly when it has as many cells as the header. *)
Definition spec_rows (headers : list pystr) (rows : list (list pystr))
  : list (Dict.dict pystr) :=
List.map (zip_row headers)
  (filter (fun cols => Nat.eqb (length cols) (length headers)) rows).

Lemma mem_existsb V (d : Dict.dict V) k :
  Dict.mem d k = existsb (PyStr.eqb k) (Dict.keys d).
Proof.
unfold Dict.mem. induction d as [|[k' v'] d IH]; simpl; [reflexivity|].
rewrite (eqb_sym k k'). destruct (PyStr.eqb k' k); simpl; [reflexivity|exact IH].
Qed.

Lemma keys_fold_set V (ps : list (pystr * V)) (d : Dict.dict V) :
  Dict.keys (fold_left (fun d kv => Dict.set d (fst kv) (snd kv)) ps d) =
  fold_left (fun ks k => if existsb (PyStr.eqb k) ks then ks else ks ++ [k])
    (List.map fst ps) (Dict.keys d).
Proof.
revert d. induction ps as [|[k v] ps IH]; intros d; simpl; [reflexivity|].
rewrite IH, keys_set, mem_existsb. reflexivity.
Qed.

Lemma map_fst_combine (A B : Type) (l : list A) (l' : list B) :
  length l = length l' -> List.map fst (combine l l') = l.
Proof.
revert l'. induction l as [|a l IH]; intros [|b l'] H; simpl in *;
  try discriminate; [reflexivity|].
f_equal. apply IH. lia.
Qed.

Lemma keys_zip_row headers cols :
  length cols = length headers ->
  Dict.keys (zip_row headers cols) = first_occurrences headers.
Proof.
intros H. unfold zip_row, Dict.of_pairs, first_occurrences.
rewrite keys_fold_set, map_fst_combine by congruence. reflexivity.
Qed.

Lemma fold_set_fresh V (ps : list (pystr * V)) (d : Dict.dict V) :
  NoDup (Dict.keys d ++ List.map fst ps) ->
  fold_left (fun d kv => Dict.set d (fst kv) (snd kv)) ps d = d ++ ps.
Proof.
revert d. induction ps as [|[k v] ps IH]; intros d H; simpl.
- now rewrite app_nil_r.
- rewrite set_fresh.
  + rewrite IH.
    * now rewrite <- app_assoc.
    * unfold Dict.keys in *. rewrite map_app. simpl.
      rewrite <- app_assoc. exact H.
  + apply get_None_not_key. simpl in H.
    apply NoDup_remove_2 in H. intros Hin. apply H.
    apply in_or_app. now left.
Qed.

Lemma zip_row_nodup headers cols :
  length cols = length headers -> NoDup headers ->
  zip_row headers cols = combine headers cols.
Proof.
intros Hl Hn. unfold zip_row, Dict.of_pairs.
rewrite fold_set_fresh; [reflexivity|].
simpl. now rewrite map_fst_combine by congruence.
Qed.

Lemma table_rows_from sep headers trs acc :
  fold_left
    (fun data tr =>
       let cols := cells sep (str "td") tr in
       if Nat.eqb (length cols) (length headers)
       then data ++ [zip_row headers cols]
       else data)
    trs acc
  = acc ++ spec_rows headers (List.map (cells sep (str "td")) trs).
Proof.
revert acc. induction trs as [|tr trs IH]; intros acc; simpl.
- unfold spec_rows. simpl. now rewrite app_nil_r.
- rewrite IH. unfold spec_rows. simpl.
  destruct (Nat.eqb (length (cells sep (str "td") tr)) (length headers)); simpl.
  + now rewrite <- app_assoc.
  + reflexivity.
Qed.

Lemma table_rows_spec sep headers trs :
  table_rows sep headers trs =
  spec_rows headers (List.map (cells sep (str "td")) trs).
Proof.
unfold table_rows. now rewrite table_rows_from.
Qed.

Definition elem (nm : string) (cls : string) (cs : list node) : node :=
Tag (str nm)
  (match cls with EmptyString => [] | _ => [(str "class", str cls)] end) cs.

Definition text (s : string) : node := NavigableString (str s).

(** A table with header [A, B] and the rows [[1, 2], [3]]. *)
Definition short_row_table : list node :=
[elem "table" "Acts_table"
   [elem "tr" "" [elem "th" "" [text "A"]; elem "th" "" [text "B"]];
    elem "tr" "" [elem "td" "" [text "1"]; elem "td" "" [text "2"]];
    elem "tr" "" [elem "td" "" [text "3"]]]].

(** The headers the FIR table uses: its [th] cells, or the cells of its
    first row when it has none. *)
Definition fir_headers (fir_table : handle) : list pystr :=
match cells [] (str "th") fir_table, find_all fir_table (str "tr") any_tag with
| [], r0 :: _ => cells [] (str "td") r0
| headers, _ => headers
end.

(** C2.  Every table section is the specification's table rule applied to
    the table's header and to the cells of its rows after the first: a row
    is extracted exactly when its cell count equals the header count, and an
    extracted row is the header zipped with the row's cells, so its keys are
    the header's keys in the header's order (a repeated header name is held
    once, at its first position).  The table with header [A, B] and rows
    [[1, 2], [3]] yields the single row {A: 1, B: 2}. *)
Theorem table_rows_follow_header :
  (forall body tbl,
     find (soup body) (str "table") (has_class (str "Acts_table")) = Some tbl ->
     acts_data (soup body) =
     spec_rows (cells [] (str "th") tbl)
       (List.map (cells [] (str "td")) (tl (find_all tbl (str "tr") any_tag)))) /\
  (forall body tbl,
     find (soup body) (str "table") (has_class (str "IAheading")) = Some tbl ->
     ia_data (soup body) =
     spec_rows (cells [] (str "th") tbl)
       (List.map (cells (str " ") (str "td")) (tl (find_all tbl (str "tr") any_tag)))) /\
  (forall body tbl header_tr,
     find (soup body) (str "table") (has_class (str "order_table")) = Some tbl ->
     find tbl (str "tr") any_tag = Some header_tr ->
     orders_data (soup body) =
     spec_rows (cells [] (str "td") header_tr)
       (List.map (cells [] (str "td")) (tl (find_all tbl (str "tr") any_tag)))) /\
  (forall body tbl,
     find (soup body) (str "table") (has_class (str "FIR_details_table")) = Some tbl ->
     fir_headers tbl <> [] ->
     fir_data (soup body) =
     spec_rows (fir_headers tbl)
       (List.map (cells [] (str "td")) (tl (find_all tbl (str "tr") any_tag)))) /\
  (forall headers rows row,
     In row (spec_rows headers rows) <->
     exists cols, In cols rows /\ length cols = length headers /\
                  row = zip_row headers cols) /\
  (forall headers cols,
     length cols = length headers ->
     Dict.keys (zip_row headers cols) = first_occurrences headers /\
     (NoDup headers -> zip_row headers cols = combine headers cols)) /\
  Dict.get (parse_html_data short_row_table) (str "Acts") =
    Some (CList [[(str "A", str "1"); (str "B", str "2")]]).
Proof.
split; [|split; [|split; [|split; [|split; [split|split; [split|vm_compute; reflexivity]]]]]].
- intros body tbl H. unfold acts_data. rewrite H. apply table_rows_spec.
- intros body tbl H. unfold ia_data. rewrite H. apply table_rows_spec.
- intros body tbl htr H H'. unfold orders_data. rewrite H, H'.
  apply table_rows_spec.
- intros body tbl H Hne. unfold fir_data. rewrite H.
  unfold fir_headers in *.
  destruct (cells [] (str "th") tbl) as [|h hs] eqn:Eh.
  + destruct (find_all tbl (str "tr") any_tag) as [|r0 rs] eqn:Er.
    * contradiction.
    * destruct (cells [] (str "td") r0) eqn:E0; [contradiction|].
      apply table_rows_spec.
  + destruct (find_all tbl (str "tr") any_tag); apply table_rows_spec.
- unfold spec_rows. intros H. apply in_map_iff in H as (cols & <- & Hin).
  apply filter_In in Hin as [Hin Hlen]. apply Nat.eqb_eq in Hlen.
  exists cols. auto.
- unfold spec_rows. intros (cols & Hin & Hlen & ->).
  apply in_map. apply filter_In. split; [exact Hin|].
  now apply Nat.eqb_eq.
- now apply keys_zip_row.
- now apply zip_row_nodup.
Qed.

(** The Acts section of the short-row document, through the first clause. *)
Lemma table_rows_follow_header_witness :
  acts_data (soup short_row_table) = [[(str "A", str "1"); (str "B", str "2")]].
Proof.
destruct (find (soup short_row_table) (str "table") (has_class (str "Acts_table")))
  as [tbl|] eqn:E; [|discriminate E].
rewrite (proj1 table_rows_follow_header short_row_table tbl E).
vm_compute in E. injection E as <-. vm_compute. reflexivity.
Defined.


(** *** The paired patterns *)

Fixpoint captures (p : list Regex.item) : nat :=
match p with
| [] => 0
| Regex.Lit _ :: p' => captures p'
| Regex.Star _ _ capture :: p' => (if capture then 1 else 0) + captures p'
end.

Lemma run_groups p : forall s g, Regex.run p s = Some g -> length g = captures p.
Proof.
induction p as [|it p IH].
- simpl. intros s g H. injection H as <-. reflexivity.
- destruct it as [l|greedy cls capture].
  + simpl. intros s g. destruct (Regex.lit_rest l s); [apply IH|discriminate].
  + intros s. simpl. generalize (@nil char) as taken.
    assert (Hstop : forall taken s g,
               Regex.with_group capture taken (Regex.run p s) = Some g ->
               length g = (if capture then 1 else 0) + captures p).
    { intros taken s0 g. unfold Regex.with_group.
      destruct (Regex.run p s0) as [g0|] eqn:E; [|discriminate].
      intros H. injection H as <-. apply IH in E.
      destruct capture; simpl; lia. }
    induction s as [|c s IHs]; intros taken g.
    * simpl. apply Hstop.
    * simpl. destruct (cls c) eqn:Ec; [|apply Hstop].
      destruct greedy; unfold Regex.or_else.
      -- match goal with |- context [match ?t with Some _ => _ | None => _ end] =>
           destruct t eqn:Et end.
         ++ intros H. rewrite H in Et. exact (IHs _ _ Et).
         ++ apply Hstop.
      -- match goal with |- context [match ?t with Some _ => _ | None => _ end] =>
           destruct t eqn:Et end.
         ++ intros H. rewrite H in Et. exact (Hstop _ _ _ Et).
         ++ apply IHs.
Qed.

Lemma search_groups p : forall s g, Regex.search p s = Some g -> length g = captures p.
Proof.
induction s as [|c s IH]; intros g; simpl.
- destruct (Regex.run p []) eqn:E; [|discriminate].
  intros H. injection H as <-. exact (run_groups _ _ E).
- destruct (Regex.run p (c :: s)) eqn:E.
  + intros H. injection H as <-. exact (run_groups _ _ E).
  + apply IH.
Qed.

Lemma search_paired_two l1 l2 s m :
  Regex.search (Regex.paired l1 l2) s = Some m -> exists g1 g2, m = [g1; g2].
Proof.
intros H. apply search_groups in H. simpl in H.
destruct m as [|g1 [|g2 [|g3 m]]]; try discriminate. eauto.
Qed.

Lemma single_label_other sp phrase cd k :
  PyStr.eqb phrase k = false ->
  Dict.get (single_label sp phrase cd) k = Dict.get cd k.
Proof.
intros Hk. unfold single_label.
destruct (label_row sp phrase); [|reflexivity].
destruct (contains _ _); [|reflexivity].
destruct (after_first_colon _); [|reflexivity].
now apply get_set_other.
Qed.

Lemma paired_label_other sp l1 l2 fb cd k :
  PyStr.eqb l1 k = false -> PyStr.eqb l2 k = false -> PyStr.eqb fb k = false ->
  Dict.get (paired_label sp l1 l2 fb cd) k = Dict.get cd k.
Proof.
intros H1 H2 H3. unfold paired_label.
destruct (label_row sp l1); [|reflexivity].
destruct (Regex.search _ _).
- now rewrite !get_set_other.
- now rewrite get_set_other.
Qed.

(** What one paired section leaves in the dictionary it is given. *)
Definition paired_outcome (l1 l2 fb : pystr) (full_text : pystr)
  (after : Dict.dict pystr) : Prop :=
match Regex.search (Regex.paired l1 l2) full_text with
| Some m =>
    exists g1 g2, m = [g1; g2] /\
      Dict.get after l1 = Some (strip g1) /\
      Dict.get after l2 = Some (strip g2) /\
      Dict.get after fb = None
| None =>
    Dict.get after fb = Some full_text /\
    Dict.get after l1 = None /\
    Dict.get after l2 = None
end.

Lemma paired_label_outcome sp l1 l2 fb cd row :
  label_row sp l1 = Some row ->
  PyStr.eqb l1 l2 = false -> PyStr.eqb l1 fb = false -> PyStr.eqb l2 fb = false ->
  Dict.get cd l1 = None -> Dict.get cd l2 = None -> Dict.get cd fb = None ->
  paired_outcome l1 l2 fb (get_text_strip (str " ") row)
    (paired_label sp l1 l2 fb cd).
Proof.
intros Hrow H12 H1f H2f G1 G2 Gf. unfold paired_outcome, paired_label.
rewrite Hrow.
destruct (Regex.search _ _) as [m|] eqn:E.
- destruct (search_paired_two _ _ _ E) as (g1 & g2 & ->).
  exists g1, g2. simpl. repeat split.
  + rewrite get_set_other by (rewrite eqb_sym; exact H12). apply get_set_same.
  + apply get_set_same.
  + rewrite !get_set_other by assumption. exact Gf.
- repeat split.
  + apply get_set_same.
  + rewrite get_set_other by (rewrite eqb_sym; exact H1f). exact G1.
  + rewrite get_set_other by (rewrite eqb_sym; exact H2f). exact G2.
Qed.

Lemma paired_outcome_ext l1 l2 fb t (d d' : Dict.dict pystr) :
  Dict.get d' l1 = Dict.get d l1 -> Dict.get d' l2 = Dict.get d l2 ->
  Dict.get d' fb = Dict.get d fb ->
  paired_outcome l1 l2 fb t d -> paired_outcome l1 l2 fb t d'.
Proof.
unfold paired_outcome. intros -> -> ->. exact (fun H => H).
Qed.

(** A container that holds both filing labels, and one that holds the
    first only. *)
Definition filing_both : list node :=
[elem "span" "case_details_table"
   [elem "label" "" [text "Filing Number"]; text " : MCRC/12/2020  ";
    elem "label" "" [text "Filing Date"]; text ": 01-02-2020"]].

Definition filing_alone : list node :=
[elem "span" "case_details_table"
   [elem "label" "" [text "Filing Number"]; text " : MCRC/12/2020"]].

(** A container whose second label is in capitals, its I the dotted
    capital U+0130, and one whose second label has the long s, U+017F. *)
Definition filing_dotted : list node :=
[elem "span" "case_details_table"
   [elem "label" "" [text "Filing Number"]; text " : MCRC/12/2020  ";
    NavigableString (str "FIL" ++ [304%N] ++ str "NG DATE"); text ": 01-02-2020"]].

Definition registration_long_s : list node :=
[elem "span" "case_details_table"
   [elem "label" "" [text "Registration Number"]; text " : 77/2020  ";
    NavigableString (str "Regi" ++ [383%N] ++ str "tration Date");
    text ": 03-02-2020"]].

(** C6.  When the container of the "Filing Number" label (of the
    "Registration Number" label) is found, the paired pattern is tried on
    its flattened text first: if it matches, its two groups are stored,
    stripped, under the number key and the date key and nothing is stored
    under the fallback key; only if it does not match is the whole text
    stored, under the fallback key alone. *)
Theorem paired_pattern_before_fallback :
  forall body,
  (forall row,
     label_row (soup body) (str "Filing Number") = Some row ->
     paired_outcome (str "Filing Number") (str "Filing Date") (str "Filing Details")
       (get_text_strip (str " ") row) (case_details (soup body))) /\
  (forall row,
     label_row (soup body) (str "Registration Number") = Some row ->
     paired_outcome (str "Registration Number") (str "Registration Date")
       (str "Registration Details")
       (get_text_strip (str " ") row) (case_details (soup body))).
Proof.
intros body. split; intros row Hrow; unfold case_details.
- set (cd0 := single_label (soup body) (str "Case Type") []).
  apply paired_outcome_ext
    with (d := paired_label (soup body) (str "Filing Number") (str "Filing Date")
                 (str "Filing Details") cd0).
  1-3: rewrite single_label_other, paired_label_other by reflexivity; reflexivity.
  apply paired_label_outcome; try reflexivity; try exact Hrow;
    unfold cd0; rewrite single_label_other by reflexivity; reflexivity.
- set (cd1 := paired_label (soup body) (str "Filing Number") (str "Filing Date")
                (str "Filing Details") (single_label (soup body) (str "Case Type") [])).
  apply paired_outcome_ext
    with (d := paired_label (soup body) (str "Registration Number")
                 (str "Registration Date") (str "Registration Details") cd1).
  1-3: rewrite single_label_other by reflexivity; reflexivity.
  apply paired_label_outcome; try reflexivity; try exact Hrow;
    unfold cd1; rewrite paired_label_other, single_label_other by reflexivity;
    reflexivity.
Qed.

(** Both branches of C6 on concrete containers, and the first branch on
    labels that only [re.IGNORECASE] on a [str] pattern recognizes. *)
Lemma paired_pattern_before_fallback_witness :
  (Dict.get (case_details (soup filing_both)) (str "Filing Number")
     = Some (str "MCRC/12/2020") /\
   Dict.get (case_details (soup filing_both)) (str "Filing Date")
     = Some (str "01-02-2020") /\
   Dict.get (case_details (soup filing_both)) (str "Filing Details") = None) /\
  (Dict.get (case_details (soup filing_alone)) (str "Filing Details")
     = Some (str "Filing Number : MCRC/12/2020") /\
   Dict.get (case_details (soup filing_alone)) (str "Filing Number") = None) /\
  (Dict.get (case_details (soup filing_dotted)) (str "Filing Number")
     = Some (str "MCRC/12/2020") /\
   Dict.get (case_details (soup filing_dotted)) (str "Filing Date")
     = Some (str "01-02-2020") /\
   Dict.get (case_details (soup filing_dotted)) (str "Filing Details") = None) /\
  (Dict.get (case_details (soup registration_long_s)) (str "Registration Number")
     = Some (str "77/2020") /\
   Dict.get (case_details (soup registration_long_s)) (str "Registration Date")
     = Some (str "03-02-2020") /\
   Dict.get (case_details (soup registration_long_s)) (str "Registration Details")
     = None).
Proof.
split; [|split; [|split]].
- destruct (label_row (soup filing_both) (str "Filing Number")) as [row|] eqn:E;
    [|discriminate E].
  pose proof (proj1 (paired_pattern_before_fallback filing_both) row E) as H.
  vm_compute in E. injection E as <-.
  unfold paired_outcome in H.
  destruct (Regex.search _ _) as [m|] eqn:Em; [|discriminate Em].
  vm_compute in Em. injection Em as <-.
  destruct H as (g1 & g2 & Hm & H1 & H2 & H3).
  injection Hm as <- <-.
  split; [|split]; [rewrite H1|rewrite H2|exact H3]; vm_compute; reflexivity.
- destruct (label_row (soup filing_alone) (str "Filing Number")) as [row|] eqn:E;
    [|discriminate E].
  pose proof (proj1 (paired_pattern_before_fallback filing_alone) row E) as H.
  vm_compute in E. injection E as <-.
  unfold paired_outcome in H.
  destruct (Regex.search _ _) as [m|] eqn:Em; [discriminate Em|].
  destruct H as (H1 & H2 & _).
  split; [rewrite H1; vm_compute; reflexivity|exact H2].
- destruct (label_row (soup filing_dotted) (str "Filing Number")) as [row|] eqn:E;
    [|discriminate E].
  pose proof (proj1 (paired_pattern_before_fallback filing_dotted) row E) as H.
  vm_compute in E. injection E as <-.
  unfold paired_outcome in H.
  destruct (Regex.search _ _) as [m|] eqn:Em; [|discriminate Em].
  vm_compute in Em. injection Em as <-.
  destruct H as (g1 & g2 & Hm & H1 & H2 & H3).
  injection Hm as <- <-.
  split; [|split]; [rewrite H1|rewrite H2|exact H3]; vm_compute; reflexivity.
- destruct (label_row (soup registration_long_s) (str "Registration Number"))
    as [row|] eqn:E; [|discriminate E].
  pose proof (proj2 (paired_pattern_before_fallback registration_long_s) row E) as H.
  vm_compute in E. injection E as <-.
  unfold paired_outcome in H.
  destruct (Regex.search _ _) as [m|] eqn:Em; [|discriminate Em].
  vm_compute in Em. injection Em as <-.
  destruct H as (g1 & g2 & Hm & H1 & H2 & H3).
  injection Hm as <- <-.
  split; [|split]; [rewrite H1|rewrite H2|exact H3]; vm_compute; reflexivity.
Defined.


(** *** The sections of the record *)

(** The ten sections [parse_html_data] knows. *)
Definition section_names : list pystr :=
[str "Case Details"; str "Case Status"; str "Petitioner and Advocate";
 str "Respondent and Advocate"; str "Acts"; str "Subordinate Court Information";
 str "FIR Details"; str "IA Details"; str "Orders"; str "Category Details"].

(** A record is complete when every section name is bound in it. *)
Definition complete (r : Dict.dict content) : Prop :=
forall s, In s section_names -> exists c, Dict.get r s = Some c.

(** On the empty document the record has no "Petitioner and Advocate",
    "Respondent and Advocate" or "FIR Details" entry. *)
Lemma empty_document_not_complete : ~ complete (parse_html_data []).
Proof.
intros H.
destruct (H (str "FIR Details")) as [c Hc].
- unfold section_names. simpl. tauto.
- vm_compute in Hc. discriminate Hc.
Qed.

Ltac lookup :=
  repeat (rewrite get_set_other by reflexivity);
  first [apply get_set_same | reflexivity].

(** C1, amended.  For every document the record binds the seven sections
    "Case Details", "Case Status", "Acts", "Subordinate Court Information",
    "IA Details", "Orders" and "Category Details", each to what its
    extractor found, which is an empty dictionary or an empty list when the
    section's anchor is absent.  "Petitioner and Advocate" and "Respondent
    and Advocate" are bound exactly when their span is found, and "FIR
    Details" exactly when at least one FIR entry was extracted. *)
Theorem seven_sections_always_present :
  forall body,
  let sp := soup body in
  let r := parse_html_data body in
  (Dict.get r (str "Case Details") = Some (CDict (case_details sp)) /\
   Dict.get r (str "Case Status") = Some (CDict (case_status sp)) /\
   Dict.get r (str "Acts") = Some (CList (acts_data sp)) /\
   Dict.get r (str "Subordinate Court Information") = Some (CDict (sub_court_data sp)) /\
   Dict.get r (str "IA Details") = Some (CList (ia_data sp)) /\
   Dict.get r (str "Orders") = Some (CList (orders_data sp)) /\
   Dict.get r (str "Category Details") = Some (CDict (cat_data sp))) /\
  (Dict.get r (str "Petitioner and Advocate") =
     option_map (fun elem => CStr (clean_text (get_text_strip [10%N] elem)))
       (find sp (str "span") (has_class (str "Petitioner_Advocate_table"))) /\
   Dict.get r (str "Respondent and Advocate") =
     option_map (fun elem => CStr (clean_text (get_text_strip [10%N] elem)))
       (find sp (str "span") (has_class (str "Respondent_Advocate_table"))) /\
   Dict.get r (str "FIR Details") =
     match fir_data sp with
     | [] => None
     | _ :: _ => Some (CList (fir_data sp))
     end) /\
  ((find sp (str "label") (string_matches (str "Case Type")) = None ->
    find sp (str "label") (string_matches (str "Filing Number")) = None ->
    find sp (str "label") (string_matches (str "Registration Number")) = None ->
    find sp (str "label") (string_matches (str "CNR Number")) = None ->
    case_details sp = []) /\
   (find sp (str "div") (style_contains (str "background-color:#FBF6D9")) = None ->
    case_status sp = []) /\
   (find sp (str "table") (has_class (str "Acts_table")) = None ->
    acts_data sp = []) /\
   (find sp (str "span") (has_class (str "Lower_court_table")) = None ->
    sub_court_data sp = []) /\
   (find sp (str "table") (has_class (str "IAheading")) = None ->
    ia_data sp = []) /\
   (find sp (str "table") (has_class (str "order_table")) = None ->
    orders_data sp = []) /\
   (find sp (str "h2") (string_matches (str "Category Details")) = None ->
    cat_data sp = [])).
Proof.
intros body sp r.
split; [|split].
- unfold r, parse_html_data. fold sp. cbv zeta.
  destruct (party_block sp (str "Petitioner_Advocate_table"));
    destruct (party_block sp (str "Respondent_Advocate_table"));
    destruct (fir_data sp);
    repeat split; lookup.
- unfold r, parse_html_data. fold sp. cbv zeta.
  unfold party_block.
  destruct (find sp (str "span") (has_class (str "Petitioner_Advocate_table")));
    destruct (find sp (str "span") (has_class (str "Respondent_Advocate_table")));
    destruct (fir_data sp) eqn:Ef;
    simpl option_map; (split; [|split]); lookup.
- repeat split.
  + intros H1 H2 H3 H4.
    unfold case_details, single_label, paired_label, label_row.
    now rewrite H1, H2, H3, H4.
  + intros H. unfold case_status. now rewrite H.
  + intros H. unfold acts_data. now rewrite H.
  + intros H. unfold sub_court_data. now rewrite H.
  + intros H. unfold ia_data. now rewrite H.
  + intros H. unfold orders_data. now rewrite H.
  + intros H. unfold cat_data. now rewrite H.
Qed.

(** The empty document: every anchor is absent, the seven sections are
    there and empty. *)
Lemma seven_sections_always_present_witness :
  case_details (soup []) = [] /\
  Dict.get (parse_html_data []) (str "Acts") = Some (CList []).
Proof.
pose proof (seven_sections_always_present []) as H. cbv zeta in H.
destruct H as ((_ & _ & Hacts & _) & _ & (Hcd & _ & Hempty & _)).
split.
- apply Hcd; reflexivity.
- rewrite Hacts. rewrite Hempty; reflexivity.
Defined.

End ExtractFacts.

(** ** The validation poll and the CAPTCHA loop *)

Module CaptchaFacts.

Import Captcha.

(** A page that shows no textual or visual signal. *)
Definition quiet (s : snapshot) : Prop :=
forall p, page_view s = Some p ->
  mentions rejection_phrases (lower (body_text p)) = false /\
  existsb (fun shown => shown) (success_displayed p) = false /\
  mentions no_record_phrases (lower (body_text p)) = false.

(** An open alert over a blank page. *)
Definition alert_over_blank : snapshot :=
mkSnapshot (Some (str "Invalid Captcha")) (Some (mkPage [] [])).

(** A blank page under an alert carries none of the three signals, yet the
    poll does not stay pending: the alert decides first. *)
Lemma alert_is_not_pending :
  quiet alert_over_blank /\ classify alert_over_blank <> Pending.
Proof.
split.
- intros p H. injection H as <-. repeat split.
- discriminate.
Qed.

(** C3, amended.  One poll decides in this order: an open alert is a
    rejection; otherwise a rejection phrase in the lower-cased page text is
    a rejection; otherwise a displayed success element is a success;
    otherwise a no-records phrase is a success; otherwise (also when the
    page could not be read) the poll stays pending.  So a page whose text
    holds a rejection phrase is rejected whatever else it shows, a page
    with "record not found" and no alert and no rejection phrase is a
    success, and a quiet page is pending provided no alert is open. *)
Theorem classify_priority :
  forall s,
  (alert s <> None -> classify s = Rejected) /\
  (forall p, page_view s = Some p ->
     mentions rejection_phrases (lower (body_text p)) = true ->
     classify s = Rejected) /\
  (forall p, alert s = None -> page_view s = Some p ->
     mentions rejection_phrases (lower (body_text p)) = false ->
     existsb (fun shown => shown) (success_displayed p) = true ->
     classify s = Success) /\
  (forall p, alert s = None -> page_view s = Some p ->
     mentions rejection_phrases (lower (body_text p)) = false ->
     mentions no_record_phrases (lower (body_text p)) = true ->
     classify s = Success) /\
  (alert s = None -> quiet s -> classify s = Pending).
Proof.
intros [a pv]. unfold classify, quiet. simpl.
split; [|split; [|split; [|split]]].
- destruct a; [reflexivity|congruence].
- intros p -> Hr. destruct a; [reflexivity|]. now rewrite Hr.
- intros p -> -> Hr Hs. now rewrite Hr, Hs.
- intros p -> -> Hr Hn. rewrite Hr, Hn.
  now destruct (existsb _ _).
- intros -> Hq. destruct pv as [p|]; [|reflexivity].
  destruct (Hq p eq_refl) as (-> & -> & ->). reflexivity.
Qed.

Definition shows (text : string) : snapshot :=
mkSnapshot None (Some (mkPage (str text) [false])).

(** The three pages of the specification's example. *)
Lemma classify_priority_witness :
  classify (shows "Error: Invalid Captcha, try again") = Rejected /\
  classify (shows "Record Not Found") = Success /\
  classify (shows "Loading...") = Pending.
Proof.
split; [|split].
- apply (proj1 (proj2 (classify_priority _)) (mkPage (str "Error: Invalid Captcha, try again") [false]));
    reflexivity.
- apply (proj1 (proj2 (proj2 (proj2 (classify_priority _))))
           (mkPage (str "Record Not Found") [false])); reflexivity.
- apply (proj2 (proj2 (proj2 (proj2 (classify_priority _))))); [reflexivity|].
  intros p H. injection H as <-. repeat split.
Defined.

(** *** The attempt loop *)

Ltac walk_attempt n e st :=
  destruct st as [file a r c sent]; unfold attempt; simpl;
  destruct n;
  destruct (refresh_ok e), (image_found e), (image_complete e), (input_found e),
    (screenshot e), file, (ocr e), (submit_ok e);
  simpl;
  repeat match goal with
         | |- context [truthy ?t] => destruct (truthy t)
         | |- context [validate ?l] => destruct (validate l)
         end; simpl.

Lemma attempt_counts n e st :
  attempts (fst (attempt n e st)) = S (attempts st) /\
  recognitions (fst (attempt n e st)) <= S (recognitions st).
Proof.
walk_attempt n e st; split; auto.
Qed.

Lemma run_attempts_bound envs : forall st,
  attempts (fst (run_attempts envs st)) <= attempts st + length envs /\
  recognitions (fst (run_attempts envs st)) <= recognitions st + length envs.
Proof.
induction envs as [|[n e] envs IH]; intros st; simpl.
- lia.
- destruct (attempt_counts n e st) as [Ha Hr].
  destruct (attempt n e st) as [st' solved]. simpl in Ha, Hr.
  destruct solved; simpl.
  + lia.
  + destruct (IH st'). lia.
Qed.

(** An attempt whose recognized text cleans to nothing submits nothing and
    does not solve the challenge. *)
Lemma attempt_unusable n e st :
  (forall t, ocr e = Some t -> clean t = []) ->
  snd (attempt n e st) = false /\
  submitted (fst (attempt n e st)) = submitted st.
Proof.
intros H. unfold attempt.
destruct st as [file a r c sent].
destruct n; destruct (refresh_ok e);
  destruct (image_found e), (image_complete e), (input_found e); simpl; auto;
  destruct (screenshot e); simpl; auto;
  destruct file; simpl; auto;
  destruct (ocr e) as [t|]; simpl; auto;
  rewrite (H t eq_refl); simpl; auto.
Qed.

Lemma run_attempts_unusable envs : forall st,
  (forall n e t, In (n, e) envs -> ocr e = Some t -> clean t = []) ->
  snd (run_attempts envs st) = false /\
  attempts (fst (run_attempts envs st)) = attempts st + length envs /\
  submitted (fst (run_attempts envs st)) = submitted st.
Proof.
induction envs as [|[n e] envs IH]; intros st H; simpl.
- auto.
- destruct (attempt_unusable n e st) as [Hs Hsub].
  { intros t. apply (H n). now left. }
  destruct (attempt_counts n e st) as [Ha _].
  destruct (attempt n e st) as [st' solved]. simpl in *. subst solved.
  destruct (IH st') as (H1 & H2 & H3).
  { intros n' e' t Hin. apply (H n'). now right. }
  rewrite H1, H2, H3, Ha. repeat split; [lia|assumption].
Qed.

(** C4.  The loop makes at most [max_attempts] = 5 attempts (and at most
    as many recognition calls), whatever the environment does.  Against a
    recognizer whose every answer cleans to the empty string it makes
    exactly 5 attempts, submits nothing, and ends asking for manual
    intervention. *)
Theorem resolve_bounded :
  forall world st,
  (attempts (fst (resolve world st)) <= attempts st + max_attempts /\
   recognitions (fst (resolve world st)) <= recognitions st + max_attempts) /\
  ((forall i t, ocr (world i) = Some t -> clean t = []) ->
   attempts (fst (resolve world st)) = attempts st + max_attempts /\
   snd (resolve world st) = RequiresManualIntervention /\
   submitted (fst (resolve world st)) = submitted st).
Proof.
intros world st. unfold resolve, resolve_within.
set (envs := List.map (fun i => (i, world i)) (seq 0 max_attempts)).
pose proof (run_attempts_bound envs st) as Hb.
pose proof (run_attempts_unusable envs st) as Hu.
assert (Hlen : length envs = max_attempts)
  by (unfold envs; now rewrite length_map, length_seq).
rewrite Hlen in Hb, Hu.
destruct (run_attempts envs st) as [st' solved].
cbn [fst snd] in *. split; [exact Hb|].
intros H. destruct Hu as (-> & Ha & Hs).
- intros n e t Hin. apply in_map_iff in Hin as (i & E & _).
  injection E as <- <-. apply H.
- auto.
Qed.

(** An environment whose OCR reads only punctuation, every time. *)
Definition punctuation_only (i : nat) : attempt_env :=
mkAttempt true true true true Written (Some (str " .,-' ")) true [].

Lemma resolve_bounded_witness :
  attempts (fst (resolve punctuation_only (initial false))) = 5 /\
  snd (resolve punctuation_only (initial false)) = RequiresManualIntervention /\
  submitted (fst (resolve punctuation_only (initial false))) = [].
Proof.
apply (proj2 (resolve_bounded punctuation_only (initial false))).
intros i t H. injection H as <-. reflexivity.
Defined.

(** *** The capture file *)

(** An attempt in which the screenshot is written and the OCR call raises. *)
Definition ocr_raises : attempt_env :=
mkAttempt true true true true Written None true [].

(** C7.  On the exits that follow a returned OCR result the capture file
    has been removed, whether the text was empty, rejected or accepted.
    When [image_to_string] raises, the [except] clause of the attempt is
    reached with the file still on disk: after such an attempt, and after a
    whole loop of them, [temp_captcha.png] exists. *)
Theorem capture_file_left_on_ocr_error :
  (forall n e st t,
     image_found e = true -> image_complete e = true -> input_found e = true ->
     screenshot e = Written -> ocr e = Some t ->
     file_exists (fst (attempt n e st)) = false) /\
  file_exists (fst (attempt 0 ocr_raises (initial false))) = true /\
  file_exists (fst (resolve (fun _ => ocr_raises) (initial false))) = true.
Proof.
split; [|split; reflexivity].
intros n e st t H1 H2 H3 H4 H5. unfold attempt.
rewrite H1, H2, H3, H4, H5. simpl.
destruct (truthy (clean t)); [|reflexivity].
destruct (submit_ok e); [|reflexivity].
now destruct (validate (polls e)).
Qed.

End CaptchaFacts.

(** ** The report renderer *)

Module PdfFacts.

Import Extract Pdf.

(** *** What is printed: the kinds and texts of the drawing calls *)

Definition label := (kind * pystr)%type.

Definition labels (os : list op) : list label :=
List.map (fun o => (op_kind o, op_text o)) os.

(** The labels [create_pdf] is to produce, read off the record. *)
Definition kv_labels (kv : pystr * pystr) : list label :=
[(KeyText, latin1_replace (fst kv)); (ValueText, latin1_replace (snd kv));
 (KeyBorder, []); (ValueBorder, [])].

Definition row_labels (ktext kborder : kind) (num_cols : nat) (texts : list pystr)
  : list label :=
List.map (fun t => (ktext, t)) texts ++ repeat (kborder, []) num_cols.

Definition table_labels (content : list (Dict.dict pystr)) : list label :=
match content with
| [] => [(NoRecords, str "No records found.")]
| first :: _ =>
    match Dict.keys first with
    | [] => []
    | headers =>
        row_labels TableHeaderText TableHeaderBorder (length headers)
          (List.map latin1_replace headers)
        ++ flat_map
             (fun row =>
                row_labels TableDataText TableDataBorder (length headers)
                  (row_texts headers row))
             content
    end
end.

Definition content_labels (c : content) : list label :=
match c with
| CDict d => flat_map kv_labels d
| CList rows => table_labels rows
| CStr s => [(TextBlock, latin1_replace s)]
end.

Definition section_labels (item : pystr * content) : list label :=
(SectionHeader, fst item) :: content_labels (snd item).

Section Labels.

Variable F : fpdf.

Lemma auto_break_ops h p : ops (auto_break F h p) = ops p.
Proof. unfold auto_break. now destruct (Qgtb _ _). Qed.

Lemma check_page_break_ops limit p : ops (check_page_break F limit p) = ops p.
Proof. unfold check_page_break. now destruct (Qgtb _ _). Qed.

Lemma line_cells_ops n w h : forall p, ops (fst (line_cells F n w h p)) = ops p.
Proof.
induction n as [|n IH]; intros p; simpl; [reflexivity|].
specialize (IH (set_y' (y (auto_break F h p) + h) (auto_break F h p))).
destruct (line_cells F n w h _) as [p' boxes]. simpl in *.
rewrite IH. simpl. apply auto_break_ops.
Qed.

Lemma labels_app os os' : labels (os ++ os') = labels os ++ labels os'.
Proof. apply map_app. Qed.

Lemma cell_labels k w h t ln p :
  labels (ops (cell F k w h t ln p)) = labels (ops p) ++ [(k, t)].
Proof.
unfold cell. destruct ln as [|[|ln]]; simpl;
  now rewrite labels_app, auto_break_ops.
Qed.

Lemma multi_cell_labels k w h t p :
  labels (ops (multi_cell F k w h t p)) = labels (ops p) ++ [(k, t)].
Proof.
unfold multi_cell.
pose proof (line_cells_ops (S (extra_lines F (cur_font p) (cell_width F w p) t))
              (cell_width F w p) h p) as H.
destruct (line_cells F _ _ _ _) as [p' boxes]. simpl in *.
now rewrite labels_app, H.
Qed.

Lemma rect_at_labels k x0 y0 w h p :
  labels (ops (rect_at k x0 y0 w h p)) = labels (ops p) ++ [(k, [])].
Proof. unfold rect_at. simpl. now rewrite labels_app. Qed.

Lemma set_x_ops x' p : ops (set_x x' p) = ops p.
Proof. reflexivity. Qed.

Lemma set_xy_ops x' y' p : ops (set_xy x' y' p) = ops p.
Proof. reflexivity. Qed.

Lemma set_font_ops f p : ops (set_font f p) = ops p.
Proof. reflexivity. Qed.

Lemma ln_ops h p : ops (ln F h p) = ops p.
Proof. reflexivity. Qed.

Create Rewrite HintDb pdf_labels.

#[local] Hint Rewrite set_x_ops set_xy_ops set_font_ops ln_ops check_page_break_ops
  cell_labels multi_cell_labels rect_at_labels : pdf_labels.

Lemma kv_row_labels p kv :
  labels (ops (kv_row F p kv)) = labels (ops p) ++ kv_labels kv.
Proof.
unfold kv_row. cbv zeta. autorewrite with pdf_labels.
unfold kv_labels. now rewrite <- !app_assoc.
Qed.

Lemma fold_kv_row_labels d : forall p,
  labels (ops (fold_left (kv_row F) d p)) = labels (ops p) ++ flat_map kv_labels d.
Proof.
induction d as [|kv d IH]; intros p; simpl.
- now rewrite app_nil_r.
- now rewrite IH, kv_row_labels, <- app_assoc.
Qed.

Lemma print_cells_from_labels k x_start y_start col_width its : forall acc,
  labels (ops (fst (fold_left
     (fun (acc : pdf * list Q) (it : nat * pystr) =>
        let p := set_xy (x_start + of_nat (fst it) * col_width)%Q y_start (fst acc) in
        let p := multi_cell F k col_width 6 (snd it) p in
        (p, snd acc ++ [y p])) its acc)))
  = labels (ops (fst acc)) ++ List.map (fun it => (k, snd it)) its.
Proof.
induction its as [|it its IH]; intros acc; simpl.
- now rewrite app_nil_r.
- rewrite IH. cbn [fst snd]. rewrite multi_cell_labels, set_xy_ops.
  now rewrite <- app_assoc.
Qed.

Lemma map_snd_combine (A B : Type) (l : list A) (l' : list B) :
  length l = length l' -> List.map snd (combine l l') = l'.
Proof.
revert l'. induction l as [|a l IH]; intros [|b l'] H; simpl in *;
  try discriminate; [reflexivity|].
f_equal. apply IH. lia.
Qed.

Lemma print_cells_labels k x_start y_start col_width texts p :
  labels (ops (fst (print_cells F k x_start y_start col_width texts p)))
  = labels (ops p) ++ List.map (fun t => (k, t)) texts.
Proof.
unfold print_cells. rewrite print_cells_from_labels. simpl. f_equal.
rewrite <- (map_map snd (fun t => (k, t))).
now rewrite map_snd_combine by apply length_seq.
Qed.

Lemma draw_borders_from_labels k x_start y_start col_width row_height l : forall p,
  labels (ops (fold_left
     (fun p i => rect_at k (x_start + of_nat i * col_width)%Q y_start col_width
                   row_height p) l p))
  = labels (ops p) ++ repeat (k, []) (length l).
Proof.
induction l as [|i l IH]; intros p; simpl.
- now rewrite app_nil_r.
- now rewrite IH, rect_at_labels, <- app_assoc.
Qed.

Lemma table_row_labels ktext kborder col_width num_cols texts p :
  labels (ops (table_row F ktext kborder col_width num_cols texts p))
  = labels (ops p) ++ row_labels ktext kborder num_cols texts.
Proof.
unfold table_row. cbv zeta.
pose proof (print_cells_labels ktext (x (check_page_break F 260 p))
              (y (check_page_break F 260 p)) col_width texts
              (check_page_break F 260 p)) as H.
destruct (print_cells F _ _ _ _ _ _) as [p' ys]. cbn [fst] in H.
rewrite set_xy_ops. unfold draw_borders.
rewrite draw_borders_from_labels, length_seq, H, check_page_break_ops.
unfold row_labels. now rewrite <- app_assoc.
Qed.

Lemma fold_table_row_labels col_width num_cols headers rows : forall p,
  labels (ops (fold_left
     (fun p row =>
        table_row F TableDataText TableDataBorder col_width num_cols
          (row_texts headers row) p) rows p))
  = labels (ops p)
    ++ flat_map (fun row => row_labels TableDataText TableDataBorder num_cols
                              (row_texts headers row)) rows.
Proof.
induction rows as [|row rows IH]; intros p; simpl.
- now rewrite app_nil_r.
- now rewrite IH, table_row_labels, <- app_assoc.
Qed.

Lemma render_table_labels content p :
  labels (ops (render_table F content p)) = labels (ops p) ++ table_labels content.
Proof.
unfold render_table, table_labels.
destruct content as [|first rest].
- apply cell_labels.
- destruct (Dict.keys first) as [|h hs] eqn:E.
  + simpl. now rewrite app_nil_r.
  + cbv zeta. cbn [length]. rewrite fold_table_row_labels, set_font_ops.
    rewrite table_row_labels, set_font_ops.
    now rewrite <- app_assoc.
Qed.

Lemma render_content_labels c p :
  labels (ops (render_content F c p)) = labels (ops p) ++ content_labels c.
Proof.
destruct c as [d|rows|s]; simpl.
- apply fold_kv_row_labels.
- apply render_table_labels.
- apply multi_cell_labels.
Qed.

Lemma render_section_labels p item :
  labels (ops (render_section F p item)) = labels (ops p) ++ section_labels item.
Proof.
unfold render_section, section_labels. cbv zeta.
rewrite ln_ops, render_content_labels.
autorewrite with pdf_labels. now rewrite <- app_assoc.
Qed.

Lemma fold_render_section_labels sections : forall p,
  labels (ops (fold_left (render_section F) sections p))
  = labels (ops p) ++ flat_map section_labels sections.
Proof.
induction sections as [|item sections IH]; intros p; simpl.
- now rewrite app_nil_r.
- now rewrite IH, render_section_labels, <- app_assoc.
Qed.

(** Everything [create_pdf] prints, in order. *)
Lemma render_labels d :
  labels (ops (render F d)) =
  match d with
  | DataDict sections => flat_map section_labels sections
  | DataText s => [(RawText, latin1_replace s)]
  end.
Proof.
destruct d as [sections|s]; simpl.
- now rewrite fold_render_section_labels.
- now rewrite multi_cell_labels.
Qed.

End Labels.


(** *** Text that Latin-1 cannot hold, and the empty table *)

Lemma latin1_replace_encodable s : encodable (latin1_replace s) = true.
Proof.
induction s as [|c s IH]; simpl; [reflexivity|].
rewrite IH, andb_true_r.
destruct (c <=? 255)%N eqn:E; [exact E|reflexivity].
Qed.


Definition printable (l : label) : bool := encodable (snd l).

Lemma forallb_printable os :
  forallb (fun o => encodable (op_text o)) os = forallb printable (labels os).
Proof.
unfold labels. induction os as [|o os IH]; simpl; [reflexivity|].
now rewrite IH.
Qed.

Lemma forallb_app' (A : Type) (f : A -> bool) l l' :
  forallb f l = true -> forallb f l' = true -> forallb f (l ++ l') = true.
Proof. intros H H'. rewrite forallb_app, H, H'. reflexivity. Qed.

Lemma forallb_flat_map (A B : Type) (f : B -> bool) (g : A -> list B) l :
  (forall a, In a l -> forallb f (g a) = true) ->
  forallb f (flat_map g l) = true.
Proof.
induction l as [|a l IH]; intros H; simpl; [reflexivity|].
apply forallb_app'; [apply H; now left|].
apply IH. intros a' Ha. apply H. now right.
Qed.

Lemma forallb_repeat (A : Type) (f : A -> bool) a n :
  f a = true -> forallb f (repeat a n) = true.
Proof. intros H. induction n; simpl; [reflexivity|]. now rewrite H. Qed.

Lemma forallb_map_true (A B : Type) (f : B -> bool) (g : A -> B) l :
  (forall a, f (g a) = true) -> forallb f (List.map g l) = true.
Proof.
intros H. induction l as [|a l IH]; simpl; [reflexivity|]. now rewrite H.
Qed.

Lemma row_labels_printable ktext kborder n texts :
  forallb encodable texts = true ->
  forallb printable (row_labels ktext kborder n texts) = true.
Proof.
intros H. unfold row_labels. apply forallb_app'.
- induction texts as [|t texts IH]; simpl in *; [reflexivity|].
  apply andb_true_iff in H as [H1 H2]. unfold printable at 1. simpl.
  now rewrite H1, IH.
- now apply forallb_repeat.
Qed.

Lemma content_labels_printable c : forallb printable (content_labels c) = true.
Proof.
destruct c as [d|rows|s]; simpl.
- apply forallb_flat_map. intros kv _. unfold kv_labels, printable. simpl.
  now rewrite !latin1_replace_encodable.
- unfold table_labels. destruct rows as [|first rest]; [reflexivity|].
  destruct (Dict.keys first) as [|h hs] eqn:E; [reflexivity|].
  apply forallb_app'.
  + apply row_labels_printable. apply forallb_map_true.
    apply latin1_replace_encodable.
  + apply forallb_flat_map. intros row _. apply row_labels_printable.
    unfold row_texts. apply forallb_map_true.
    intros a. apply latin1_replace_encodable.
- unfold printable. simpl. now rewrite latin1_replace_encodable.
Qed.

Lemma create_pdf_dict F sections :
  forallb encodable (Dict.keys sections) = true ->
  create_pdf F (DataDict sections) =
  Some (mkDocument (page (render F (DataDict sections)))
          (ops (render F (DataDict sections)))).
Proof.
intros H. unfold create_pdf.
rewrite forallb_printable, render_labels.
rewrite forallb_flat_map; [reflexivity|].
intros [name c] Hin. simpl. rewrite content_labels_printable, andb_true_r.
unfold printable. simpl.
rewrite forallb_forall in H. apply H. unfold Dict.keys.
now apply (in_map fst) in Hin.
Qed.

(** The section names of [parse_html_data] are ASCII. *)
Lemma section_names_encodable body :
  forallb encodable (Dict.keys (parse_html_data body)) = true.
Proof.
unfold parse_html_data. cbv zeta.
destruct (party_block _ (str "Petitioner_Advocate_table"));
  destruct (party_block _ (str "Respondent_Advocate_table"));
  destruct (fir_data _); reflexivity.
Qed.



(** A geometry in whole millimetres: A4 with 10 mm margins, every text on
    one line. *)
Definition a4 : fpdf := mkFpdf 10 10 200 277 (fun _ _ _ => 0).


(** *** Table cells *)

(** A table whose second row lacks the key B and has a key C of its own. *)
Definition ragged_table : list (Dict.dict pystr) :=
[[(str "A", str "1"); (str "B", str "2")];
 [(str "A", str "3"); (str "C", str "9")]].

(** C10.  A table with rows prints, for a first row that has keys, a
    header row made of the first row's keys, and then for every row one
    cell per header key, in header order, holding the row's value for that
    key or the empty string when the row has no such key.  Keys a row has
    beyond the header's do not reach the page: rows that agree on the
    header keys print the same cells. *)
Theorem table_cells_follow_first_row :
  forall F first rest p,
  Dict.keys first <> [] ->
  let headers := Dict.keys first in
  labels (ops (render_table F (first :: rest) p)) =
    labels (ops p)
    ++ (List.map (fun h => (TableHeaderText, latin1_replace h)) headers
        ++ repeat (TableHeaderBorder, []) (length headers))
    ++ flat_map
         (fun row =>
            List.map
              (fun h => (TableDataText, latin1_replace (Dict.get_default row h [])))
              headers
            ++ repeat (TableDataBorder, []) (length headers))
         (first :: rest) /\
  (forall (row : Dict.dict pystr) h,
     Dict.get row h = None -> Dict.get_default row h [] = []) /\
  (forall row row',
     (forall h, In h headers -> Dict.get row h = Dict.get row' h) ->
     row_texts headers row = row_texts headers row').
Proof.
intros F first rest p Hne headers. split; [|split].
- rewrite render_table_labels. f_equal. unfold table_labels. fold headers.
  destruct headers as [|h hs] eqn:E; [contradiction|].
  unfold row_labels, row_texts. rewrite map_map. f_equal.
  apply flat_map_ext. intros row. now rewrite map_map.
- intros row h H. unfold Dict.get_default. now rewrite H.
- intros row row' H. unfold row_texts. apply map_ext_in.
  intros h Hh. unfold Dict.get_default. now rewrite (H h Hh).
Qed.

Lemma table_cells_follow_first_row_witness :
  labels (ops (render_table a4 ragged_table (start a4))) =
  [(TableHeaderText, str "A"); (TableHeaderText, str "B");
   (TableHeaderBorder, []); (TableHeaderBorder, []);
   (TableDataText, str "1"); (TableDataText, str "2");
   (TableDataBorder, []); (TableDataBorder, []);
   (TableDataText, str "3"); (TableDataText, []);
   (TableDataBorder, []); (TableDataBorder, [])].
Proof.
unfold ragged_table.
assert (Hne : Dict.keys [(str "A", str "1"); (str "B", str "2")] <> [])
  by discriminate.
exact (proj1 (@table_cells_follow_first_row a4
                [(str "A", str "1"); (str "B", str "2")]
                [[(str "A", str "3"); (str "C", str "9")]] (start a4) Hne)).
Defined.


(** *** Lengths *)

Section Geometry.

Local Open Scope Q_scope.

Variable F : fpdf.

Lemma Qgtb_false a b : Qgtb a b = false <-> a <= b.
Proof.
unfold Qgtb. rewrite negb_false_iff. apply Qle_bool_iff.
Qed.

Lemma of_nat_S n : of_nat (S n) == of_nat n + 1.
Proof.
unfold of_nat. rewrite Nat2Z.inj_succ, <- Z.add_1_r, inject_Z_plus.
reflexivity.
Qed.

Lemma of_nat_nonneg n : 0 <= of_nat n.
Proof.
unfold of_nat. change 0 with (inject_Z 0). rewrite <- Zle_Qle. lia.
Qed.

Lemma cell_width_0 p : cell_width F 0 p = r_limit F - x p.
Proof. reflexivity. Qed.

Lemma cell_width_pos w p : 0 < w -> cell_width F w p = w.
Proof.
intros H. unfold cell_width.
destruct (Qeq_bool w 0) eqn:E; [|reflexivity].
apply Qeq_bool_iff in E. lra.
Qed.

(** The height of a key/value row when nothing breaks it: six per line,
    for the taller of the key and the value. *)
Definition kv_height (kv : pystr * pystr) : Q :=
Qmax (of_nat (S (extra_lines F bold10 w_key (latin1_replace (fst kv)))) * 6)
     (of_nat (S (extra_lines F regular10 w_val (latin1_replace (snd kv)))) * 6).

(** The height of a key/value section when nothing breaks it. *)
Definition mapping_height (d : Dict.dict pystr) : Q :=
fold_right (fun kv acc => kv_height kv + acc) 0 d.

(** Column [i] of [n] equal columns ends within the assumed width. *)
Lemma column_fits n i :
  (i < n)%nat ->
  0 < page_width / of_nat n /\
  (of_nat i + 1) * (page_width / of_nat n) <= page_width.
Proof.
intros Hi.
assert (Hn : 0 < of_nat n).
{ unfold of_nat. change 0 with (inject_Z 0). rewrite <- Zlt_Qlt. lia. }
assert (Hin : of_nat i + 1 <= of_nat n).
{ rewrite <- of_nat_S. unfold of_nat. rewrite <- Zle_Qle. lia. }
assert (Hcw : 0 < page_width / of_nat n).
{ apply Qlt_shift_div_l; [exact Hn|]. unfold page_width. lra. }
split; [exact Hcw|].
apply Qle_trans with (of_nat n * (page_width / of_nat n)).
- apply Qmult_le_compat_r; [exact Hin|]. lra.
- rewrite Qmult_div_r; [lra|]. lra.
Qed.

End Geometry.

(** FPDF's own defaults for A4 in millimetres: 72/25.4 points to the
    millimetre, a page of 595.28 by 841.89 points, margins of 28.35 points,
    the page-break line two margins above the bottom edge. *)
Definition fpdf_a4 (lines : font -> Q -> pystr -> nat) : fpdf :=
let k := (72 / (254 # 10))%Q in
let margin := ((2835 # 100) / k)%Q in
mkFpdf margin margin (((59528 # 100) / k) - margin)%Q
  (((84189 # 100) / k) - 2 * margin)%Q lines.

Definition one_line : font -> Q -> pystr -> nat := fun _ _ _ => O.

End PdfFacts.

(** ** The request handler *)

Module ApiFacts.

Import Extract Pdf Api PdfFacts.

(** All three fields are there. *)
Definition all_present (members : Dict.dict json) : Prop :=
Dict.get members (str "case_type") <> None /\
Dict.get members (str "case_number") <> None /\
Dict.get members (str "year") <> None.

(** A core that finds a case at once. *)
Definition sample_core : core :=
mkCore (fun _ _ _ => Scraped [] []) (fun _ => []) a4.

(** A request whose case type is there, and empty. *)
Definition empty_case_type : Dict.dict json :=
[(str "case_type", JString []); (str "case_number", JString (str "1234"));
 (str "year", JString (str "2020"))].

(** All three fields are present, yet the core is not called; and a body
    that is the JSON value [null] has none of the fields, yet the answer is
    not the 400 rejection. *)
Lemma present_but_empty_rejected :
  all_present empty_case_type /\
  handle_scrape_request sample_core (JObject empty_case_type)
    = (Json MissingRequiredFields 400, []) /\
  handle_scrape_request sample_core JNull = (Unhandled, []).
Proof.
split; [|split; reflexivity].
repeat split; discriminate.
Qed.

(** A body that is JSON and not an object has no [get]: the handler raises
    at its first field, before the guard and before any call. *)
Lemma body_without_get c req_data :
  (forall members, req_data <> JObject members) ->
  handle_scrape_request c req_data = (Unhandled, []).
Proof.
intros H. destruct req_data; try reflexivity. now elim (H members).
Qed.

Lemma get_missing members key :
  Dict.get members key = None -> py_bool (get members key) = false.
Proof. unfold get. now intros ->. Qed.

(** C9, amended.  A request whose body is a JSON object in which one of
    the three fields is missing, or present but falsy, is answered 400
    without a call to [scrape_ecourts].  When all three are present and
    truthy, [scrape_ecourts] is called once, with the three values; a
    failure of it is answered 500, an unknown case type 400, and a success
    with a file of type [application/pdf] named by the f-string
    [Case_{case_number}_{year}.pdf], which for a number and a year that are
    strings is [Case_<number>_<year>.pdf]. *)
Theorem handler_validates_then_scrapes :
  forall c members,
  let req := JObject members in
  let case_type := get members (str "case_type") in
  let case_number := get members (str "case_number") in
  let year := get members (str "year") in
  (Dict.get members (str "case_type") = None \/
   Dict.get members (str "case_number") = None \/
   Dict.get members (str "year") = None ->
   handle_scrape_request c req = (Json MissingRequiredFields 400, [])) /\
  (py_bool case_type = false \/ py_bool case_number = false \/
   py_bool year = false ->
   handle_scrape_request c req = (Json MissingRequiredFields 400, [])) /\
  (py_bool case_type = true -> py_bool case_number = true -> py_bool year = true ->
   snd (handle_scrape_request c req) = [(case_type, case_number, year)] /\
   match scrape_ecourts c case_type case_number year with
   | Failed m => fst (handle_scrape_request c req) = Json (Result (Failed m)) 500
   | NotFound e => fst (handle_scrape_request c req) = Json (Result (NotFound e)) 400
   | Scraped _ html =>
       exists pdf_stream,
         create_pdf (fpdf_lib c)
           (DataDict (parse_html_data (html_parser c html))) = Some pdf_stream /\
         fst (handle_scrape_request c req) =
           SendFile pdf_stream
             [Lit (str "Case_"); Val case_number; Lit (str "_"); Val year;
              Lit (str ".pdf")]
             (str "application/pdf") /\
         forall cn yr,
           case_number = JString cn -> year = JString yr ->
           text_of [Lit (str "Case_"); Val case_number; Lit (str "_"); Val year;
                    Lit (str ".pdf")]
           = Some (str "Case_" ++ cn ++ str "_" ++ yr ++ str ".pdf")
   end).
Proof.
intros c members req case_type case_number year.
assert (Hfalsy : py_bool case_type = false \/ py_bool case_number = false \/
                 py_bool year = false ->
                 handle_scrape_request c req = (Json MissingRequiredFields 400, [])).
{ intros H. unfold req, handle_scrape_request.
  fold case_type case_number year. cbn [forallb].
  destruct H as [H|[H|H]]; rewrite H; simpl;
    rewrite ?andb_false_r; reflexivity. }
split; [|split; [exact Hfalsy|]].
- intros [H|[H|H]]; apply Hfalsy; [left|right; left|right; right];
    apply get_missing; exact H.
- intros Hct Hcn Hyr.
  unfold req, handle_scrape_request.
  fold case_type case_number year. cbn [forallb].
  rewrite Hct, Hcn, Hyr. cbn [andb negb].
  destruct (scrape_ecourts c case_type case_number year) as [t html|e|m];
    try (split; reflexivity).
  rewrite create_pdf_dict by apply section_names_encodable.
  split; [reflexivity|]. eexists. split; [reflexivity|].
  split; [reflexivity|].
  intros cn yr -> ->. reflexivity.
Qed.

Definition full_request : Dict.dict json :=
[(str "case_type", JString (str "MCRC")); (str "case_number", JString (str "1234"));
 (str "year", JString (str "2020"))].

Lemma handler_validates_then_scrapes_witness :
  handle_scrape_request sample_core
    (JObject [(str "case_number", JString (str "1234"));
              (str "year", JString (str "2020"))])
    = (Json MissingRequiredFields 400, []) /\
  snd (handle_scrape_request sample_core (JObject full_request))
    = [(JString (str "MCRC"), JString (str "1234"), JString (str "2020"))].
Proof.
split.
- apply (proj1 (handler_validates_then_scrapes sample_core _)).
  left. reflexivity.
- apply (proj2 (proj2 (handler_validates_then_scrapes sample_core full_request)));
    reflexivity.
Defined.

End ApiFacts.

(* ================================================================== *)
(** * Part III. Further properties of the program                      *)
(* ================================================================== *)

(** ** More of the extraction engine *)

Module ExtractMore.

Import Soup Extract PyStrFacts DictFacts ExtractFacts.

(** *** [clean_text] *)

Lemma lstrip_by_head p s :
  match lstrip_by p s with
  | c :: _ => p c = false
  | [] => True
  end.
Proof.
induction s as [|c s IH]; simpl; [exact I|].
destruct (p c) eqn:E; [exact IH|exact E].
Qed.

Lemma lstrip_by_fixed p c s : p c = false -> lstrip_by p (c :: s) = c :: s.
Proof. intros H. simpl. now rewrite H. Qed.

Lemma lstrip_by_suffix p s : exists pre, s = pre ++ lstrip_by p s.
Proof.
induction s as [|c s [pre IH]]; simpl.
- now exists [].
- destruct (p c).
  + exists (c :: pre). simpl. now f_equal.
  + now exists [].
Qed.

Lemma rstrip_by_snoc p s c :
  rstrip_by p (s ++ [c]) = if p c then rstrip_by p s else s ++ [c].
Proof.
unfold rstrip_by. rewrite rev_app_distr. simpl.
destruct (p c); [reflexivity|].
simpl. now rewrite rev_involutive.
Qed.

Lemma rstrip_by_last p s :
  forall r c, rstrip_by p s = r ++ [c] -> p c = false.
Proof.
induction s as [|d s IH] using rev_ind; intros r c.
- unfold rstrip_by. simpl. intros H. now destruct r.
- rewrite rstrip_by_snoc. destruct (p d) eqn:E.
  + apply IH.
  + intros H. apply app_inj_tail in H as [_ <-]. exact E.
Qed.

Lemma rstrip_by_prefix p s : exists suf, s = rstrip_by p s ++ suf.
Proof.
induction s as [|d s [suf IH]] using rev_ind.
- now exists [].
- rewrite rstrip_by_snoc. destruct (p d).
  + exists (suf ++ [d]). rewrite app_assoc. now f_equal.
  + exists []. now rewrite app_nil_r.
Qed.

Lemma rstrip_by_cons p c s :
  p c = false -> rstrip_by p (c :: s) = c :: rstrip_by p s.
Proof.
intros Hc. induction s as [|d s IH] using rev_ind.
- unfold rstrip_by. simpl. now rewrite Hc.
- change (c :: s ++ [d]) with ((c :: s) ++ [d]).
  rewrite !rstrip_by_snoc. destruct (p d); [exact IH|reflexivity].
Qed.

Lemma rstrip_by_fixed p s :
  (forall r c, s = r ++ [c] -> p c = false) -> rstrip_by p s = s.
Proof.
destruct s as [|d s] using rev_ind; intros H; [reflexivity|].
rewrite rstrip_by_snoc. now rewrite (H s d eq_refl).
Qed.

Lemma strip_idempotent s : strip (strip s) = strip s.
Proof.
unfold strip.
pose proof (lstrip_by_head isspace s) as Hh.
destruct (lstrip_by isspace s) as [|c t] eqn:E.
- reflexivity.
- rewrite (@rstrip_by_cons isspace c t Hh).
  rewrite (@lstrip_by_fixed isspace c (rstrip_by isspace t) Hh).
  rewrite <- (@rstrip_by_cons isspace c t Hh).
  apply rstrip_by_fixed. intros r d Hr.
  exact (@rstrip_by_last isspace (c :: t) r d Hr).
Qed.

Lemma strip_ends s :
  (forall c r, strip s = c :: r -> isspace c = false) /\
  (forall r c, strip s = r ++ [c] -> isspace c = false).
Proof.
split.
- intros c r H. unfold strip in H.
  pose proof (lstrip_by_head isspace s) as Hh.
  destruct (lstrip_by isspace s) as [|d t]; [discriminate H|].
  rewrite (@rstrip_by_cons isspace d t Hh) in H. now injection H as <- _.
- intros r c H. exact (@rstrip_by_last isspace _ r c H).
Qed.

Lemma strip_keeps (P : char -> Prop) s : Forall P s -> Forall P (strip s).
Proof.
intros H. unfold strip.
destruct (lstrip_by_suffix isspace s) as [pre E].
destruct (rstrip_by_prefix isspace (lstrip_by isspace s)) as [suf E'].
rewrite E in H. apply Forall_app in H as [_ H].
rewrite E' in H. now apply Forall_app in H as [H _].
Qed.

Lemma replace_nbsp_none s : Forall (fun c => c <> 160%N) (replace_nbsp s).
Proof.
unfold replace_nbsp. induction s as [|c s IH]; simpl; constructor; [|exact IH].
destruct (c =? 160)%N eqn:E; [discriminate|]. now apply N.eqb_neq.
Qed.

Lemma replace_nbsp_fixed s : Forall (fun c => c <> 160%N) s -> replace_nbsp s = s.
Proof.
unfold replace_nbsp. induction 1 as [|c s Hc _ IH]; simpl; [reflexivity|].
apply N.eqb_neq in Hc. now rewrite Hc, IH.
Qed.

Lemma clean_text_strip text : clean_text text = strip (replace_nbsp text).
Proof. unfold clean_text. now destruct text. Qed.

(** X1.  [clean_text] leaves no non-breaking space in its result and no
    white space at either end of it, and cleaning a cleaned text changes
    nothing. *)
Theorem clean_text_normalizes :
  forall text,
  Forall (fun c => c <> 160%N) (clean_text text) /\
  (forall c r, clean_text text = c :: r -> isspace c = false) /\
  (forall r c, clean_text text = r ++ [c] -> isspace c = false) /\
  clean_text (clean_text text) = clean_text text.
Proof.
intros text. rewrite !clean_text_strip.
assert (H : Forall (fun c => c <> 160%N) (strip (replace_nbsp text)))
  by (apply strip_keeps, replace_nbsp_none).
split; [exact H|]. split; [apply strip_ends|]. split; [apply strip_ends|].
rewrite (@replace_nbsp_fixed _ H). apply strip_idempotent.
Qed.

(** *** The dictionaries of the record *)

Lemma set_keeps_nodup V (d : Dict.dict V) k v :
  NoDup (Dict.keys d) -> NoDup (Dict.keys (Dict.set d k v)).
Proof.
intros H. rewrite keys_set. unfold Dict.mem.
destruct (Dict.get d k) eqn:E; [exact H|].
apply get_None_not_key in E.
apply NoDup_app; [exact H|repeat constructor; intros []|].
intros x Hx [<-|[]]. now apply E.
Qed.

Lemma fold_keeps_nodup V A (f : Dict.dict V -> A -> Dict.dict V) l :
  (forall d a, NoDup (Dict.keys d) -> NoDup (Dict.keys (f d a))) ->
  forall d, NoDup (Dict.keys d) -> NoDup (Dict.keys (fold_left f l d)).
Proof.
intros Hf. induction l as [|a l IH]; intros d Hd; simpl; [exact Hd|].
apply IH. now apply Hf.
Qed.

Lemma zip_row_nodup_keys headers cols : NoDup (Dict.keys (zip_row headers cols)).
Proof.
unfold zip_row, Dict.of_pairs. apply fold_keeps_nodup; [|constructor].
intros d kv. apply set_keeps_nodup.
Qed.

Lemma spec_rows_nodup headers rows :
  Forall (fun r => NoDup (Dict.keys r)) (spec_rows headers rows).
Proof.
unfold spec_rows. apply Forall_forall. intros r Hr.
apply in_map_iff in Hr as (cols & <- & _). apply zip_row_nodup_keys.
Qed.

Lemma single_label_nodup sp phrase cd :
  NoDup (Dict.keys cd) -> NoDup (Dict.keys (single_label sp phrase cd)).
Proof.
intros H. unfold single_label.
destruct (label_row sp phrase); [|exact H].
destruct (contains _ _); [|exact H].
destruct (after_first_colon _); [|exact H].
now apply set_keeps_nodup.
Qed.

Lemma paired_label_nodup sp l1 l2 fb cd :
  NoDup (Dict.keys cd) -> NoDup (Dict.keys (paired_label sp l1 l2 fb cd)).
Proof.
intros H. unfold paired_label.
destruct (label_row sp l1); [|exact H].
destruct (Regex.search _ _); repeat apply set_keeps_nodup; exact H.
Qed.

Lemma kv_spans_nodup container : NoDup (Dict.keys (kv_spans container)).
Proof.
unfold kv_spans. apply fold_keeps_nodup; [|constructor].
intros d k Hd. unfold kv_entry.
destruct (find_next_sibling k (str "label")); [|exact Hd].
now apply set_keeps_nodup.
Qed.

(** A value of the record whose dictionaries all have distinct keys. *)
Definition distinct_keys (c : content) : Prop :=
match c with
| CDict d => NoDup (Dict.keys d)
| CList rows => Forall (fun r => NoDup (Dict.keys r)) rows
| CStr _ => True
end.

Lemma case_details_nodup sp : NoDup (Dict.keys (case_details sp)).
Proof.
unfold case_details.
apply single_label_nodup, paired_label_nodup, paired_label_nodup,
  single_label_nodup. constructor.
Qed.

Lemma case_status_nodup sp : NoDup (Dict.keys (case_status sp)).
Proof.
unfold case_status. destruct (find sp _ _); [|constructor].
apply fold_keeps_nodup; [|constructor].
intros d lbl Hd. unfold status_entry.
destruct (find_all lbl (str "strong") any_tag) as [|s0 [|s1 r]]; try exact Hd.
now apply set_keeps_nodup.
Qed.

Lemma cat_data_nodup sp : NoDup (Dict.keys (cat_data sp)).
Proof.
unfold cat_data.
destruct (find sp _ _); [|constructor].
destruct (find_parent _ _ _); [|constructor].
destruct (find_next_sibling _ _); [|constructor].
apply fold_keeps_nodup; [|constructor].
intros d tr Hd. unfold cat_entry.
destruct (cells [] (str "td") tr) as [|c0 [|c1 r]]; try exact Hd.
now apply set_keeps_nodup.
Qed.

Lemma fir_data_nodup sp : Forall (fun r => NoDup (Dict.keys r)) (fir_data sp).
Proof.
unfold fir_data. destruct (find sp (str "table") _).
- match goal with
  | |- context [match ?hs with [] => [] | _ :: _ => _ end] => destruct hs
  end; [constructor|].
  rewrite table_rows_spec. apply spec_rows_nodup.
- destruct (find sp (str "span") _) as [fir_span|]; [|constructor].
  pose proof (kv_spans_nodup fir_span) as H.
  destruct (kv_spans fir_span); [constructor|].
  constructor; [exact H|constructor].
Qed.

Lemma in_set V (d : Dict.dict V) k v k' v' :
  In (k', v') (Dict.set d k v) -> In (k', v') d \/ v' = v.
Proof.
induction d as [|[k0 v0] d IH]; simpl.
- intros [E|[]]. right. congruence.
- destruct (PyStr.eqb k0 k); simpl.
  + intros [E|H]; [right; congruence|left; now right].
  + intros [E|H]; [left; now left|].
    destruct (IH H); [left; now right|now right].
Qed.

(** X2.  Every dictionary of the record is a proper dictionary: the
    section names are pairwise distinct, and so are the keys of every
    key/value section and of every row of every table section, whatever
    labels, headers and keys the document repeats. *)
Theorem record_keys_distinct :
  forall body,
  NoDup (Dict.keys (parse_html_data body)) /\
  (forall name c, In (name, c) (parse_html_data body) -> distinct_keys c).
Proof.
intros body. unfold parse_html_data. cbv zeta.
set (sp := soup body).
split.
- destruct (party_block sp _); destruct (party_block sp _);
    destruct (fir_data sp); repeat apply set_keeps_nodup; constructor.
- assert (Hacts : distinct_keys (CList (acts_data sp))).
  { unfold acts_data. destruct (find sp _ _); [|constructor].
    simpl. rewrite table_rows_spec. apply spec_rows_nodup. }
  assert (Hia : distinct_keys (CList (ia_data sp))).
  { unfold ia_data. destruct (find sp _ _); [|constructor].
    simpl. rewrite table_rows_spec. apply spec_rows_nodup. }
  assert (Hord : distinct_keys (CList (orders_data sp))).
  { unfold orders_data. destruct (find sp _ _) as [t|]; [|constructor].
    destruct (find t _ _); [|constructor].
    simpl. rewrite table_rows_spec. apply spec_rows_nodup. }
  assert (Hsub : distinct_keys (CDict (sub_court_data sp))).
  { unfold sub_court_data. destruct (find sp _ _); [|constructor].
    apply kv_spans_nodup. }
  pose proof (fir_data_nodup sp) as Hfir.
  pose proof (case_details_nodup sp) as Hcd.
  pose proof (case_status_nodup sp) as Hcs.
  pose proof (cat_data_nodup sp) as Hcat.
  intros name c Hin.
  destruct (party_block sp _); destruct (party_block sp _);
    destruct (fir_data sp) eqn:Ef;
    repeat (apply in_set in Hin as [Hin| ->]; [|assumption || exact I]);
    destruct Hin.
Qed.

(** X3.  The record lists its sections in one fixed order, that of
    [section_names], whichever of the three optional sections are there:
    its keys are the section names with the absent ones left out. *)
Theorem sections_in_fixed_order :
  forall body,
  Dict.keys (parse_html_data body) =
  filter (Dict.mem (parse_html_data body)) section_names.
Proof.
intros body. unfold parse_html_data. cbv zeta.
generalize (CDict (case_details (soup body))) as v1.
generalize (CDict (case_status (soup body))) as v2.
generalize (CList (acts_data (soup body))) as v3.
generalize (CDict (sub_court_data (soup body))) as v4.
generalize (CList (ia_data (soup body))) as v5.
generalize (CList (orders_data (soup body))) as v6.
generalize (CDict (cat_data (soup body))) as v7.
intros v7 v6 v5 v4 v3 v2 v1.
destruct (party_block _ (str "Petitioner_Advocate_table")) as [t1|];
  destruct (party_block _ (str "Respondent_Advocate_table")) as [t2|];
  destruct (fir_data (soup body)) as [|r rs];
  try generalize (CList (r :: rs)); intros;
  vm_compute; reflexivity.
Qed.

(** *** Label-anchored values *)

Lemma contains_colon s : contains (str ":") s = true <-> In 58%N s.
Proof.
induction s as [|c s IH].
- simpl. split; [discriminate|intros []].
- change (contains (str ":") (c :: s))
    with (startswith (str ":") (c :: s) || contains (str ":") s).
  assert (E : startswith (str ":") (c :: s) = (58 =? c)%N).
  { change (str ":") with [58%N]. simpl. apply andb_true_r. }
  rewrite E, orb_true_iff, IH, N.eqb_eq. simpl.
  split; intros [H|H]; auto.
Qed.

Lemma after_first_colon_split pre v :
  ~ In 58%N pre -> after_first_colon (pre ++ 58%N :: v) = Some v.
Proof.
induction pre as [|c pre IH]; intros H; simpl.
- reflexivity.
- destruct (c =? 58)%N eqn:E.
  + apply N.eqb_eq in E. exfalso. apply H. now left.
  + apply IH. intros Hin. apply H. now right.
Qed.

Lemma single_label_value sp phrase cd row :
  label_row sp phrase = Some row ->
  Dict.get cd phrase = None ->
  (~ In 58%N (get_text_strip (str " ") row) ->
   Dict.get (single_label sp phrase cd) phrase = None) /\
  (forall pre v,
     get_text_strip (str " ") row = pre ++ 58%N :: v -> ~ In 58%N pre ->
     Dict.get (single_label sp phrase cd) phrase = Some (strip v)).
Proof.
intros Hrow Hcd. unfold single_label. rewrite Hrow. cbv zeta. split.
- intros H. destruct (contains _ _) eqn:E; [|exact Hcd].
  apply contains_colon in E. contradiction.
- intros pre v Ht Hpre.
  assert (E : contains (str ":") (get_text_strip (str " ") row) = true).
  { apply contains_colon. rewrite Ht. apply in_or_app. right. now left. }
  rewrite E, Ht, (@after_first_colon_split pre v Hpre). apply get_set_same.
Qed.

(** X5.  For "Case Type" and for "CNR Number": when the label's container
    is found, the value stored is what follows the first colon of the
    container's text, stripped, further colons included; when the text has
    no colon, nothing is stored under that key. *)
Theorem label_value_after_first_colon :
  forall body,
  (forall row,
     label_row (soup body) (str "Case Type") = Some row ->
     (~ In 58%N (get_text_strip (str " ") row) ->
      Dict.get (case_details (soup body)) (str "Case Type") = None) /\
     (forall pre v,
        get_text_strip (str " ") row = pre ++ 58%N :: v -> ~ In 58%N pre ->
        Dict.get (case_details (soup body)) (str "Case Type") = Some (strip v))) /\
  (forall row,
     label_row (soup body) (str "CNR Number") = Some row ->
     (~ In 58%N (get_text_strip (str " ") row) ->
      Dict.get (case_details (soup body)) (str "CNR Number") = None) /\
     (forall pre v,
        get_text_strip (str " ") row = pre ++ 58%N :: v -> ~ In 58%N pre ->
        Dict.get (case_details (soup body)) (str "CNR Number") = Some (strip v))).
Proof.
intros body. split; intros row Hrow; unfold case_details.
- rewrite single_label_other, !paired_label_other by reflexivity.
  now apply single_label_value.
- apply single_label_value; [exact Hrow|].
  rewrite !paired_label_other, single_label_other by reflexivity.
  reflexivity.
Qed.

(** A container whose value has colons of its own. *)
Definition case_type_with_colons : list node :=
[elem "span" "case_details_table"
   [elem "label" "" [text "Case Type"]; text " : WP : WRIT PETITION "]].

Lemma label_value_after_first_colon_witness :
  Dict.get (case_details (soup case_type_with_colons)) (str "Case Type")
    = Some (str "WP : WRIT PETITION").
Proof.
destruct (label_row (soup case_type_with_colons) (str "Case Type")) as [row|] eqn:E;
  [|discriminate E].
destruct (proj1 (label_value_after_first_colon case_type_with_colons) row E)
  as [_ H].
vm_compute in E. injection E as <-.
rewrite (H (str "Case Type ") (str " WP : WRIT PETITION")).
- reflexivity.
- reflexivity.
- vm_compute. intros H'. repeat (destruct H' as [H'|H']; [discriminate H'|]).
  exact H'.
Defined.

Lemma single_label_keys sp phrase cd k :
  In k (Dict.keys (single_label sp phrase cd)) -> k = phrase \/ In k (Dict.keys cd).
Proof.
unfold single_label.
destruct (label_row sp phrase); [|tauto].
destruct (contains _ _); [|tauto].
destruct (after_first_colon _); [|tauto].
rewrite keys_set. destruct (Dict.mem cd phrase); [tauto|].
intros H. apply in_app_or in H as [H|[<-|[]]]; tauto.
Qed.

Lemma set_keys V (d : Dict.dict V) k v k' :
  In k' (Dict.keys (Dict.set d k v)) -> k' = k \/ In k' (Dict.keys d).
Proof.
rewrite keys_set. destruct (Dict.mem d k); [tauto|].
intros H. apply in_app_or in H as [H|[<-|[]]]; tauto.
Qed.

Lemma paired_label_keys sp l1 l2 fb cd k :
  In k (Dict.keys (paired_label sp l1 l2 fb cd)) ->
  k = l1 \/ k = l2 \/ k = fb \/ In k (Dict.keys cd).
Proof.
unfold paired_label.
destruct (label_row sp l1); [|tauto].
destruct (Regex.search _ _).
- intros H. apply set_keys in H as [H|H]; [tauto|].
  apply set_keys in H. tauto.
- intros H. apply set_keys in H. tauto.
Qed.

(** X6.  "Case Details" never holds a key beyond the eight the extractor
    knows, whatever the document's labels say. *)
Theorem case_details_keys_known :
  forall body k,
  In k (Dict.keys (case_details (soup body))) ->
  In k [str "Case Type"; str "Filing Number"; str "Filing Date";
        str "Filing Details"; str "Registration Number";
        str "Registration Date"; str "Registration Details";
        str "CNR Number"].
Proof.
intros body k H. unfold case_details in H.
apply single_label_keys in H as [->|H]; [simpl; tauto|].
apply paired_label_keys in H as [->|[->|[->|H]]]; try (simpl; tauto).
apply paired_label_keys in H as [->|[->|[->|H]]]; try (simpl; tauto).
apply single_label_keys in H as [->|[]]. simpl. tauto.
Qed.

Lemma case_details_keys_known_witness :
  In (str "Filing Date")
    [str "Case Type"; str "Filing Number"; str "Filing Date";
     str "Filing Details"; str "Registration Number";
     str "Registration Date"; str "Registration Details";
     str "CNR Number"].
Proof.
apply (case_details_keys_known filing_both). vm_compute. tauto.
Defined.

(** *** What a match of a paired pattern says about the text *)

(** The text [m] is the literal [l] of a pattern, character by character,
    up to what [re.IGNORECASE] lets a character match. *)
Definition same_letters (l m : pystr) : Prop :=
Forall2 (fun a b => Regex.ci_eqb a b = true) l m.

(** How a pattern lies over a stretch of text, and the groups it captures
    there: a literal over as many characters, matching it one by one; a
    starred class over a run of characters of the class. *)
Inductive spans : list Regex.item -> pystr -> list pystr -> Prop :=
| spans_nil : spans [] [] []
| spans_lit l m p c g :
    same_letters l m -> spans p c g -> spans (Regex.Lit l :: p) (m ++ c) g
| spans_star greedy cls capture t p c g :
    forallb cls t = true -> spans p c g ->
    spans (Regex.Star greedy cls capture :: p) (t ++ c)
      (if capture then t :: g else g).

Lemma lit_rest_sound l : forall s s',
  Regex.lit_rest l s = Some s' -> exists m, s = m ++ s' /\ same_letters l m.
Proof.
induction l as [|x l IH]; intros s s'; simpl.
- intros H. injection H as <-. exists []. split; [reflexivity|constructor].
- destruct s as [|y s]; [discriminate|].
  destruct (Regex.ci_eqb x y) eqn:E; [|discriminate].
  intros H. destruct (IH _ _ H) as (m & -> & Hm).
  exists (y :: m). split; [reflexivity|]. now constructor.
Qed.

Lemma run_sound p : forall s g,
  Regex.run p s = Some g -> exists c rest, s = c ++ rest /\ spans p c g.
Proof.
induction p as [|it p IH].
- simpl. intros s g H. injection H as <-. exists [], s. split; [reflexivity|constructor].
- destruct it as [l|greedy cls capture].
  + simpl. intros s g. destruct (Regex.lit_rest l s) as [s'|] eqn:E; [|discriminate].
    intros H. destruct (IH _ _ H) as (c & rest & -> & Hc).
    destruct (lit_rest_sound _ _ E) as (m & -> & Hm).
    exists (m ++ c), rest. split; [now rewrite app_assoc|now constructor].
  + intros s. simpl.
    assert (Hstar : forall s taken g,
      (fix star (taken s : pystr) {struct s} : option (list pystr) :=
         let stop := Regex.with_group capture taken (Regex.run p s) in
         match s with
         | c :: s' =>
             if cls c
             then if greedy then Regex.or_else (star (c :: taken) s') stop
                  else Regex.or_else stop (star (c :: taken) s')
             else stop
         | [] => stop
         end) taken s = Some g ->
      exists t c rest g0,
        s = t ++ c ++ rest /\ forallb cls t = true /\ spans p c g0 /\
        g = if capture then (rev taken ++ t) :: g0 else g0).
    { assert (Hstop : forall taken s g,
        Regex.with_group capture taken (Regex.run p s) = Some g ->
        exists t c rest g0,
          s = t ++ c ++ rest /\ forallb cls t = true /\ spans p c g0 /\
          g = if capture then (rev taken ++ t) :: g0 else g0).
      { intros taken s0 g. unfold Regex.with_group.
        destruct (Regex.run p s0) as [g0|] eqn:E; [|discriminate].
        intros H. injection H as <-.
        destruct (IH _ _ E) as (c & rest & -> & Hc).
        exists [], c, rest, g0. rewrite app_nil_r. auto. }
      induction s0 as [|c s0 IHs]; intros taken g.
      - simpl. apply Hstop.
      - simpl. destruct (cls c) eqn:Ec; [|apply Hstop].
        assert (Hext : forall g,
          (fix star (taken s : pystr) {struct s} : option (list pystr) :=
             let stop := Regex.with_group capture taken (Regex.run p s) in
             match s with
             | c :: s' =>
                 if cls c
                 then if greedy then Regex.or_else (star (c :: taken) s') stop
                      else Regex.or_else stop (star (c :: taken) s')
                 else stop
             | [] => stop
             end) (c :: taken) s0 = Some g ->
          exists t c' rest g0,
            c :: s0 = t ++ c' ++ rest /\ forallb cls t = true /\ spans p c' g0 /\
            g = if capture then (rev taken ++ t) :: g0 else g0).
        { intros g' H. destruct (IHs _ _ H) as (t & c' & rest & g0 & -> & Ht & Hc & ->).
          exists (c :: t), c', rest, g0. simpl. rewrite Ec, Ht.
          repeat split; auto. simpl. now rewrite <- app_assoc. }
        destruct greedy; unfold Regex.or_else.
        + match goal with |- context [match ?t with Some _ => _ | None => _ end] =>
            destruct t eqn:Et end.
          * intros H. rewrite H in Et. exact (Hext _ Et).
          * apply Hstop.
        + match goal with |- context [match ?t with Some _ => _ | None => _ end] =>
            destruct t eqn:Et end.
          * intros H. rewrite H in Et. exact (Hstop _ _ _ Et).
          * apply Hext. }
    intros g H. destruct (Hstar _ _ _ H) as (t & c & rest & g0 & -> & Ht & Hc & ->).
    exists (t ++ c), rest. split; [now rewrite app_assoc|].
    simpl. now constructor.
Qed.

Lemma search_sound p : forall s g,
  Regex.search p s = Some g ->
  exists pre c rest, s = pre ++ c ++ rest /\ spans p c g.
Proof.
induction s as [|x s IH]; intros g; simpl.
- destruct (Regex.run p []) eqn:E; [|discriminate].
  intros H. injection H as <-.
  destruct (run_sound _ _ E) as (c & rest & Hs & Hc). now exists [], c, rest.
- destruct (Regex.run p (x :: s)) eqn:E.
  + intros H. injection H as <-.
    destruct (run_sound _ _ E) as (c & rest & Hs & Hc). now exists [], c, rest.
  + intros H. destruct (IH _ H) as (pre & c & rest & -> & Hc).
    now exists (x :: pre), c, rest.
Qed.

Lemma spans_lit_inv l p s g :
  spans (Regex.Lit l :: p) s g ->
  exists m c, s = m ++ c /\ same_letters l m /\ spans p c g.
Proof. inversion 1; subst. eauto. Qed.

Lemma spans_star_inv greedy cls capture p s g :
  spans (Regex.Star greedy cls capture :: p) s g ->
  exists t c g0, s = t ++ c /\ forallb cls t = true /\ spans p c g0 /\
                 g = if capture then t :: g0 else g0.
Proof. inversion 1; subst. eauto 8. Qed.

Lemma spans_nil_inv s g : spans [] s g -> s = [] /\ g = [].
Proof. inversion 1; subst. auto. Qed.

Lemma colon_only m : same_letters (str ":") m -> m = str ":".
Proof.
intros H. inversion H as [|a b l' m' Hab Hrest]; subst.
inversion Hrest; subst.
change (Regex.ci_eqb 58%N b) with (58 =? b)%N in Hab.
apply N.eqb_eq in Hab. now subst.
Qed.

(** X4.  When one of the two paired patterns of the program matches, the
    text holds, in this order: the first label, each of its characters
    matched as [re.IGNORECASE] allows, white space, a colon, white space,
    the first group, white space, the second label matched likewise, white
    space, a colon, white space, the second group; the two groups are the
    ones returned, and neither holds a newline. *)
Theorem paired_match_shape :
  forall label1 label2 text m,
  In (label1, label2)
     [(str "Filing Number", str "Filing Date");
      (str "Registration Number", str "Registration Date")] ->
  Regex.search (Regex.paired label1 label2) text = Some m ->
  exists pre m1 w1 w2 g1 w3 m2 w4 w5 g2 rest,
    text = pre ++ m1 ++ w1 ++ str ":" ++ w2 ++ g1 ++ w3
               ++ m2 ++ w4 ++ str ":" ++ w5 ++ g2 ++ rest /\
    m = [g1; g2] /\
    same_letters label1 m1 /\ same_letters label2 m2 /\
    forallb isspace (w1 ++ w2 ++ w3 ++ w4 ++ w5) = true /\
    ~ In 10%N g1 /\ ~ In 10%N g2.
Proof.
intros l1 l2 text m _ H.
destruct (search_sound _ _ H) as (pre & c & rest & -> & Hc).
unfold Regex.paired, Regex.ws in Hc.
apply spans_lit_inv in Hc as (m1 & c1 & -> & Hm1 & Hc).
apply spans_star_inv in Hc as (w1 & c2 & ? & -> & Hw1 & Hc & ->).
apply spans_lit_inv in Hc as (k1 & c3 & -> & Hk1 & Hc).
apply spans_star_inv in Hc as (w2 & c4 & ? & -> & Hw2 & Hc & ->).
apply spans_star_inv in Hc as (g1 & c5 & ? & -> & Hg1 & Hc & ->).
apply spans_star_inv in Hc as (w3 & c6 & ? & -> & Hw3 & Hc & ->).
apply spans_lit_inv in Hc as (m2 & c7 & -> & Hm2 & Hc).
apply spans_star_inv in Hc as (w4 & c8 & ? & -> & Hw4 & Hc & ->).
apply spans_lit_inv in Hc as (k2 & c9 & -> & Hk2 & Hc).
apply spans_star_inv in Hc as (w5 & c10 & ? & -> & Hw5 & Hc & ->).
apply spans_star_inv in Hc as (g2 & c11 & ? & -> & Hg2 & Hc & ->).
apply spans_nil_inv in Hc as [-> ->].
apply colon_only in Hk1, Hk2. subst k1 k2.
assert (Hnl : forall t, forallb Regex.dot t = true -> ~ In 10%N t).
{ intros t Ht Hin. rewrite forallb_forall in Ht. specialize (Ht _ Hin).
  discriminate Ht. }
exists pre, m1, w1, w2, g1, w3, m2, w4, w5, g2, rest.
split; [|split; [reflexivity|split; [exact Hm1|split; [exact Hm2|split]]]].
- rewrite app_nil_r. repeat rewrite <- app_assoc. reflexivity.
- rewrite !forallb_app, Hw1, Hw2, Hw3, Hw4, Hw5. reflexivity.
- split; apply Hnl; assumption.
Qed.

(** A text whose second label is written with U+0130, the dotted capital
    I. *)
Definition dotted_filing_text : pystr :=
str "Filing number: 12/2020  FIL" ++ [304%N] ++ str "NG DATE :01-02-2020".

Lemma paired_match_shape_witness :
  exists pre m1 w1 w2 g1 w3 m2 w4 w5 g2 rest,
    dotted_filing_text =
      pre ++ m1 ++ w1 ++ str ":" ++ w2 ++ g1 ++ w3
          ++ m2 ++ w4 ++ str ":" ++ w5 ++ g2 ++ rest /\
    [str "12/2020"; str "01-02-2020"] = [g1; g2] /\
    same_letters (str "Filing Number") m1 /\
    same_letters (str "Filing Date") m2 /\
    forallb isspace (w1 ++ w2 ++ w3 ++ w4 ++ w5) = true /\
    ~ In 10%N g1 /\ ~ In 10%N g2.
Proof.
apply (@paired_match_shape (str "Filing Number") (str "Filing Date")).
- left. reflexivity.
- vm_compute. reflexivity.
Defined.

End ExtractMore.

(** ** More of the CAPTCHA loop *)

Module CaptchaMore.

Import Captcha.

(** A poll inside the window that decides nothing. *)
Definition waiting (q : poll) : Prop :=
(elapsed_ms q < 15000)%N /\ classify (seen q) = Pending.

Lemma validate_skips pre : forall rest,
  Forall waiting pre -> validate (pre ++ rest) = validate rest.
Proof.
induction pre as [|q pre IH]; intros rest H; simpl; [reflexivity|].
inversion H as [|? ? [Hq Hc] Hpre]; subst.
apply N.ltb_lt in Hq. rewrite Hq, Hc. now apply IH.
Qed.

(** X7.  The validation loop returns the verdict of the first poll that
    decides, provided the poll is made within fifteen seconds; a poll made
    at fifteen seconds or later is not consulted, whatever it and the
    later ones would show, and the loop then leaves undecided. *)
Theorem validate_first_decisive_poll :
  forall polls,
  (forall pre p rest,
     polls = pre ++ p :: rest -> Forall waiting pre ->
     (15000 <= elapsed_ms p)%N -> validate polls = Pending) /\
  (forall pre p rest,
     polls = pre ++ p :: rest -> Forall waiting pre ->
     (elapsed_ms p < 15000)%N -> classify (seen p) <> Pending ->
     validate polls = classify (seen p)) /\
  (validate polls <> Pending ->
   exists pre p rest,
     polls = pre ++ p :: rest /\ Forall waiting pre /\
     (elapsed_ms p < 15000)%N /\ classify (seen p) = validate polls).
Proof.
intros polls. split; [|split].
- intros pre p rest -> Hpre Hlate. rewrite validate_skips by exact Hpre.
  simpl. apply N.ltb_ge in Hlate. now rewrite Hlate.
- intros pre p rest -> Hpre Hin Hdec. rewrite validate_skips by exact Hpre.
  simpl. apply N.ltb_lt in Hin. rewrite Hin.
  destruct (classify (seen p)); congruence.
- induction polls as [|q polls IH]; simpl; [congruence|].
  destruct (elapsed_ms q <? 15000)%N eqn:E; [|congruence].
  apply N.ltb_lt in E.
  destruct (classify (seen q)) eqn:Ec.
  + intros _. exists [], q, polls. repeat split; auto.
  + intros _. exists [], q, polls. repeat split; auto.
  + intros H. destruct (IH H) as (pre & p & rest & -> & Hpre & Hp & Hc).
    exists (q :: pre), p, rest. repeat split; auto.
    constructor; [now split|exact Hpre].
Qed.

(** *** What the loop sends *)

(** A text fit to be typed into the form: not empty, ASCII letters and
    digits only. *)
Definition usable (t : pystr) : Prop :=
t <> [] /\ forallb isalnum_ascii t = true.

Lemma clean_alnum t : forallb isalnum_ascii (clean t) = true.
Proof.
unfold clean. apply forallb_forall. intros c Hc.
now apply filter_In in Hc as [_ Hc].
Qed.

Ltac nothing_sent :=
  exists []; rewrite app_nil_r; simpl;
  split; [reflexivity|split; [constructor|lia]].

Ltac after_capture e :=
  destruct (ocr e) as [?|]; simpl; [|nothing_sent];
  match goal with
  | |- context [truthy (clean ?u)] =>
      let Et := fresh "Et" in
      destruct (truthy (clean u)) eqn:Et; simpl; [|nothing_sent];
      destruct (submit_ok e); simpl; [|nothing_sent];
      exists [clean u];
      split; [now destruct (validate (polls e))|];
      split;
      [constructor; [|constructor]; split; [|apply clean_alnum];
       let E := fresh "E" in intros E; rewrite E in Et; discriminate
      |destruct (validate (polls e)); simpl; lia]
  end.

Lemma attempt_sends n e st :
  exists new,
    submitted (fst (attempt n e st)) = submitted st ++ new /\
    Forall usable new /\
    (length new + recognitions st <= recognitions (fst (attempt n e st)))%nat /\
    (recognitions (fst (attempt n e st)) <= S (recognitions st))%nat /\
    attempts (fst (attempt n e st)) = S (attempts st).
Proof.
destruct st as [file a r c sent]. unfold attempt.
assert (Hn : exists r',
          (let st := enter (mkState file a r c sent) in
           match n with
           | O => st
           | S _ => if refresh_ok e then refreshed st else st
           end) = mkState file (S a) r' c sent).
{ destruct n; [|destruct (refresh_ok e)]; eexists; reflexivity. }
destruct Hn as [r' Hn]. cbv zeta in Hn |- *. rewrite Hn. clear Hn.
destruct (image_found e); simpl; [|nothing_sent].
destruct (image_complete e); simpl; [|nothing_sent].
destruct (input_found e); simpl; [|nothing_sent].
destruct (screenshot e); simpl.
- after_capture e.
- destruct file; simpl; [|nothing_sent]. after_capture e.
- nothing_sent.
Qed.

Lemma run_attempts_sends envs : forall st,
  exists new,
    submitted (fst (run_attempts envs st)) = submitted st ++ new /\
    Forall usable new /\
    (length new + recognitions st <= recognitions (fst (run_attempts envs st)))%nat /\
    (recognitions (fst (run_attempts envs st)) + attempts st
       <= attempts (fst (run_attempts envs st)) + recognitions st)%nat.
Proof.
induction envs as [|[n e] envs IH]; intros st; simpl.
- exists []. rewrite app_nil_r. repeat split; auto; lia.
- destruct (attempt_sends n e st) as (new1 & H1 & H2 & H3 & H4 & H5).
  destruct (attempt n e st) as [st1 solved]. simpl in *.
  destruct solved; simpl.
  + exists new1. repeat split; auto; lia.
  + destruct (IH st1) as (new2 & I1 & I2 & I3 & I4).
    exists (new1 ++ new2). rewrite I1, H1, app_assoc, length_app.
    repeat split; [now apply Forall_app|lia|lia].
Qed.

(** X8.  Whatever the browser and the OCR engine answer, every text the
    loop types into the form is non-empty and made of ASCII letters and
    digits only; no attempt sends more than one text, none is sent without
    an OCR call before it, and no attempt makes more than one OCR call. *)
Theorem only_usable_text_is_submitted :
  forall world st,
  exists new,
    submitted (fst (resolve world st)) = submitted st ++ new /\
    Forall usable new /\
    (length new + recognitions st <= recognitions (fst (resolve world st)))%nat /\
    (recognitions (fst (resolve world st)) + attempts st
       <= attempts (fst (resolve world st)) + recognitions st)%nat.
Proof.
intros world st. unfold resolve, resolve_within.
destruct (run_attempts_sends
            (List.map (fun i => (i, world i)) (seq 0 max_attempts)) st)
  as (new & H).
destruct (run_attempts _ st) as [st' solved]. simpl in *. now exists new.
Qed.

(** *** When the loop stops *)

Lemma attempt_solved n e st st' :
  attempt n e st = (st', true) ->
  exists t,
    ocr e = Some t /\ clean t <> [] /\ submit_ok e = true /\
    validate (polls e) = Success /\
    submitted st' = submitted st ++ [clean t] /\
    file_exists st' = false.
Proof.
destruct st as [file a r c sent]. unfold attempt. simpl.
destruct n; destruct (refresh_ok e);
  destruct (image_found e), (image_complete e), (input_found e); simpl;
  try discriminate;
  destruct (screenshot e); simpl; try discriminate;
  destruct file; simpl; try discriminate;
  destruct (ocr e) as [t|]; simpl; try discriminate;
  match goal with
  | |- context [truthy ?u] => destruct (truthy u) eqn:Et
  end; simpl; try discriminate;
  destruct (submit_ok e); simpl; try discriminate;
  destruct (validate (polls e)); simpl; try discriminate;
  match goal with
  | Et : truthy (clean ?u) = true |- _ =>
      intros H; injection H as <-; exists u; simpl;
      repeat split; auto; intros E; rewrite E in Et; discriminate
  end.
Qed.

Lemma run_attempts_stops envs : forall st,
  match run_attempts envs st with
  | (st', true) =>
      exists k n e t,
        nth_error envs k = Some (n, e) /\
        attempts st' = (attempts st + S k)%nat /\
        ocr e = Some t /\ clean t <> [] /\ submit_ok e = true /\
        validate (polls e) = Success /\
        (exists front, submitted st' = front ++ [clean t]) /\
        file_exists st' = false
  | (st', false) => attempts st' = (attempts st + length envs)%nat
  end.
Proof.
induction envs as [|[n e] envs IH]; intros st; simpl.
- lia.
- destruct (CaptchaFacts.attempt_counts n e st) as [Ha _].
  destruct (attempt n e st) as [st1 solved] eqn:E. simpl in Ha.
  destruct solved.
  + destruct (attempt_solved _ _ _ E) as (t & H1 & H2 & H3 & H4 & H5 & H6).
    exists O, n, e, t. simpl. repeat split; auto; [lia|eauto].
  + specialize (IH st1). destruct (run_attempts envs st1) as [st' [|]].
    * destruct IH as (k & n' & e' & t & H0 & H1 & H).
      exists (S k), n', e', t. simpl. split; [exact H0|]. split; [lia|exact H].
    * lia.
Qed.

(** X9.  The loop stops at the first attempt whose submission is
    validated: if it ends solved after attempt number [i], then that
    attempt recognized a text that does not clean to nothing, submitted it
    last, and its validation returned success; the capture file is gone.
    If it ends unsolved, all five attempts were made. *)
Theorem resolve_stops_at_first_success :
  forall world st,
  match snd (resolve world st) with
  | Solved =>
      exists i t,
        (i < max_attempts)%nat /\
        attempts (fst (resolve world st)) = (attempts st + S i)%nat /\
        ocr (world i) = Some t /\ clean t <> [] /\
        submit_ok (world i) = true /\
        validate (polls (world i)) = Success /\
        (exists front, submitted (fst (resolve world st)) = front ++ [clean t]) /\
        file_exists (fst (resolve world st)) = false
  | RequiresManualIntervention =>
      attempts (fst (resolve world st)) = (attempts st + max_attempts)%nat
  end.
Proof.
intros world st. unfold resolve, resolve_within.
pose proof (run_attempts_stops
              (List.map (fun i => (i, world i)) (seq 0 max_attempts)) st) as H.
destruct (run_attempts _ st) as [st' [|]]; simpl.
- destruct H as (k & n & e & t & H0 & H1 & H).
  rewrite nth_error_map in H0.
  destruct (nth_error (seq 0 max_attempts) k) as [i|] eqn:Ek; [|discriminate].
  simpl in H0. injection H0 as <- <-.
  assert (Hk : (k < length (seq 0 max_attempts))%nat).
  { apply nth_error_Some. rewrite Ek. discriminate. }
  rewrite length_seq in Hk.
  rewrite nth_error_seq in Ek. 
  assert (Hlt : (k <? max_attempts)%nat = true) by now apply Nat.ltb_lt.
  rewrite Hlt in Ek. injection Ek as <-.
  exists k, t. simpl. split; [exact Hk|]. split; [exact H1|exact H].
- now rewrite length_map, length_seq in H.
Qed.

(** *** When the capture file stays *)

(** An attempt that wrote its screenshot and whose recognition raised. *)
Definition recognition_failed (e : attempt_env) : Prop :=
image_found e = true /\ image_complete e = true /\ input_found e = true /\
screenshot e = Written /\ ocr e = None.

Lemma attempt_leaves_file n e st :
  file_exists (fst (attempt n e st)) = true ->
  recognition_failed e \/
  (file_exists st = true /\
   (image_found e = false \/ image_complete e = false \/ input_found e = false \/
    screenshot e = ScreenshotRaised \/ ocr e = None)).
Proof.
unfold attempt, recognition_failed.
assert (Hrefresh : file_exists
          match n with
          | O => enter st
          | S _ => if refresh_ok e then refreshed (enter st) else enter st
          end = file_exists st).
{ destruct n; [reflexivity|]. now destruct (refresh_ok e). }
set (st1 := match n with
            | O => enter st
            | S _ => if refresh_ok e then refreshed (enter st) else enter st
            end) in *.
destruct (image_found e); simpl; [|intros H; right; rewrite <- Hrefresh; auto].
destruct (image_complete e); simpl; [|intros H; right; rewrite <- Hrefresh; auto].
destruct (input_found e); simpl; [|intros H; right; rewrite <- Hrefresh; auto].
destruct (screenshot e); simpl.
- destruct (ocr e) as [t|]; simpl; [|intros _; left; auto 6].
  destruct (truthy (clean t)); simpl; [|discriminate].
  destruct (submit_ok e); simpl; [|discriminate].
  destruct (validate (polls e)); simpl; discriminate.
- destruct (file_exists st1) eqn:E; simpl.
  + destruct (ocr e) as [t|]; simpl;
      [|intros _; right; rewrite <- Hrefresh; auto 6].
    destruct (truthy (clean t)); simpl; [|discriminate].
    destruct (submit_ok e); simpl; [|discriminate].
    destruct (validate (polls e)); simpl; discriminate.
  + congruence.
- intros H. right. rewrite <- Hrefresh. auto 6.
Qed.

Lemma run_attempts_leaves_file envs : forall st,
  file_exists st = false ->
  file_exists (fst (run_attempts envs st)) = true ->
  exists n e, In (n, e) envs /\ recognition_failed e.
Proof.
induction envs as [|[n e] envs IH]; intros st H0 H; simpl in H.
- congruence.
- destruct (attempt n e st) as [st' solved] eqn:E.
  assert (E' : st' = fst (attempt n e st)) by now rewrite E.
  destruct (file_exists st') eqn:Ef.
  + rewrite E' in Ef. apply attempt_leaves_file in Ef as [Hf|[Hst _]].
    * exists n, e. split; [now left|exact Hf].
    * congruence.
  + destruct solved; simpl in H; [congruence|].
    destruct (IH st' Ef H) as (n' & e' & Hin & Hf).
    exists n', e'. split; [now right|exact Hf].
Qed.

(** X16.  Only a failed recognition leaves the capture file behind: if no
    capture file is on disk when the loop begins and one is there when it
    ends, then in one of the five attempts the screenshot was written and
    the recognition raised. *)
Theorem capture_file_left_only_by_failed_recognition :
  forall world st,
  file_exists st = false ->
  file_exists (fst (resolve world st)) = true ->
  exists i, (i < max_attempts)%nat /\ recognition_failed (world i).
Proof.
intros world st H0 H. unfold resolve in H.
destruct (resolve_within max_attempts world st) as [st' solved] eqn:E.
simpl in H. unfold resolve_within in E.
assert (E' : st' = fst (run_attempts
                          (List.map (fun i => (i, world i)) (seq 0 max_attempts)) st))
  by now rewrite E.
rewrite E' in H.
destruct (run_attempts_leaves_file _ st H0 H) as (n & e & Hin & Hf).
apply in_map_iff in Hin as (i & Hi & Hseq). injection Hi as <- <-.
apply in_seq in Hseq. exists i. split; [lia|exact Hf].
Qed.

Lemma capture_file_left_only_by_failed_recognition_witness :
  exists i, (i < max_attempts)%nat /\
            recognition_failed (CaptchaFacts.ocr_raises).
Proof.
destruct (@capture_file_left_only_by_failed_recognition
            (fun _ => CaptchaFacts.ocr_raises) (initial false) eq_refl eq_refl)
  as (i & Hi & Hf).
exists i. split; [exact Hi|exact Hf].
Defined.

End CaptchaMore.

(** ** More of the report renderer *)

Module PdfMore.

Import Extract Pdf PdfFacts.

Local Open Scope Q_scope.

(** X10.  Text that Latin-1 can hold is printed as it is, and only such
    text: the replacement changes a text exactly when some character of it
    lies outside Latin-1; replacing twice is replacing once. *)
Theorem latin1_text_is_kept :
  forall s,
  (latin1_replace s = s <-> encodable s = true) /\
  latin1_replace (latin1_replace s) = latin1_replace s.
Proof.
assert (H : forall t, encodable t = true -> latin1_replace t = t).
{ induction t as [|c t IH]; simpl; [reflexivity|].
  intros E. apply andb_true_iff in E as [Ec Es].
  now rewrite Ec, IH. }
intros s. split; [split; [|apply H]|].
- intros E. rewrite <- E. apply latin1_replace_encodable.
- apply H. apply latin1_replace_encodable.
Qed.

(** *** A record that fits on the first page *)

Section OnePage.

Variable F : fpdf.

(** The line at which [create_pdf] starts a new page before a section is
    not below the line at which the library breaks the page. *)
Hypothesis room : 250 <= page_break_trigger F.

(** The height of a text printed by [multi_cell] in lines of six. *)
Definition lines_height (f : font) (w : Q) (t : pystr) : Q :=
of_nat (S (extra_lines F f w t)) * 6.

(** The height of a table row: that of its tallest cell. *)
Definition row_height (f : font) (col_width : Q) (texts : list pystr) : Q :=
max_of (List.map (lines_height f col_width) texts).

Definition table_height (content : list (Dict.dict pystr)) : Q :=
match content with
| [] => 6
| first :: _ =>
    match Dict.keys first with
    | [] => 0
    | headers =>
        let col_width := page_width / of_nat (length headers) in
        row_height bold10 col_width (List.map latin1_replace headers)
        + fold_right
            (fun row acc => row_height regular9 col_width (row_texts headers row) + acc)
            0 content
    end
end.

Definition content_height (c : content) : Q :=
match c with
| CDict d => mapping_height F d
| CList rows => table_height rows
| CStr s => lines_height regular10 (r_limit F - l_margin F) (latin1_replace s)
end.

(** A section: its header of height 8, its content, and the 5 of [ln(5)]. *)
Definition section_height (item : pystr * content) : Q :=
8 + content_height (snd item) + 5.

Definition record_height (sections : Dict.dict content) : Q :=
fold_right (fun item acc => section_height item + acc) 0 sections.

Ltac qmax :=
  repeat match goal with
         | |- context [Qmax ?a ?b] =>
             let m := fresh "m" in
             let Hm := fresh "Hm" in
             pose proof (Q.max_spec a b) as Hm;
             set (m := Qmax a b) in *; clearbody m;
             destruct Hm as [[? ?]|[? ?]]
         end.

Lemma auto_break_fits h p :
  y p + h <= page_break_trigger F -> auto_break F h p = p.
Proof.
intros H. unfold auto_break.
now rewrite (proj2 (Qgtb_false _ _) H).
Qed.

Lemma line_cells_fits n w h : forall p,
  0 <= h -> y p + of_nat n * h <= page_break_trigger F ->
  let p' := fst (line_cells F n w h p) in
  page p' = page p /\ x p' = x p /\ cur_font p' = cur_font p /\
  y p' == y p + of_nat n * h.
Proof.
induction n as [|n IH]; intros p Hh Hy; simpl.
- repeat split. unfold of_nat. cbn [Z.of_nat inject_Z]. ring.
- pose proof (of_nat_nonneg n) as Hn.
  assert (Hm : 0 <= of_nat n * h) by (apply Qmult_le_0_compat; assumption).
  assert (HS : of_nat (S n) * h == of_nat n * h + h)
    by (rewrite of_nat_S; ring).
  rewrite auto_break_fits by lra.
  specialize (IH (set_y' (y p + h) p) Hh). simpl in IH.
  destruct (line_cells F n w h (set_y' (y p + h) p)) as [p' boxes].
  simpl in *. destruct IH as (I1 & I2 & I3 & I4); [lra|].
  repeat split; try assumption. lra.
Qed.

Lemma multi_cell_fits k w h t p :
  0 <= h ->
  y p + of_nat (S (extra_lines F (cur_font p) (cell_width F w p) t)) * h
    <= page_break_trigger F ->
  let p' := multi_cell F k w h t p in
  page p' = page p /\ x p' = l_margin F /\ cur_font p' = cur_font p /\
  y p' == y p + of_nat (S (extra_lines F (cur_font p) (cell_width F w p) t)) * h.
Proof.
intros Hh Hy. unfold multi_cell.
pose proof (@line_cells_fits
              (S (extra_lines F (cur_font p) (cell_width F w p) t))
              (cell_width F w p) h p Hh Hy) as H.
destruct (line_cells F _ _ h p) as [p' boxes]. simpl in *.
destruct H as (H1 & H2 & H3 & H4). repeat split; assumption.
Qed.

Lemma lines_height_pos f w t : 6 <= lines_height f w t.
Proof.
unfold lines_height. rewrite of_nat_S.
pose proof (of_nat_nonneg (extra_lines F f w t)). lra.
Qed.

Lemma kv_height_pos kv : 6 <= kv_height F kv.
Proof.
unfold kv_height.
pose proof (lines_height_pos bold10 w_key (latin1_replace (fst kv))).
pose proof (lines_height_pos regular10 w_val (latin1_replace (snd kv))).
unfold lines_height in *. qmax; lra.
Qed.

Lemma mapping_height_nonneg d : 0 <= mapping_height F d.
Proof.
induction d as [|kv d IH]; simpl; [lra|].
pose proof (kv_height_pos kv). lra.
Qed.

Lemma check_page_break_fits limit p :
  y p <= limit -> check_page_break F limit p = p.
Proof.
intros H. unfold check_page_break.
now rewrite (proj2 (Qgtb_false _ _) H).
Qed.

(** A key/value row that fits: the cursor comes back to where the row
    began, lower by the height of the taller cell. *)
Lemma kv_row_fits p kv :
  y p <= 260 -> y p + kv_height F kv <= page_break_trigger F ->
  page (kv_row F p kv) = page p /\ x (kv_row F p kv) = x p /\
  cur_font (kv_row F p kv) = regular10 /\
  y (kv_row F p kv) == y p + kv_height F kv.
Proof.
intros H260 Hy. unfold kv_row. cbv zeta.
rewrite check_page_break_fits by exact H260.
pose proof (lines_height_pos bold10 w_key (latin1_replace (fst kv))) as Pk.
pose proof (lines_height_pos regular10 w_val (latin1_replace (snd kv))) as Pv.
assert (Hk : y p + lines_height bold10 w_key (latin1_replace (fst kv))
             <= page_break_trigger F).
{ revert Hy. unfold kv_height, lines_height in *. qmax; lra. }
assert (Hv : y p + lines_height regular10 w_val (latin1_replace (snd kv))
             <= page_break_trigger F).
{ revert Hy. unfold kv_height, lines_height in *. qmax; lra. }
set (p1 := set_font bold10 p).
assert (W1 : cell_width F w_key p1 = w_key)
  by (apply cell_width_pos; reflexivity).
destruct (@multi_cell_fits KeyText w_key 6 (latin1_replace (fst kv)) p1)
  as (A1 & A2 & A3 & A4); [lra|rewrite W1; exact Hk|].
rewrite W1 in A4.
set (p2 := multi_cell F KeyText w_key 6 (latin1_replace (fst kv)) p1) in *.
set (p3 := set_font regular10 (set_xy (x p + w_key) (y p) p2)).
assert (W3 : cell_width F w_val p3 = w_val)
  by (apply cell_width_pos; reflexivity).
destruct (@multi_cell_fits ValueText w_val 6 (latin1_replace (snd kv)) p3)
  as (B1 & B2 & B3 & B4); [lra|rewrite W3; exact Hv|].
rewrite W3 in B4.
set (p4 := multi_cell F ValueText w_val 6 (latin1_replace (snd kv)) p3) in *.
assert (P1 : page p1 = page p) by reflexivity.
assert (P3 : page p3 = page p2) by reflexivity.
assert (Y1 : y p1 = y p) by reflexivity.
assert (Y3 : y p3 = y p) by reflexivity.
cbn [page x y cur_font set_xy rect_at draw set_font] in *.
split; [congruence|]. split; [reflexivity|]. split; [exact B3|].
rewrite Y1 in A4. rewrite Y3 in B4.
unfold kv_height. fold (lines_height bold10 w_key (latin1_replace (fst kv))).
fold (lines_height regular10 w_val (latin1_replace (snd kv))).
unfold lines_height in *.
cbn [cur_font set_font set_xy p1 p3] in *.
qmax; lra.
Qed.

Lemma fold_kv_row_fits d : forall p,
  y p + mapping_height F d <= 250 ->
  page (fold_left (kv_row F) d p) = page p /\
  x (fold_left (kv_row F) d p) = x p /\
  y (fold_left (kv_row F) d p) == y p + mapping_height F d.
Proof.
induction d as [|kv d IH]; intros p Hy; simpl in *.
- repeat split. ring.
- pose proof (kv_height_pos kv) as Hk.
  pose proof (mapping_height_nonneg d) as Hd.
  destruct (@kv_row_fits p kv) as (A1 & A2 & A3 & A4); [lra|lra|].
  destruct (IH (kv_row F p kv)) as (I1 & I2 & I3); [lra|].
  split; [congruence|]. split; [congruence|]. lra.
Qed.

Lemma fold_max_ge rest : forall y0,
  y0 <= fold_left Qmax rest y0 /\
  (forall a, In a rest -> a <= fold_left Qmax rest y0).
Proof.
induction rest as [|y1 rest IH]; intros y0; simpl.
- split; [lra|]. intros a [].
- destruct (IH (Qmax y0 y1)) as [I1 I2].
  pose proof (Q.le_max_l y0 y1) as Hl.
  pose proof (Q.le_max_r y0 y1) as Hr.
  split; [lra|].
  intros a [<-|Ha]; [lra|]. now apply I2.
Qed.

Lemma max_of_ge ys a : In a ys -> a <= max_of ys.
Proof.
destruct ys as [|y0 rest]; [intros []|]. simpl.
destruct (fold_max_ge rest y0) as [H1 H2].
intros [<-|Ha]; [exact H1|now apply H2].
Qed.

Lemma row_height_nonneg f cw texts : 0 <= row_height f cw texts.
Proof.
unfold row_height. destruct texts as [|t texts]; simpl; [lra|].
destruct (fold_max_ge (List.map (lines_height f cw) texts) (lines_height f cw t))
  as [H _].
pose proof (lines_height_pos f cw t). lra.
Qed.

(** The maximum of cursor heights that lie a known distance below the
    start of the row. *)
Lemma fold_max_shift y_start g : forall (ts : list pystr) ys a b,
  a == y_start + b ->
  Forall2 (fun yy t => yy == y_start + g t) ys ts ->
  fold_left Qmax ys a == y_start + fold_left Qmax (List.map g ts) b.
Proof.
induction ts as [|t ts IH]; intros ys a b Hab H; inversion H; subst; simpl.
- exact Hab.
- apply IH; [|assumption].
  match goal with Hy : _ == y_start + g t |- _ => revert Hy end.
  intros Hy. qmax; lra.
Qed.

Lemma max_of_shift y_start g (ts : list pystr) ys :
  ts <> [] ->
  Forall2 (fun yy t => yy == y_start + g t) ys ts ->
  max_of ys == y_start + max_of (List.map g ts).
Proof.
intros Hne H. destruct H as [|yy t ys ts Hy H]; [congruence|].
simpl. now apply fold_max_shift.
Qed.

Lemma print_cells_from_fits k x_start y_start cw f its : forall acc done,
  0 < cw -> cur_font (fst acc) = f ->
  (forall it, In it its ->
     y_start + lines_height f cw (snd it) <= page_break_trigger F) ->
  Forall2 (fun yy t => yy == y_start + lines_height f cw t) (snd acc) done ->
  let r := fold_left
     (fun (acc : pdf * list Q) (it : nat * pystr) =>
        let p := set_xy (x_start + of_nat (fst it) * cw) y_start (fst acc) in
        let p := multi_cell F k cw 6 (snd it) p in
        (p, snd acc ++ [y p])) its acc in
  page (fst r) = page (fst acc) /\ cur_font (fst r) = f /\
  Forall2 (fun yy t => yy == y_start + lines_height f cw t)
    (snd r) (done ++ List.map snd its).
Proof.
induction its as [|it its IH]; intros acc done Hcw Hf Hfit Hdone; simpl.
- rewrite app_nil_r. repeat split; assumption.
- set (p1 := set_xy (x_start + of_nat (fst it) * cw) y_start (fst acc)).
  assert (W : cell_width F cw p1 = cw) by (apply cell_width_pos; exact Hcw).
  assert (F1 : cur_font p1 = f) by exact Hf.
  assert (Y1 : y p1 = y_start) by reflexivity.
  assert (P1 : page p1 = page (fst acc)) by reflexivity.
  destruct (@multi_cell_fits k cw 6 (snd it) p1) as (A1 & A2 & A3 & A4);
    [lra|rewrite W, F1, Y1; apply Hfit; now left|].
  rewrite W, F1, Y1 in A4.
  fold (lines_height f cw (snd it)) in A4.
  set (p2 := multi_cell F k cw 6 (snd it) p1) in *.
  destruct (IH (p2, snd acc ++ [y p2]) (done ++ [snd it]) Hcw)
    as (I1 & I2 & I3).
  + simpl. congruence.
  + intros it' Hin. apply Hfit. now right.
  + simpl. apply Forall2_app; [exact Hdone|].
    constructor; [exact A4|constructor].
  + simpl in *. split; [congruence|]. split; [exact I2|].
    rewrite <- app_assoc in I3. exact I3.
Qed.

Lemma draw_borders_cursor k x_start y_start cw rh l : forall p,
  let p' := fold_left
     (fun p i => rect_at k (x_start + of_nat i * cw) y_start cw rh p) l p in
  page p' = page p /\ cur_font p' = cur_font p.
Proof.
induction l as [|i l IH]; intros p; simpl; [now split|].
destruct (IH (rect_at k (x_start + of_nat i * cw) y_start cw rh p)) as [I1 I2].
simpl in *. now split.
Qed.

(** A table row that fits ends its own height below where it began. *)
Lemma table_row_fits ktext kborder cw num_cols texts p :
  0 < cw -> texts <> [] -> y p <= 260 ->
  y p + row_height (cur_font p) cw texts <= page_break_trigger F ->
  let p' := table_row F ktext kborder cw num_cols texts p in
  page p' = page p /\ x p' = x p /\ cur_font p' = cur_font p /\
  y p' == y p + row_height (cur_font p) cw texts.
Proof.
intros Hcw Hne H260 Hy. unfold table_row. cbv zeta.
rewrite check_page_break_fits by exact H260.
unfold print_cells.
destruct (@print_cells_from_fits ktext (x p) (y p) cw (cur_font p)
            (combine (seq 0 (length texts)) texts) (p, []) [] Hcw eq_refl)
  as (I1 & I2 & I3).
{ intros [i t] Hin. apply in_combine_r in Hin. simpl.
  assert (Hle : lines_height (cur_font p) cw t <= row_height (cur_font p) cw texts).
  { unfold row_height. apply max_of_ge. now apply in_map. }
  lra. }
{ constructor. }
destruct (fold_left _ _ _) as [p1 ys]. cbn [fst snd] in *.
assert (Hsnd : List.map snd (combine (seq 0 (length texts)) texts) = texts).
{ clear. generalize 0%nat. induction texts as [|t ts IH]; intros n; simpl;
    [reflexivity|]. now rewrite IH. }
rewrite Hsnd in I3. simpl in I3.
pose proof (@max_of_shift (y p) (lines_height (cur_font p) cw) texts ys Hne I3)
  as Hmax.
fold (row_height (cur_font p) cw texts) in Hmax.
unfold draw_borders.
destruct (@draw_borders_cursor kborder (x p) (y p) cw (max_of ys - y p)
            (seq 0 num_cols) p1) as [D1 D2].
cbn [page x y cur_font set_xy] in *.
split; [congruence|]. split; [reflexivity|]. split; [congruence|]. lra.
Qed.

Lemma row_texts_nonempty headers row : headers <> [] -> row_texts headers row <> [].
Proof.
unfold row_texts. destruct headers; [congruence|discriminate].
Qed.

Definition rows_height (col_width : Q) (headers : list pystr)
  (rows : list (Dict.dict pystr)) : Q :=
fold_right
  (fun row acc => row_height regular9 col_width (row_texts headers row) + acc)
  0 rows.

Lemma rows_height_nonneg cw headers rows : 0 <= rows_height cw headers rows.
Proof.
induction rows as [|row rows IH]; simpl; [lra|].
pose proof (row_height_nonneg regular9 cw (row_texts headers row)). lra.
Qed.

Lemma fold_table_row_fits cw num_cols headers rows : forall p,
  0 < cw -> headers <> [] -> cur_font p = regular9 ->
  y p + rows_height cw headers rows <= 250 ->
  let p' := fold_left
     (fun p row => table_row F TableDataText TableDataBorder cw num_cols
                     (row_texts headers row) p) rows p in
  page p' = page p /\ y p' == y p + rows_height cw headers rows.
Proof.
induction rows as [|row rows IH]; intros p Hcw Hne Hf Hy; simpl in *.
- split; [reflexivity|ring].
- pose proof (row_height_nonneg regular9 cw (row_texts headers row)) as Hr.
  pose proof (rows_height_nonneg cw headers rows) as Hrs.
  destruct (@table_row_fits TableDataText TableDataBorder cw num_cols
              (row_texts headers row) p Hcw (row_texts_nonempty row Hne))
    as (A1 & A2 & A3 & A4); [lra|rewrite Hf; lra|].
  rewrite Hf in A4.
  destruct (IH (table_row F TableDataText TableDataBorder cw num_cols
                  (row_texts headers row) p) Hcw Hne) as [I1 I2];
    [congruence|lra|].
  split; [congruence|lra].
Qed.

Lemma table_height_nonneg content : 0 <= table_height content.
Proof.
unfold table_height. destruct content as [|first rest]; [lra|].
destruct (Dict.keys first) as [|h hs]; [lra|].
cbv zeta.
pose proof (row_height_nonneg bold10 (page_width / of_nat (length (h :: hs)))
              (List.map latin1_replace (h :: hs))).
pose proof (rows_height_nonneg (page_width / of_nat (length (h :: hs)))
              (h :: hs) (first :: rest)).
unfold rows_height in *. lra.
Qed.

Lemma render_table_fits content p :
  y p + table_height content <= 250 ->
  page (render_table F content p) = page p /\
  y (render_table F content p) == y p + table_height content.
Proof.
intros Hy. unfold render_table, table_height in *.
destruct content as [|first rest].
- unfold cell. rewrite auto_break_fits by lra. simpl. split; [reflexivity|ring].
- destruct (Dict.keys first) as [|h hs] eqn:E.
  + simpl. split; [reflexivity|ring].
  + cbv zeta in *. cbn [length] in *.
    set (cw := page_width / of_nat (S (length hs))) in *.
    fold (rows_height cw (h :: hs) (first :: rest)) in *.
    assert (Hcw : 0 < cw)
      by (apply (@column_fits (S (length hs)) 0%nat); lia).
    pose proof (row_height_nonneg bold10 cw (List.map latin1_replace (h :: hs)))
      as Hh.
    pose proof (rows_height_nonneg cw (h :: hs) (first :: rest)) as Hr.
    destruct (@table_row_fits TableHeaderText TableHeaderBorder cw
                (S (length hs)) (List.map latin1_replace (h :: hs))
                (set_font bold10 p) Hcw)
      as (A1 & A2 & A3 & A4);
      [discriminate|cbn [y set_font]; lra|cbn [y cur_font set_font]; lra|].
    cbn [cur_font set_font y page] in A1, A3, A4.
    set (p1 := table_row F TableHeaderText TableHeaderBorder cw (S (length hs))
                 (List.map latin1_replace (h :: hs)) (set_font bold10 p)) in *.
    destruct (@fold_table_row_fits cw (S (length hs)) (h :: hs) (first :: rest)
                (set_font regular9 p1) Hcw) as [B1 B2];
      [discriminate|reflexivity|cbn [y set_font]; lra|].
    cbn [y page set_font] in B1, B2.
    split; [congruence|lra].
Qed.

Lemma render_content_fits c p :
  x p = l_margin F -> cur_font p = regular10 ->
  y p + content_height c <= 250 ->
  page (render_content F c p) = page p /\
  y (render_content F c p) == y p + content_height c.
Proof.
intros Hx Hf Hy. destruct c as [d|rows|s]; cbn [content_height render_content] in *.
- destruct (@fold_kv_row_fits d p Hy) as (A1 & _ & A3). now split.
- now apply render_table_fits.
- assert (W : cell_width F 0 p = r_limit F - l_margin F)
    by (rewrite cell_width_0, Hx; reflexivity).
  destruct (@multi_cell_fits TextBlock 0 6 (latin1_replace s) p)
    as (A1 & _ & _ & A4); [lra|rewrite W, Hf; unfold lines_height in Hy; lra|].
  rewrite W, Hf in A4. split; [exact A1|exact A4].
Qed.

Lemma content_height_nonneg c : 0 <= content_height c.
Proof.
destruct c as [d|rows|s]; simpl.
- apply mapping_height_nonneg.
- apply table_height_nonneg.
- pose proof (lines_height_pos regular10 (r_limit F - l_margin F) (latin1_replace s)).
  lra.
Qed.

Lemma render_section_fits p item :
  y p + section_height item <= 250 ->
  page (render_section F p item) = page p /\
  y (render_section F p item) == y p + section_height item.
Proof.
intros Hy. unfold section_height in *.
pose proof (content_height_nonneg (snd item)) as Hc.
unfold render_section. cbv zeta.
rewrite check_page_break_fits by lra.
unfold cell. rewrite auto_break_fits by (simpl; lra).
set (p1 := set_font regular10 _).
destruct (@render_content_fits (snd item) p1) as [A1 A2];
  [reflexivity|reflexivity|simpl; lra|].
simpl in A1, A2. simpl. split; [exact A1|lra].
Qed.

Lemma record_height_nonneg sections : 0 <= record_height sections.
Proof.
induction sections as [|item sections IH]; simpl; [lra|].
unfold section_height. pose proof (content_height_nonneg (snd item)). lra.
Qed.

Lemma fold_render_section_fits sections : forall p,
  y p + record_height sections <= 250 ->
  page (fold_left (render_section F) sections p) = page p /\
  y (fold_left (render_section F) sections p) == y p + record_height sections.
Proof.
induction sections as [|item sections IH]; intros p Hy; simpl in *.
- split; [reflexivity|ring].
- pose proof (record_height_nonneg sections) as Hr.
  destruct (@render_section_fits p item) as [A1 A2]; [lra|].
  destruct (IH (render_section F p item)) as [I1 I2]; [lra|].
  split; [congruence|lra].
Qed.

(** X12.  A record whose sections, laid out one under the other from the
    top of the first page (8 for a header, 6 for each line of the tallest
    cell of a row, 6 for the notice of an empty table, 5 after a section),
    end no lower than 250 is printed on one page, and the cursor ends
    exactly that far down. *)
Theorem fitting_record_stays_on_one_page :
  forall sections,
  top_y F + record_height sections <= 250 ->
  page (render F (DataDict sections)) = 1%nat /\
  y (render F (DataDict sections)) == top_y F + record_height sections /\
  forall doc, create_pdf F (DataDict sections) = Some doc -> pages doc = 1%nat.
Proof.
intros sections Hy.
destruct (@fold_render_section_fits sections (start F) Hy) as [H1 H2].
simpl in H1, H2 |- *.
split; [exact H1|]. split; [exact H2|].
intros doc. unfold create_pdf. cbv zeta.
destruct (forallb _ _); [|discriminate].
intros [= <-]. exact H1.
Qed.

End OnePage.

(** A record of four small sections: 82 mm under the page header. *)
Definition small_record : Dict.dict content :=
[(str "Case Details", CDict [(str "CNR Number", str "MPHC010000012020")]);
 (str "Acts", CList [[(str "Act", str "IPC"); (str "Section", str "420")]]);
 (str "Orders", CList []);
 (str "Petitioner and Advocate", CStr (str "A. Petitioner"))].

Lemma fitting_record_stays_on_one_page_witness :
  page (render (fpdf_a4 one_line) (DataDict small_record)) = 1%nat.
Proof.
assert (Hroom : 250 <= page_break_trigger (fpdf_a4 one_line))
  by (vm_compute; discriminate).
assert (Hfit : top_y (fpdf_a4 one_line)
               + record_height (fpdf_a4 one_line) small_record <= 250)
  by (vm_compute; discriminate).
exact (proj1 (@fitting_record_stays_on_one_page (fpdf_a4 one_line) Hroom
                small_record Hfit)).
Defined.

End PdfMore.

(** ** A row taller than the room under it *)

Module PdfSplit.

Import Extract Pdf PdfFacts PdfMore.

Local Open Scope Q_scope.

(** [multi_cell] starts a new line at every line feed of its text; a text
    whose lines all fit the width of the cell, and which does not end in a
    line feed, has no other line breaks. *)
Definition line_feeds : font -> Q -> pystr -> nat :=
fun _ _ t => length (filter (N.eqb 10) t).

Section Split.

Variable F : fpdf.

Lemma Qgtb_true a b : Qgtb a b = true <-> b < a.
Proof.
unfold Qgtb. rewrite negb_true_iff. split.
- intros H. apply Qnot_le_lt. intros Hle.
  apply Qle_bool_iff in Hle. congruence.
- intros H. destruct (Qle_bool a b) eqn:E; [|reflexivity].
  apply Qle_bool_iff in E. lra.
Qed.

Lemma auto_break_overflow h p :
  page_break_trigger F < y p + h ->
  auto_break F h p = set_x (x p) (add_page F p).
Proof.
intros H. unfold auto_break. now rewrite (proj2 (Qgtb_true _ _) H).
Qed.

Lemma line_cells_app n m w h : forall p,
  line_cells F (n + m) w h p =
  let (p1, b1) := line_cells F n w h p in
  let (p2, b2) := line_cells F m w h p1 in
  (p2, b1 ++ b2).
Proof.
induction n as [|n IH]; intros p; simpl.
- now destruct (line_cells F m w h p).
- rewrite IH.
  destruct (line_cells F n w h (set_y' (y (auto_break F h p) + h) (auto_break F h p)))
    as [p1 b1].
  now destruct (line_cells F m w h p1).
Qed.

(** Lines that fit stay on the page. *)
Lemma line_cells_fits_boxes n w h : forall p,
  0 <= h -> y p + of_nat n * h <= page_break_trigger F ->
  List.map r_page (snd (line_cells F n w h p)) = repeat (page p) n /\
  ops (fst (line_cells F n w h p)) = ops p.
Proof.
induction n as [|n IH]; intros p Hh Hy; simpl.
- now split.
- pose proof (of_nat_nonneg n) as Hn.
  assert (Hm : 0 <= of_nat n * h) by (apply Qmult_le_0_compat; assumption).
  assert (HS : of_nat (S n) * h == of_nat n * h + h)
    by (rewrite of_nat_S; ring).
  rewrite auto_break_fits by lra.
  specialize (IH (set_y' (y p + h) p) Hh). simpl in IH.
  destruct (line_cells F n w h (set_y' (y p + h) p)) as [p' boxes].
  simpl in *. destruct IH as [I1 I2]; [lra|].
  split; [now rewrite I1|exact I2].
Qed.

(** [n] lines fit under the cursor, the next one does not, and the rest
    fit on a fresh page. *)
Lemma line_cells_overflow n m w h p :
  0 <= h -> y p + of_nat n * h <= page_break_trigger F ->
  page_break_trigger F < y p + of_nat (S n) * h ->
  top_y F + of_nat (S m) * h <= page_break_trigger F ->
  let r := line_cells F (n + S m) w h p in
  page (fst r) = S (page p) /\ x (fst r) = x p /\
  cur_font (fst r) = cur_font p /\ ops (fst r) = ops p /\
  y (fst r) == top_y F + of_nat (S m) * h /\
  List.map r_page (snd r) = repeat (page p) n ++ repeat (S (page p)) (S m).
Proof.
intros Hh Hfit Hover Hfresh. cbv zeta. rewrite line_cells_app.
destruct (@line_cells_fits F n w h p Hh Hfit) as (A1 & A2 & A3 & A4).
destruct (@line_cells_fits_boxes n w h p Hh Hfit) as [B1 B2].
destruct (line_cells F n w h p) as [p1 b1]. cbn [fst snd] in *.
assert (HS : of_nat (S n) * h == of_nat n * h + h)
  by (rewrite of_nat_S; ring).
set (q := set_x (x p1) (add_page F p1)).
assert (Hq : line_cells F (S m) w h p1 = line_cells F (S m) w h q).
{ simpl. rewrite (@auto_break_overflow h p1) by lra.
  fold q. rewrite (@auto_break_fits F h q); [reflexivity|].
  simpl. pose proof (of_nat_nonneg m) as Hm.
  assert (0 <= of_nat m * h) by (apply Qmult_le_0_compat; assumption).
  assert (of_nat (S m) * h == of_nat m * h + h) by (rewrite of_nat_S; ring).
  lra. }
rewrite Hq.
destruct (@line_cells_fits F (S m) w h q Hh) as (C1 & C2 & C3 & C4);
  [exact Hfresh|].
destruct (@line_cells_fits_boxes (S m) w h q Hh) as [D1 D2]; [exact Hfresh|].
destruct (line_cells F (S m) w h q) as [p2 b2]. cbn [fst snd] in *.
unfold q in *. cbn [page x y cur_font ops set_x add_page] in *.
split; [congruence|]. split; [congruence|]. split; [congruence|].
split; [congruence|]. split; [exact C4|].
rewrite map_app, B1, D1, A1. reflexivity.
Qed.

Lemma multi_cell_overflow k w h t n m p :
  0 <= h ->
  extra_lines F (cur_font p) (cell_width F w p) t = (n + m)%nat ->
  y p + of_nat n * h <= page_break_trigger F ->
  page_break_trigger F < y p + of_nat (S n) * h ->
  top_y F + of_nat (S m) * h <= page_break_trigger F ->
  exists boxes,
    ops (multi_cell F k w h t p) = ops p ++ [MultiCell k t boxes] /\
    List.map r_page boxes = repeat (page p) n ++ repeat (S (page p)) (S m) /\
    page (multi_cell F k w h t p) = S (page p) /\
    cur_font (multi_cell F k w h t p) = cur_font p /\
    y (multi_cell F k w h t p) == top_y F + of_nat (S m) * h.
Proof.
intros Hh Hlines Hfit Hover Hfresh. unfold multi_cell. rewrite Hlines.
replace (S (n + m)) with (n + S m)%nat by lia.
pose proof (@line_cells_overflow n m (cell_width F w p) h p Hh Hfit Hover Hfresh)
  as H. cbv zeta in H.
destruct (line_cells F (n + S m) (cell_width F w p) h p) as [p' boxes].
cbn [fst snd] in H. destruct H as (H1 & H2 & H3 & H4 & H5 & H6).
exists boxes. simpl. rewrite H4. repeat split; assumption.
Qed.

(** A key/value row whose key and value both have [n] lines that fit under
    the start of the row and more lines that do not: the library breaks
    the page inside the key and again inside the value, and the borders
    are drawn two pages on, from the start of the row upwards. *)
Lemma kv_row_split p kv n m :
  y p <= 260 ->
  extra_lines F bold10 w_key (latin1_replace (fst kv)) = (n + m)%nat ->
  extra_lines F regular10 w_val (latin1_replace (snd kv)) = (n + m)%nat ->
  y p + of_nat n * 6 <= page_break_trigger F ->
  page_break_trigger F < y p + of_nat (S n) * 6 ->
  top_y F + of_nat (S m) * 6 <= page_break_trigger F ->
  top_y F + of_nat (S m) * 6 < y p ->
  exists kboxes vboxes kb vb,
    ops (kv_row F p kv) =
      ops p ++ [MultiCell KeyText (latin1_replace (fst kv)) kboxes;
                MultiCell ValueText (latin1_replace (snd kv)) vboxes;
                Rect KeyBorder kb; Rect ValueBorder vb] /\
    List.map r_page kboxes = repeat (page p) n ++ repeat (S (page p)) (S m) /\
    List.map r_page vboxes =
      repeat (S (page p)) n ++ repeat (S (S (page p))) (S m) /\
    r_page kb = S (S (page p)) /\ r_page vb = S (S (page p)) /\
    r_y kb = y p /\ r_y vb = y p /\ r_h kb < 0 /\ r_h vb < 0 /\
    r_x vb + r_w vb = x p + w_key + w_val /\
    page (kv_row F p kv) = S (S (page p)).
Proof.
intros H260 Hk Hv Hfit Hover Hfresh Hneg. unfold kv_row. cbv zeta.
rewrite check_page_break_fits by exact H260.
set (p1 := set_font bold10 p).
assert (W1 : cell_width F w_key p1 = w_key)
  by (apply cell_width_pos; reflexivity).
destruct (@multi_cell_overflow KeyText w_key 6 (latin1_replace (fst kv)) n m p1)
  as (kboxes & A1 & A2 & A3 & A4 & A5);
  [lra|rewrite W1; exact Hk|exact Hfit|exact Hover|exact Hfresh|].
set (p2 := multi_cell F KeyText w_key 6 (latin1_replace (fst kv)) p1) in *.
set (p3 := set_font regular10 (set_xy (x p + w_key) (y p) p2)).
assert (W3 : cell_width F w_val p3 = w_val)
  by (apply cell_width_pos; reflexivity).
destruct (@multi_cell_overflow ValueText w_val 6 (latin1_replace (snd kv)) n m p3)
  as (vboxes & B1 & B2 & B3 & B4 & B5);
  [lra|rewrite W3; exact Hv|exact Hfit|exact Hover|exact Hfresh|].
set (p4 := multi_cell F ValueText w_val 6 (latin1_replace (snd kv)) p3) in *.
assert (P1 : page p1 = page p) by reflexivity.
assert (P3 : page p3 = page p2) by reflexivity.
assert (O1 : ops p1 = ops p) by reflexivity.
assert (O3 : ops p3 = ops p2) by reflexivity.
exists kboxes, vboxes.
eexists. eexists.
cbn [page x y cur_font ops set_xy rect_at draw set_font r_page r_x r_y r_w r_h].
split.
{ rewrite B1, O3, A1, O1. rewrite <- !app_assoc. reflexivity. }
cbn [r_page r_x r_y r_w r_h].
split; [rewrite A2, P1; reflexivity|].
split; [rewrite B2, P3, A3, P1; reflexivity|].
assert (P4 : page p4 = S (S (page p))) by congruence.
split; [exact P4|]. split; [exact P4|].
split; [reflexivity|]. split; [reflexivity|].
assert (Hh : Qmax (y p2 - y p) (y p4 - y p) < 0).
{ apply Q.max_lub_lt; lra. }
split; [exact Hh|]. split; [exact Hh|].
split; [reflexivity|exact P4].
Qed.

(** Rows that fit one after the other above the page-break line, the last
    of them starting no lower than 260, are all drawn on the page they
    start on. *)
Lemma fold_kv_row_whole d : forall p,
  y p + mapping_height F d <= page_break_trigger F ->
  y p + mapping_height F d <= 266 ->
  page (fold_left (kv_row F) d p) = page p /\
  x (fold_left (kv_row F) d p) = x p /\
  y (fold_left (kv_row F) d p) == y p + mapping_height F d.
Proof.
induction d as [|kv d IH]; intros p Hy H266; simpl in *.
- repeat split. ring.
- pose proof (kv_height_pos F kv) as Hk.
  pose proof (mapping_height_nonneg F d) as Hd.
  destruct (@kv_row_fits F p kv) as (A1 & A2 & A3 & A4); [lra|lra|].
  destruct (IH (kv_row F p kv)) as (I1 & I2 & I3); [lra|lra|].
  split; [congruence|]. split; [congruence|]. lra.
Qed.

End Split.

(** Thirty-six one-line rows, then a row whose key and value have four
    lines each. *)
Definition four_lines : pystr :=
str "first" ++ [10%N] ++ str "second" ++ [10%N] ++ str "third" ++ [10%N]
  ++ str "fourth".

Definition short_rows : Dict.dict pystr :=
List.map (fun i => (str "row " ++ [N.of_nat i], str "v")) (seq 65 36).

Definition split_record : Dict.dict content :=
[(str "Case Status", CDict (short_rows ++ [(four_lines, four_lines)]))].

Lemma ln_page F h p : page (ln F h p) = page p.
Proof. reflexivity. Qed.

(** The cursor under the header of the section. *)
Definition after_header (F : fpdf) : pdf :=
set_font regular10
  (cell F SectionHeader 0 8 (str "Case Status") 1
     (set_font bold12 (check_page_break F 250 (start F)))).

Lemma render_split_record F :
  render F (DataDict split_record) =
  ln F 5 (kv_row F (fold_left (kv_row F) short_rows (after_header F))
            (four_lines, four_lines)).
Proof.
unfold render, split_record.
cbn [fold_left]. unfold render_section. cbn [fst snd render_content].
rewrite fold_left_app. reflexivity.
Qed.

Lemma after_header_cursor F :
  top_y F <= 250 -> top_y F + 8 <= page_break_trigger F ->
  page (after_header F) = 1%nat /\ x (after_header F) = l_margin F /\
  y (after_header F) = top_y F + 8.
Proof.
intros H250 H8. unfold after_header.
rewrite check_page_break_fits by exact H250.
unfold cell. rewrite auto_break_fits by exact H8.
repeat split.
Qed.

(** The rendering of [split_record] for a library in whose geometry the
    last row starts above the 260 line with room for three lines. *)
Lemma split_record_rendering F :
  extra_lines F bold10 w_key (latin1_replace four_lines) = 3%nat ->
  extra_lines F regular10 w_val (latin1_replace four_lines) = 3%nat ->
  mapping_height F short_rows == 216 ->
  top_y F + 8 + 216 <= 260 ->
  top_y F + 8 + 216 + 18 <= page_break_trigger F ->
  page_break_trigger F < top_y F + 8 + 216 + 24 ->
  exists front kboxes vboxes kb vb,
    ops (render F (DataDict split_record)) =
      front ++ [MultiCell KeyText four_lines kboxes;
                MultiCell ValueText four_lines vboxes;
                Rect KeyBorder kb; Rect ValueBorder vb] /\
    r_y kb <= 260 /\ r_y vb <= 260 /\
    List.map r_page kboxes = [1; 1; 1; 2]%nat /\
    List.map r_page vboxes = [2; 2; 2; 3]%nat /\
    r_page kb = 3%nat /\ r_page vb = 3%nat /\
    r_h kb < 0 /\ r_h vb < 0 /\
    r_x vb + r_w vb = l_margin F + w_key + w_val /\
    page (render F (DataDict split_record)) = 3%nat.
Proof.
intros Hk Hv Hm N4 N1 N2.
rewrite render_split_record.
destruct (@after_header_cursor F) as (Hp & Hx & Hy); [lra|lra|].
remember (after_header F) as p_h eqn:Eh. clear Eh.
assert (E3 : of_nat 3 * 6 == 18) by reflexivity.
assert (E4 : of_nat 4 * 6 == 24) by reflexivity.
assert (E1 : of_nat 1 * 6 == 6) by reflexivity.
destruct (@fold_kv_row_whole F short_rows p_h) as (A1 & A2 & A3);
  [rewrite Hy; lra|rewrite Hy; lra|].
rewrite Hy in A3.
remember (fold_left (kv_row F) short_rows p_h) as p36 eqn:E36. clear E36.
destruct (@kv_row_split F p36 (four_lines, four_lines) 3 0)
  as (kboxes & vboxes & kb & vb & B1 & B2 & B3 & B4 & B5 & B6 & B7 & B8 & B9
      & B10 & B11);
  [lra|exact Hk|exact Hv|lra|lra|lra|lra|].
exists (ops p36), kboxes, vboxes, kb, vb.
rewrite ln_ops, ln_page.
split; [exact B1|].
split; [rewrite B6; lra|]. split; [rewrite B7; lra|].
split; [rewrite B2, A1, Hp; reflexivity|].
split; [rewrite B3, A1, Hp; reflexivity|].
split; [rewrite B4, A1, Hp; reflexivity|].
split; [rewrite B5, A1, Hp; reflexivity|].
split; [exact B8|]. split; [exact B9|].
split; [rewrite B10, A2, Hx; reflexivity|].
rewrite B11, A1, Hp. reflexivity.
Qed.

(** C5.  The claim fails on the code.  At FPDF's A4 geometry, a key/value
    section of thirty-six one-line rows followed by a row of four lines:
    the last row starts above the 260 line, so the near-bottom test adds no
    page before it; its fourth line does not fit above the page-break line,
    so the library breaks the page inside the key and again inside the
    value.  The key is printed on pages 1 and 2, the value on pages 2 and
    3, and both border rectangles are drawn on page 3, from the start of
    the row upwards (negative height).  The right edge of the value border,
    190 mm from the left margin, lies beyond the library's right limit. *)
Theorem tall_row_split_by_page_break :
  let F := fpdf_a4 line_feeds in
  let doc := render F (DataDict split_record) in
  exists front kboxes vboxes kb vb,
    ops doc =
      front ++ [MultiCell KeyText four_lines kboxes;
                MultiCell ValueText four_lines vboxes;
                Rect KeyBorder kb; Rect ValueBorder vb] /\
    r_y kb <= 260 /\ r_y vb <= 260 /\
    List.map r_page kboxes = [1; 1; 1; 2]%nat /\
    List.map r_page vboxes = [2; 2; 2; 3]%nat /\
    r_page kb = 3%nat /\ r_page vb = 3%nat /\
    r_h kb < 0 /\ r_h vb < 0 /\
    r_limit F < r_x vb + r_w vb /\
    page doc = 3%nat.
Proof.
intros F doc.
assert (N6 : r_limit F < l_margin F + w_key + w_val)
  by (vm_compute; reflexivity).
destruct (@split_record_rendering F)
  as (front & kboxes & vboxes & kb & vb & H1 & H2 & H3 & H4 & H5 & H6 & H7
      & H8 & H9 & H10 & H11).
- reflexivity.
- reflexivity.
- vm_compute. reflexivity.
- vm_compute. discriminate.
- vm_compute. discriminate.
- vm_compute. reflexivity.
- exists front, kboxes, vboxes, kb, vb. rewrite H10.
  exact (conj H1 (conj H2 (conj H3 (conj H4 (conj H5 (conj H6 (conj H7
           (conj H8 (conj H9 (conj N6 H11)))))))))).
Qed.

End PdfSplit.

(** ** The shape of the record, and what the renderer makes of it *)

Module RecordShape.

Import Soup Extract Pdf PyStrFacts DictFacts ExtractFacts ExtractMore.

(** *** Tables *)

(** All rows have the same keys, in the same order. *)
Definition rectangular (rows : list (Dict.dict pystr)) : Prop :=
forall r1 r2, In r1 rows -> In r2 rows -> Dict.keys r1 = Dict.keys r2.

Lemma spec_rows_rectangular headers rows : rectangular (spec_rows headers rows).
Proof.
assert (H : forall r, In r (spec_rows headers rows) ->
                      Dict.keys r = first_occurrences headers).
{ intros r Hr. unfold spec_rows in Hr.
  apply in_map_iff in Hr as (cols & <- & Hin).
  apply filter_In in Hin as [_ Hlen]. apply Nat.eqb_eq in Hlen.
  now apply keys_zip_row. }
intros r1 r2 H1 H2. now rewrite (H r1 H1), (H r2 H2).
Qed.

Lemma nil_rectangular : rectangular [].
Proof. intros r1 r2 []. Qed.

Lemma acts_data_rectangular sp : rectangular (acts_data sp).
Proof.
unfold acts_data. destruct (find sp _ _); [|apply nil_rectangular].
rewrite table_rows_spec. apply spec_rows_rectangular.
Qed.

Lemma ia_data_rectangular sp : rectangular (ia_data sp).
Proof.
unfold ia_data. destruct (find sp _ _); [|apply nil_rectangular].
rewrite table_rows_spec. apply spec_rows_rectangular.
Qed.

Lemma orders_data_rectangular sp : rectangular (orders_data sp).
Proof.
unfold orders_data. destruct (find sp _ _) as [t|]; [|apply nil_rectangular].
destruct (find t _ _); [|apply nil_rectangular].
rewrite table_rows_spec. apply spec_rows_rectangular.
Qed.

Lemma fir_data_rectangular sp : rectangular (fir_data sp).
Proof.
unfold fir_data. destruct (find sp (str "table") _).
- match goal with
  | |- context [match ?hs with [] => [] | _ :: _ => _ end] => destruct hs
  end; [apply nil_rectangular|].
  rewrite table_rows_spec. apply spec_rows_rectangular.
- destruct (find sp (str "span") _) as [fir_span|]; [|apply nil_rectangular].
  destruct (kv_spans fir_span); [apply nil_rectangular|].
  intros r1 r2 [<-|[]] [<-|[]]. reflexivity.
Qed.

Lemma own_values (row : Dict.dict pystr) :
  NoDup (Dict.keys row) ->
  List.map (fun h => Dict.get_default row h []) (Dict.keys row) = List.map snd row.
Proof.
induction row as [|[k v] row IH]; simpl; [reflexivity|].
intros Hnd. inversion Hnd as [|? ? Hk Hnd']; subst.
unfold Dict.get_default at 1. simpl. rewrite eqb_refl. f_equal.
rewrite <- (IH Hnd'). apply map_ext_in. intros h Hh.
unfold Dict.get_default. simpl.
destruct (PyStr.eqb k h) eqn:E; [|reflexivity].
apply eqb_eq in E. subst h. contradiction.
Qed.

Lemma table_sections_nodup body name rows :
  In (name, CList rows) (parse_html_data body) ->
  Forall (fun r => NoDup (Dict.keys r)) rows.
Proof.
unfold parse_html_data. cbv zeta.
set (sp := soup body).
assert (Hacts : Forall (fun r => NoDup (Dict.keys r)) (acts_data sp)).
{ unfold acts_data. destruct (find sp _ _); [|constructor].
  rewrite table_rows_spec. apply spec_rows_nodup. }
assert (Hia : Forall (fun r => NoDup (Dict.keys r)) (ia_data sp)).
{ unfold ia_data. destruct (find sp _ _); [|constructor].
  rewrite table_rows_spec. apply spec_rows_nodup. }
assert (Hord : Forall (fun r => NoDup (Dict.keys r)) (orders_data sp)).
{ unfold orders_data. destruct (find sp _ _) as [t|]; [|constructor].
  destruct (find t _ _); [|constructor].
  rewrite table_rows_spec. apply spec_rows_nodup. }
pose proof (fir_data_nodup sp) as Hfir.
intros Hin.
destruct (party_block sp _); destruct (party_block sp _);
  destruct (fir_data sp) eqn:Ef;
  repeat (apply in_set in Hin as [Hin|E];
          [|solve [discriminate E | injection E as ->; assumption]]);
  destruct Hin.
Qed.

Lemma table_sections_rectangular body name rows :
  In (name, CList rows) (parse_html_data body) -> rectangular rows.
Proof.
unfold parse_html_data. cbv zeta.
set (sp := soup body).
pose proof (acts_data_rectangular sp) as Hacts.
pose proof (ia_data_rectangular sp) as Hia.
pose proof (orders_data_rectangular sp) as Hord.
pose proof (fir_data_rectangular sp) as Hfir.
intros Hin.
destruct (party_block sp _); destruct (party_block sp _);
  destruct (fir_data sp) eqn:Ef;
  repeat (apply in_set in Hin as [Hin|E];
          [|solve [discriminate E | injection E as ->; assumption]]);
  destruct Hin.
Qed.

(** X13.  Every table section of the record is rectangular: all its rows
    have the keys of its first row, in the same order.  So when the report
    is drawn, with the columns taken from the first row, every row has a
    value of its own for every column and the renderer's default for a
    missing cell is never used: the texts of a row are its own values, in
    order. *)
Theorem parsed_tables_are_rectangular :
  forall body name rows,
  In (name, CList rows) (parse_html_data body) ->
  rectangular rows /\
  forall first rest row,
    rows = first :: rest -> In row rows ->
    (forall h, In h (Dict.keys first) -> Dict.get row h <> None) /\
    row_texts (Dict.keys first) row = List.map latin1_replace (List.map snd row).
Proof.
intros body name rows Hin.
pose proof (table_sections_rectangular body name rows Hin) as Hrect.
pose proof (table_sections_nodup body name rows Hin) as Hnd.
split; [exact Hrect|].
intros first rest row -> Hrow.
assert (Hk : Dict.keys row = Dict.keys first)
  by (apply Hrect; [exact Hrow|now left]).
rewrite Forall_forall in Hnd. specialize (Hnd row Hrow).
split.
- intros h Hh E. apply get_None_not_key in E. apply E. now rewrite Hk.
- rewrite <- Hk. unfold row_texts.
  rewrite <- (@own_values row Hnd), map_map. reflexivity.
Qed.

(** The table of the short-row document. *)
Lemma parsed_tables_are_rectangular_witness :
  rectangular [[(str "A", str "1"); (str "B", str "2")]].
Proof.
apply (proj1 (@parsed_tables_are_rectangular short_row_table (str "Acts")
                [[(str "A", str "1"); (str "B", str "2")]]
                ltac:(vm_compute; auto 10))).
Defined.

(** *** Key/value sections *)

(** What one turn of each key/value loop assigns, if anything. *)
Definition status_pair (lbl : handle) : option (pystr * pystr) :=
match find_all lbl (str "strong") any_tag with
| s0 :: s1 :: _ =>
    Some (clean_text (get_text s0),
          strip (lstrip_colon (clean_text (get_text s1))))
| _ => None
end.

Definition kv_pair (k : handle) : option (pystr * pystr) :=
match find_next_sibling k (str "label") with
| Some v_label =>
    Some (clean_text (get_text k),
          strip (lstrip_colon (clean_text (get_text v_label))))
| None => None
end.

Definition cat_pair (tr : handle) : option (pystr * pystr) :=
match cells [] (str "td") tr with
| c0 :: c1 :: _ => Some (c0, c1)
| _ => None
end.

(** The assignments a loop makes, in order. *)
Definition assignments (A : Type) (entry : A -> option (pystr * pystr)) (l : list A)
  : list (pystr * pystr) :=
flat_map (fun a => match entry a with Some kv => [kv] | None => [] end) l.

(** The value last assigned to a key. *)
Definition last_value (ps : list (pystr * pystr)) (k : pystr) : option pystr :=
option_map snd (List.find (fun kv => PyStr.eqb (fst kv) k) (rev ps)).

(** A dictionary holds what a sequence of assignments leaves: for each key
    its last value, the keys in order of first assignment. *)
Definition written (d : Dict.dict pystr) (ps : list (pystr * pystr)) : Prop :=
(forall k, Dict.get d k = last_value ps k) /\
Dict.keys d = first_occurrences (List.map fst ps).

Lemma fold_assignments (A : Type) (entry : A -> option (pystr * pystr))
  (f : Dict.dict pystr -> A -> Dict.dict pystr) :
  (forall d a, f d a = match entry a with
                       | Some kv => Dict.set d (fst kv) (snd kv)
                       | None => d
                       end) ->
  forall l d,
  fold_left f l d =
  fold_left (fun d kv => Dict.set d (fst kv) (snd kv)) (assignments entry l) d.
Proof.
intros Hf. induction l as [|a l IH]; intros d; simpl; [reflexivity|].
rewrite fold_left_app, IH, Hf. destruct (entry a); reflexivity.
Qed.

Lemma find_snoc (A : Type) (p : A -> bool) (l : list A) (a : A) :
  List.find p (l ++ [a]) =
  match List.find p l with
  | Some x => Some x
  | None => if p a then Some a else None
  end.
Proof.
induction l as [|b l IH]; simpl; [reflexivity|].
destruct (p b); [reflexivity|exact IH].
Qed.

Lemma get_fold_set (ps : list (pystr * pystr)) : forall d k,
  Dict.get (fold_left (fun d kv => Dict.set d (fst kv) (snd kv)) ps d) k =
  match last_value ps k with
  | Some v => Some v
  | None => Dict.get d k
  end.
Proof.
unfold last_value.
induction ps as [|[k0 v0] ps IH]; intros d k; simpl; [reflexivity|].
rewrite IH, find_snoc.
destruct (List.find (fun kv => PyStr.eqb (fst kv) k) (rev ps)) as [[k1 v1]|];
  simpl; [reflexivity|].
destruct (PyStr.eqb k0 k) eqn:E; simpl.
- apply eqb_eq in E. subst. apply get_set_same.
- now apply get_set_other.
Qed.

Lemma of_assignments_written ps :
  written (fold_left (fun d kv => Dict.set d (fst kv) (snd kv)) ps []) ps.
Proof.
split.
- intros k. rewrite get_fold_set. simpl. now destruct (last_value ps k).
- rewrite keys_fold_set. reflexivity.
Qed.

(** X14.  In the key/value sections read in a loop, "Case Status", the
    span lists of "Subordinate Court Information" and "FIR Details", and
    "Category Details", a key that comes up again keeps its place and takes
    the later value; a turn that finds no pair (fewer than two [strong]
    elements, no following [label], fewer than two cells) writes nothing. *)
Theorem later_value_replaces_earlier :
  (forall labels,
     written (fold_left status_entry labels []) (assignments status_pair labels)) /\
  (forall container,
     written (kv_spans container)
       (assignments kv_pair
          (find_all container (str "span") (style_contains (str "width:150px"))))) /\
  (forall trs,
     written (fold_left cat_entry trs []) (assignments cat_pair trs)).
Proof.
split; [|split].
- intros labels.
  rewrite (@fold_assignments handle status_pair status_entry).
  + apply of_assignments_written.
  + intros d lbl. unfold status_entry, status_pair.
    destruct (find_all lbl (str "strong") any_tag) as [|s0 [|s1 r]]; reflexivity.
- intros container. unfold kv_spans.
  rewrite (@fold_assignments handle kv_pair kv_entry).
  + apply of_assignments_written.
  + intros d k. unfold kv_entry, kv_pair.
    destruct (find_next_sibling k (str "label")); reflexivity.
- intros trs.
  rewrite (@fold_assignments handle cat_pair cat_entry).
  + apply of_assignments_written.
  + intros d tr. unfold cat_entry, cat_pair.
    destruct (cells [] (str "td") tr) as [|c0 [|c1 r]]; reflexivity.
Qed.

End RecordShape.

(** ** The case-type step of [scrape_ecourts] *)

Module CaseType.

Import PyStrFacts.

(** [for option in case_type_select.options]: the visible text of the
    first option that has [case_type_text] in it, which is then passed to
    [select_by_visible_text]. *)
Fixpoint first_match (case_type_text : pystr) (options : list pystr) : option pystr :=
match options with
| [] => None
| option_text :: rest =>
    if contains case_type_text option_text then Some option_text
    else first_match case_type_text rest
end.

Inductive selection :=
| Selected (visible_text : pystr)     (* select_by_visible_text(option.text) *)
| NotInDropdown (error : pystr).      (* return {"error": ...} *)

Definition select_case_type (case_type_text : pystr) (options : list pystr)
  : selection :=
match first_match case_type_text options with
| Some visible_text => Selected visible_text
| None =>
    NotInDropdown
      (str "Case type '" ++ case_type_text ++ str "' not found in dropdown.")
end.

(** [p] is a part of [s]: some characters, then [p], then the rest. *)
Definition part_of (p s : pystr) : Prop :=
exists pre post, s = pre ++ p ++ post.

Lemma startswith_spec p : forall s,
  startswith p s = true <-> exists post, s = p ++ post.
Proof.
induction p as [|x p IH]; intros s; simpl.
- split; [intros _; now exists s|reflexivity].
- destruct s as [|y s].
  + split; [discriminate|]. intros [post H]. discriminate H.
  + rewrite andb_true_iff, IH, N.eqb_eq. split.
    * intros [-> [post ->]]. now exists post.
    * intros [post H]. injection H as -> ->. split; [reflexivity|now exists post].
Qed.

Lemma contains_spec p : forall s, contains p s = true <-> part_of p s.
Proof.
unfold part_of.
induction s as [|c s IH].
- simpl. rewrite orb_false_r, startswith_spec. split.
  + intros [post H]. now exists [], post.
  + intros (pre & post & H).
    destruct pre as [|a pre]; [now exists post|discriminate H].
- cbn [contains]. rewrite orb_true_iff, startswith_spec, IH. split.
  + intros [[post H]|(pre & post & H)].
    * now exists [], post.
    * exists (c :: pre), post. simpl. now rewrite H.
  + intros (pre & post & H). destruct pre as [|a pre].
    * left. now exists post.
    * right. injection H as _ H. now exists pre, post.
Qed.

(** X15.  The case type is chosen by partial match, first come first
    served: the option selected is the first one of the dropdown whose
    text has the requested text in it, whether or not a later option
    matches better; the answer is the "not found in dropdown" error exactly
    when no option has the text in it. *)
Theorem case_type_is_first_partial_match :
  forall case_type_text options,
  match select_case_type case_type_text options with
  | Selected chosen =>
      exists before after,
        options = before ++ chosen :: after /\
        part_of case_type_text chosen /\
        Forall (fun o => ~ part_of case_type_text o) before
  | NotInDropdown error =>
      error = str "Case type '" ++ case_type_text ++ str "' not found in dropdown." /\
      Forall (fun o => ~ part_of case_type_text o) options
  end.
Proof.
intros t options. unfold select_case_type.
induction options as [|o options IH]; simpl.
- split; [reflexivity|constructor].
- destruct (contains t o) eqn:E.
  + exists [], options. split; [reflexivity|].
    split; [now apply contains_spec|constructor].
  + assert (Ho : ~ part_of t o).
    { intros H. apply contains_spec in H. congruence. }
    destruct (first_match t options) as [chosen|].
    * destruct IH as (before & after & -> & Hc & Hb).
      exists (o :: before), after. split; [reflexivity|].
      split; [exact Hc|now constructor].
    * destruct IH as [_ Hall]. split; [reflexivity|now constructor].
Qed.

End CaseType.
